(** * aws-provisioner: the fleet state manager ([provisioner/aws-manager.js])

    A shallow embedding of [AwsManager], the object that holds the classified
    EC2 state of the provisioner (living instances, open spot requests, the
    dead slice, the table of submitted-but-not-yet-visible spot requests, the
    two lists of resources awaiting an explanation, and the key pair cache),
    together with the properties of its methods.

    Conventions of the embedding.
    - JavaScript arrays are lists; a [forEach] that accumulates is a fold,
      [filter] and [map] are the list functions, [includes] is [JS.includes].
    - A property that may be [undefined] is an [option]; truthiness of such a
      string is [truthy] (defined and non-empty).
    - Dates are integers, milliseconds since the epoch; [new Date()] is the
      argument [now] of the method that reads the clock, and the time zone of
      the process is the argument [LocalTZA] of the method that computes on
      local time.
    - Capacities and counts are integers ([Z]).
    - A method that mutates [this] returns the new manager; points sent to
      Influx and calls sent to EC2 are returned as lists, in the order of the
      program within one promise.
    - A method that can raise returns a [JS.result].
    - Promises are run to their resolution, and every EC2 call succeeds. *)

From Stdlib Require Import String Ascii List ZArith QArith Bool Lia.
Import ListNotations.

Local Open Scope string_scope.
Local Open Scope Z_scope.
Local Open Scope list_scope.

(** ** JavaScript helpers *)

Module JS.

(** [Array.prototype.includes] on an array of strings. *)
Definition includes (l : list string) (x : string) : bool :=
  existsb (String.eqb x) l.

(** Truthiness of a string-valued property that may be undefined. *)
Definition truthy (o : option string) : bool :=
  match o with
  | Some s => negb (String.eqb s "")
  | None => false
  end.

(** [a === b] for a string [a] and a possibly undefined string [b]. *)
Definition eq_opt (a : string) (b : option string) : bool :=
  match b with
  | Some s => String.eqb a s
  | None => false
  end.

(** Exceptions the modelled methods can raise. *)
Inductive error :=
| TypeError (msg : string)
| AssertionError (msg : string)
| Error (msg : string).

Inductive result (A : Type) :=
| Ok (a : A)
| Throw (e : error).
Arguments Ok {A} a.
Arguments Throw {A} e.

Definition bind {A B} (c : result A) (k : A -> result B) : result B :=
  match c with
  | Ok a => k a
  | Throw e => Throw e
  end.

(** A loop whose body can raise: the first exception ends it. *)
Fixpoint foldM {A B} (f : A -> B -> result A) (l : list B) (a : A) : result A :=
  match l with
  | [] => Ok a
  | x :: l' => bind (f a x) (foldM f l')
  end.

(** Numbers that [parseFloat] produces.  Finite values are exact rationals:
    rounding to a double is not modelled. *)
Inductive number :=
| NaN
| Infinity (negative : bool)
| Num (q : Q).

(** Truthiness of a number: every number but [NaN] and zero. *)
Definition numberTruthy (n : number) : bool :=
  match n with
  | NaN => false
  | Infinity _ => true
  | Num q => negb (Qeq_bool q 0)
  end.

(** Truthiness of a variable that is [undefined] until a number is stored. *)
Definition optTruthy (n : option number) : bool :=
  match n with
  | Some x => numberTruthy x
  | None => false
  end.

Definition isWhiteSpace (c : ascii) : bool :=
  let n := nat_of_ascii c in
  ((n =? 32) || (n =? 9) || (n =? 10) || (n =? 11) || (n =? 12) || (n =? 13))%nat.

Fixpoint trimStart (s : string) : string :=
  match s with
  | String c r => if isWhiteSpace c then trimStart r else s
  | EmptyString => s
  end.

Definition digitOf (c : ascii) : option Z :=
  let n := nat_of_ascii c in
  if ((48 <=? n) && (n <=? 57))%nat then Some (Z.of_nat n - 48) else None.

(** Reads a run of decimal digits: its value appended to [acc], how many
    digits were read, and the rest of the string. *)
Fixpoint readDigits (s : string) (acc : Z) (n : nat) : Z * nat * string :=
  match s with
  | String c r =>
      match digitOf c with
      | Some d => readDigits r (10 * acc + d) (S n)
      | None => (acc, n, s)
      end
  | EmptyString => (acc, n, s)
  end.

(** The exponent part [e[+-]digits] of a decimal literal, 0 when absent. *)
Definition readExponent (s : string) : Z :=
  match s with
  | String c r =>
      if (Ascii.eqb c "e" || Ascii.eqb c "E")%bool then
        let '(neg, r') :=
          match r with
          | String "-" t => (true, t)
          | String "+" t => (false, t)
          | _ => (false, r)
          end in
        let '(e, n, _) := readDigits r' 0 0 in
        if (n =? 0)%nat then 0 else if neg then - e else e
      else 0
  | EmptyString => 0
  end.

Definition pow10 (e : Z) : Q :=
  if e <? 0 then 1 # Z.to_pos (10 ^ (- e)) else inject_Z (10 ^ e).

(** [parseFloat(s)]: leading white space is skipped, the longest prefix that
    is a decimal literal (or [Infinity]) is read, and what follows is
    ignored; [NaN] when there is no such prefix. *)
Definition parseFloat (s : string) : number :=
  let s := trimStart s in
  let '(neg, s) :=
    match s with
    | String "-" r => (true, r)
    | String "+" r => (false, r)
    | _ => (false, s)
    end in
  if String.prefix "Infinity" s then Infinity neg
  else
    let '(ip, ni, s1) := readDigits s 0 0 in
    let '(fp, nf, s2) :=
      match s1 with
      | String "." r => readDigits r 0 0
      | _ => (0, 0%nat, s1)
      end in
    if (ni + nf =? 0)%nat then NaN
    else
      let mantissa := inject_Z (ip * 10 ^ Z.of_nat nf + fp) in
      let q := (mantissa * pow10 (readExponent s2 - Z.of_nat nf))%Q in
      Num (Qred (if neg then - q else q)%Q).

End JS.

(** ** Dates *)

(** A date is its time value, the milliseconds since the epoch, taken in
    the range of a [Date], where [TimeClip] changes nothing.  The time zone
    of the process is ECMAScript's [LocalTZA(t, isUTC)]: the offset of local
    time from UTC, in milliseconds, at the UTC time [t] when [isUTC] holds
    and at the local time [t] otherwise.  The definitions are those of the
    language specification, under their names. *)
Module Date.

Definition msPerSecond : Z := 1000.
Definition msPerMinute : Z := 60000.
Definition msPerHour : Z := 3600000.
Definition msPerDay : Z := 86400000.

Definition Day (t : Z) : Z := t / msPerDay.
Definition HourFromTime (t : Z) : Z := (t / msPerHour) mod 24.
Definition MinFromTime (t : Z) : Z := (t / msPerMinute) mod 60.
Definition SecFromTime (t : Z) : Z := (t / msPerSecond) mod 60.
Definition msFromTime (t : Z) : Z := t mod msPerSecond.

Definition MakeTime (hour min sec ms : Z) : Z :=
  hour * msPerHour + min * msPerMinute + sec * msPerSecond + ms.

Definition MakeDate (day time : Z) : Z := day * msPerDay + time.

Section Zone.

Variable LocalTZA : Z -> bool -> Z.

Definition LocalTime (t : Z) : Z := t + LocalTZA t true.

Definition UTC (t : Z) : Z := t - LocalTZA t false.

(** [d.getMinutes()] *)
Definition getMinutes (d : Z) : Z := MinFromTime (LocalTime d).

(** [d.setMinutes(min)]: the minutes of the local time of [d] are replaced
    and the result is read back as a local time. *)
Definition setMinutes (d min : Z) : Z :=
  let t := LocalTime d in
  UTC (MakeDate (Day t)
         (MakeTime (HourFromTime t) min (SecFromTime t) (msFromTime t))).

End Zone.

(** A time zone whose offset never changes; UTC is the one of offset 0. *)
Definition fixedOffset (offset : Z) : Z -> bool -> Z := fun _ _ => offset.

End Date.

Notation "x <- c ;; k" := (JS.bind c (fun x => k))
  (at level 61, c at next level, right associativity).

Notation "x <- c ;; k" := (JS.bind c (fun x => k))
  (at level 61, c at next level, right associativity).

(** ** The data held in state *)

(** [instance.StateReason] of an EC2 instance. *)
Record StateReason := {
  Code : option string;
  Message : string;
}.

(** An instance as [_classify] stores it: the object EC2 returned, with
    [Region] and [WorkerType] added (both unset before classification). *)
Module Instance.
Record t := {
  InstanceId : string;
  KeyName : string;
  Region : string;
  WorkerType : string;
  InstanceType : string;
  AvailabilityZone : string;          (* Placement.AvailabilityZone *)
  LaunchTime : Z;
  StateCode : Z;                      (* State.Code *)
  StateName : string;                 (* State.Name *)
  SpotInstanceRequestId : option string;
  StateReason : option StateReason;
}.

Definition setRegionAndWorkerType (region workerType : string) (i : t) : t :=
  {| InstanceId := InstanceId i;
     KeyName := KeyName i;
     Region := region;
     WorkerType := workerType;
     InstanceType := InstanceType i;
     AvailabilityZone := AvailabilityZone i;
     LaunchTime := LaunchTime i;
     StateCode := StateCode i;
     StateName := StateName i;
     SpotInstanceRequestId := SpotInstanceRequestId i;
     StateReason := StateReason i |}.
End Instance.

(** A spot request as [_classify] stores it.  EC2 reports the instance type
    of a request under [LaunchSpecification]; [InstanceType] is the top-level
    property of that name, which [capacityForType] reads. *)
Module SpotRequest.
Record t := {
  SpotInstanceRequestId : string;
  KeyName : string;                   (* LaunchSpecification.KeyName *)
  Region : string;
  WorkerType : string;
  InstanceType : option string;       (* request.InstanceType *)
  LaunchInstanceType : string;        (* LaunchSpecification.InstanceType *)
  AvailabilityZone : string;          (* LaunchSpecification.Placement.AvailabilityZone *)
  CreateTime : Z;
  State : string;
  StatusCode : string;                (* Status.Code *)
  StatusUpdateTime : Z;               (* Status.UpdateTime *)
  StatusMessage : string;             (* Status.Message *)
  SpotPrice : string;
  InstanceId : option string;
}.

Definition setRegionAndWorkerType (region workerType : string) (r : t) : t :=
  {| SpotInstanceRequestId := SpotInstanceRequestId r;
     KeyName := KeyName r;
     Region := region;
     WorkerType := workerType;
     InstanceType := InstanceType r;
     LaunchInstanceType := LaunchInstanceType r;
     AvailabilityZone := AvailabilityZone r;
     CreateTime := CreateTime r;
     State := State r;
     StatusCode := StatusCode r;
     StatusUpdateTime := StatusUpdateTime r;
     StatusMessage := StatusMessage r;
     SpotPrice := SpotPrice r;
     InstanceId := InstanceId r |}.
End SpotRequest.

(** The bid handed to [requestSpotInstance]. *)
Record Bid := {
  region : string;
  zone : string;
  type : string;
  price : Q;
}.

(** An entry of [__internalState]: the [info] object that
    [requestSpotInstance] builds and hands to [_trackNewSpotRequest]. *)
Module Tracked.
Record t := {
  workerType : string;
  request : SpotRequest.t;
  bid : Bid;
  submitted : Z;
}.
End Tracked.

(** An entry of [__awaitingStateReason] or [__awaitingSpotFulfilmentStatus]. *)
Record Awaiting := {
  id : string;
  time : Z;
  iterationCount : Z;
}.

(** [__apiState], [__previousApiState] and [__deadState]. *)
Record ApiState := {
  instances : list Instance.t;
  requests : list SpotRequest.t;
}.

(** One element of [workerType.instanceTypes]. *)
Record InstanceTypeConfig := {
  instanceType : string;
  capacity : Z;
}.

(** The worker type definition handed to the manager.  Its class lives in
    another file of the repository; the manager reads [workerType],
    [minCapacity] and [instanceTypes], and calls [capacityOfType], which
    returns a capacity or raises ([None]). *)
Module WorkerType.
Record t := {
  workerType : string;
  minCapacity : Z;
  instanceTypes : list InstanceTypeConfig;
  capacityOfType : option string -> option Z;
}.
End WorkerType.

(** Modelled from the spec: the worker type class is not in this file.  A
    definition lists [instance_types : [{type, capacity, ...}]]; the capacity
    of a type is the [capacity] of its entry, and a type that has no entry
    (the undefined type included) has no known capacity. *)
Definition lookupCapacity (types : list InstanceTypeConfig) (t : option string)
  : option Z :=
  match t with
  | None => None
  | Some name =>
      match find (fun c => String.eqb (instanceType c) name) types with
      | Some c => Some (capacity c)
      | None => None
      end
  end.

Definition mkWorkerType (name : string) (minCap : Z)
    (types : list InstanceTypeConfig) : WorkerType.t :=
  {| WorkerType.workerType := name;
     WorkerType.minCapacity := minCap;
     WorkerType.instanceTypes := types;
     WorkerType.capacityOfType := lookupCapacity types |}.

(** The manager object. *)
Record AwsManager := {
  regions : list string;                          (* this.ec2.regions *)
  provisionerId : string;
  keyPrefix : string;
  pubKey : string;
  __knownKeyPairs : list string;
  __apiState : ApiState;
  __previousApiState : ApiState;
  __deadState : ApiState;
  __internalState : list Tracked.t;
  __awaitingStateReason : list Awaiting;
  __awaitingSpotFulfilmentStatus : list Awaiting;
}.

Definition MAX_ITERATIONS_FOR_STATE_RESOLUTION : Z := 20.

(** ** Influx points *)

(** The two representations of time the reporters are given. *)
Inductive InfluxTime :=
| EpochMs (t : Z)
| IsoString (t : Z).

(** A point handed to one of the reporters set up by the constructor. *)
Inductive Point :=
| spotRequestsFulfilled
    (provisionerId region az instanceType workerType id : string)
    (instanceId : option string) (time : Z)
| spotRequestsDied
    (provisionerId region az instanceType workerType id : string)
    (time : Z) (bid : JS.number) (state statusCode statusMsg : string)
| instanceTerminated
    (provisionerId region az instanceType workerType id : string)
    (spotRequestId : option string) (time launchTime stateCode : Z)
    (stateMsg : string) (stateChangeCode : option string) (stateChangeMsg : string)
| spotPriceFloorFound
    (region az instanceType : string) (time : InfluxTime)
    (price : JS.number) (reason : string)
| ec2ApiLag
    (provisionerId region az instanceType workerType id : string)
    (didShow : Z) (lag : Q).

(** ** The EC2 adapter *)

Module Ec2.

(** A call the manager sends to EC2 through its multi-region wrapper.
    [describeKeyPairs] records the regions asked, for the form [inRegions]
    and for the form that asks every region alike. *)
Inductive call :=
| describeKeyPairs (regions : list string) (keyName : string)
| importKeyPair (region keyName publicKeyMaterial : string)
| deleteKeyPair (region keyName : string)
| terminateInstances (region : string) (InstanceIds : list string)
| cancelSpotInstanceRequests (region : string) (SpotInstanceRequestIds : list string).

(** Modelled from the spec: the wrapper around the per-region EC2 clients is
    not in this file.  The cloud side of the key pair calls is the set of
    (region, key name) pairs that exist; [describeKeyPairs] filtered on a key
    name answers, per region, with the key pairs of that name;
    [importKeyPair] adds the pair to its region and [deleteKeyPair] removes
    it.  Every call is taken to succeed. *)
Definition cloud := list (string * string).

Definition isKey (region keyName : string) (k : string * string) : bool :=
  String.eqb (fst k) region && String.eqb (snd k) keyName.

(** [res[region].KeyPairs] of a [describeKeyPairs] filtered on [keyName]. *)
Definition KeyPairs (c : cloud) (region keyName : string) : list (string * string) :=
  filter (isKey region keyName) c.

(** [!!res[region].KeyPairs[0]] *)
Definition hasKeyPair (c : cloud) (region keyName : string) : bool :=
  match KeyPairs c region keyName with
  | [] => false
  | _ :: _ => true
  end.

Definition import (c : cloud) (region keyName : string) : cloud :=
  if hasKeyPair c region keyName then c else c ++ [(region, keyName)].

Definition delete (c : cloud) (region keyName : string) : cloud :=
  filter (fun k => negb (isKey region keyName k)) c.

End Ec2.

(** ** Objects used as maps *)

(** An object keyed by strings, as the list of its entries in the order
    [Object.keys] enumerates them (insertion order: no key used here is an
    integer index). *)
Definition object (V : Type) := list (string * V).

Fixpoint getKey {V} (k : string) (o : object V) : option V :=
  match o with
  | [] => None
  | (k', v) :: o' => if String.eqb k' k then Some v else getKey k o'
  end.

(** [o[k] = v] *)
Fixpoint setKey {V} (k : string) (v : V) (o : object V) : object V :=
  match o with
  | [] => [(k, v)]
  | (k', v') :: o' =>
      if String.eqb k' k then (k, v) :: o' else (k', v') :: setKey k v o'
  end.

(** ** Filtering the open spot requests *)

(** The status codes of open requests that [_filterSpotRequests] treats as
    unlikely to be fulfilled, as the source spells them. *)
Definition stalledStates : list string :=
  [ "capacity-not-available";
    "capacity-oversubscribed";
    "price-too-low";
    "not-scheduled-yet";
    "launch-group-constraint";
    "az-group-constraint";
    "placement-group-constraint";
    "constraint-not-fulfillable " ].

(** The two buckets for one region, and the points reported so far. *)
Record Buckets := {
  good : list SpotRequest.t;
  stalled : list SpotRequest.t;
  reported : list Point;
}.

(** The body of the loop over [spotReqs[region].SpotInstanceRequests], in
    the time zone [LocalTZA] of the process: [killWhen] is the create time
    with 20 added to the minutes of its local time. *)
Definition filterSpotRequest (LocalTZA : Z -> bool -> Z) (now : Z)
    (region : string) (data : Buckets) (sr : SpotRequest.t) : Buckets :=
  let killWhen :=
    Date.setMinutes LocalTZA (SpotRequest.CreateTime sr)
      (Date.getMinutes LocalTZA (SpotRequest.CreateTime sr) + 20) in
  let stalled1 :=
    if killWhen <? now then stalled data ++ [sr] else stalled data in
  let reported1 :=
    if String.eqb (SpotRequest.StatusCode sr) "price-too-low"
    then reported data ++
           [spotPriceFloorFound region (SpotRequest.AvailabilityZone sr)
              (SpotRequest.LaunchInstanceType sr) (EpochMs now)
              (JS.parseFloat (SpotRequest.SpotPrice sr))
              "spot-request-price-too-low"]
    else reported data in
  if JS.includes stalledStates (SpotRequest.StatusCode sr)
  then {| good := good data; stalled := stalled1 ++ [sr]; reported := reported1 |}
  else {| good := good data ++ [sr]; stalled := stalled1; reported := reported1 |}.

(** [data.good[region]], [data.stalled[region]] and the points reported for
    one region of the response. *)
Definition filterRegion (LocalTZA : Z -> bool -> Z) (now : Z) (region : string)
    (SpotInstanceRequests : list SpotRequest.t) : Buckets :=
  fold_left (filterSpotRequest LocalTZA now region) SpotInstanceRequests
            {| good := []; stalled := []; reported := [] |}.

(** What [_filterSpotRequests] returns, with the points it reported. *)
Record Filtered := {
  data_good : object (list SpotRequest.t);
  data_stalled : object (list SpotRequest.t);
  data_reported : list Point;
}.

(** [_filterSpotRequests(spotReqs)], on the per-region response of
    [describeSpotInstanceRequests]. *)
Definition _filterSpotRequests (LocalTZA : Z -> bool -> Z) (now : Z)
    (spotReqs : object (list SpotRequest.t)) : Filtered :=
  fold_left
    (fun data entry =>
       let region := fst entry in
       let b := filterRegion LocalTZA now region (snd entry) in
       {| data_good := setKey region (good b) (data_good data);
          data_stalled := setKey region (stalled b) (data_stalled data);
          data_reported := data_reported data ++ reported b |})
    spotReqs
    {| data_good := []; data_stalled := []; data_reported := [] |}.

(** ** Classification *)

(** [keyName.substr(keyPrefix.length)] *)
Definition stripPrefix (keyPrefix keyName : string) : string :=
  let n := String.length keyPrefix in
  String.substring n (String.length keyName - n) keyName.

(** [_classify(instanceState, spotReqs)]: the flat lists of instances and of
    requests, region by region in the order of [ec2.regions].  The response
    of a region that is absent from either argument is [undefined], and
    reading it raises. *)
Definition _classify (m : AwsManager)
    (instanceState : object (list (list Instance.t)))
    (spotReqs : object (list SpotRequest.t)) : JS.result ApiState :=
  JS.foldM
    (fun state region =>
       match getKey region instanceState, getKey region spotReqs with
       | Some Reservations, Some reqs =>
           JS.Ok
             {| instances :=
                  instances state ++
                  map (fun instance =>
                         Instance.setRegionAndWorkerType region
                           (stripPrefix (keyPrefix m) (Instance.KeyName instance))
                           instance)
                      (concat Reservations);
                requests :=
                  requests state ++
                  map (fun request =>
                         SpotRequest.setRegionAndWorkerType region
                           (stripPrefix (keyPrefix m) (SpotRequest.KeyName request))
                           request)
                      reqs |}
       | _, _ => JS.Throw (JS.TypeError "Cannot read property of undefined")
       end)
    (regions m)
    {| instances := []; requests := [] |}.

(** ** Differences between two states *)

(** [_compareStates(newState, previousState, deadState)]: the dead instances
    and requests whose ids were in the previous state and are not in the new
    one. *)
Definition _compareStates (newState previousState deadState : ApiState) : ApiState :=
  let allInstancesInPreviousState := map Instance.InstanceId (instances previousState) in
  let allRequestsInPreviousState :=
    map SpotRequest.SpotInstanceRequestId (requests previousState) in
  let allInstancesInNewState := map Instance.InstanceId (instances newState) in
  let allRequestsInNewState :=
    map SpotRequest.SpotInstanceRequestId (requests newState) in
  let missingInstances :=
    filter (fun id => negb (JS.includes allInstancesInNewState id))
           allInstancesInPreviousState in
  let missingRequests :=
    filter (fun id => negb (JS.includes allRequestsInNewState id))
           allRequestsInPreviousState in
  {| instances :=
       filter (fun instance => JS.includes missingInstances (Instance.InstanceId instance))
              (instances deadState);
     requests :=
       filter (fun request =>
                 JS.includes missingRequests (SpotRequest.SpotInstanceRequestId request))
              (requests deadState) |}.

Section Reconcile.

(** The manager, the dead state and the api state that
    [_reconcileStateDifferences] closes over, and the clock. *)
Variable that : AwsManager.
Variables deadState apiState : ApiState.
Variable now : Z.

Definition plotSpotFulfilment (request : SpotRequest.t) : Point :=
  spotRequestsFulfilled (provisionerId that)
    (SpotRequest.Region request) (SpotRequest.AvailabilityZone request)
    (SpotRequest.LaunchInstanceType request) (SpotRequest.WorkerType request)
    (SpotRequest.SpotInstanceRequestId request) (SpotRequest.InstanceId request)
    (SpotRequest.StatusUpdateTime request).

Definition isFulfilled (request : SpotRequest.t) : bool :=
  String.eqb (SpotRequest.State request) "active"
  && String.eqb (SpotRequest.StatusCode request) "fulfilled".

(** The body of [differences.requests.forEach]: the list of requests
    awaiting their status and the points reported so far. *)
Definition departedRequest (acc : list Awaiting * list Point)
    (request : SpotRequest.t) : list Awaiting * list Point :=
  let '(awaiting, points) := acc in
  if isFulfilled request then
    (awaiting, points ++ [plotSpotFulfilment request])
  else if String.eqb (SpotRequest.State request) "open" then
    (awaiting ++ [{| id := SpotRequest.SpotInstanceRequestId request;
                     time := now;
                     iterationCount := 0 |}],
     points)
  else
    (awaiting,
     points ++
       [spotRequestsDied (provisionerId that)
          (SpotRequest.Region request) (SpotRequest.AvailabilityZone request)
          (SpotRequest.LaunchInstanceType request) (SpotRequest.WorkerType request)
          (SpotRequest.SpotInstanceRequestId request)
          (SpotRequest.StatusUpdateTime request)
          (JS.parseFloat (SpotRequest.SpotPrice request))
          (SpotRequest.State request) (SpotRequest.StatusCode request)
          (SpotRequest.StatusMessage request)]).

(** [requestMightHave.SpotInstanceRequestId === requestAwaiting]: strict
    equality of a string with an object, which holds for no pair. *)
Definition strictEqualsObject (s : string) (o : Awaiting) : bool := false.

(** [iterationCount++ > MAX_ITERATIONS_FOR_STATE_RESOLUTION]: the test reads
    the count before the increment. *)
Definition outlived (a : Awaiting) : bool :=
  iterationCount a >? MAX_ITERATIONS_FOR_STATE_RESOLUTION.

Definition incremented (a : Awaiting) : Awaiting :=
  {| id := id a; time := time a; iterationCount := iterationCount a + 1 |}.

(** The predicate of the filter over [__awaitingSpotFulfilmentStatus]:
    whether the entry is kept, the entry after its count was incremented,
    and the points reported. *)
Definition awaitingSpotRequest (requestAwaiting : Awaiting)
  : bool * Awaiting * list Point :=
  let '(keepInTheList, points) :=
    fold_left
      (fun '(keep, points) requestMightHave =>
         if strictEqualsObject (SpotRequest.SpotInstanceRequestId requestMightHave)
                               requestAwaiting
         then
           if isFulfilled requestMightHave
           then (false, points ++ [plotSpotFulfilment requestMightHave])
           else (keep, points)
         else (keep, points))
      (requests deadState) (true, []) in
  let keepInTheList := if outlived requestAwaiting then false else keepInTheList in
  (keepInTheList, incremented requestAwaiting, points).

(** A filter whose predicate mutates the element and reports points. *)
Definition sweep (pred : Awaiting -> bool * Awaiting * list Point)
    (l : list Awaiting) : list Awaiting * list Point :=
  fold_left
    (fun '(kept, points) a =>
       let '(keep, a', ps) := pred a in
       (if keep then kept ++ [a'] else kept, points ++ ps))
    l ([], []).

(** The body of the two loops that look for the bid of a killed instance. *)
Definition priceOf (instance : Instance.t) (price : option JS.number)
    (request : SpotRequest.t) : option JS.number :=
  if negb (JS.optTruthy price)
     && JS.eq_opt (SpotRequest.SpotInstanceRequestId request)
                  (Instance.SpotInstanceRequestId instance)
  then Some (JS.parseFloat (SpotRequest.SpotPrice request))
  else price.

(** [plotInstanceDeath(instance, time)].  Both call sites have checked that
    [instance.StateReason] is set; [reason] is that property. *)
Definition plotInstanceDeath (instance : Instance.t) (reason : StateReason)
    (time : Z) : list Point :=
  instanceTerminated (provisionerId that)
    (Instance.Region instance) (Instance.AvailabilityZone instance)
    (Instance.InstanceType instance) (Instance.WorkerType instance)
    (Instance.InstanceId instance) (Instance.SpotInstanceRequestId instance)
    time (Instance.LaunchTime instance) (Instance.StateCode instance)
    (Instance.StateName instance) (Code reason) (Message reason)
  ::
  if JS.eq_opt "Server.SpotInstanceTermination" (Code reason) then
    let price := fold_left (priceOf instance) (requests deadState) None in
    let price := fold_left (priceOf instance) (requests apiState) price in
    match price with
    | Some p =>
        if JS.numberTruthy p then
          [spotPriceFloorFound (Instance.Region instance)
             (Instance.AvailabilityZone instance) (Instance.InstanceType instance)
             (IsoString now) p "instance-spot-killed"]
        else []
    | None => []
    end
  else [].

(** [instance.StateReason && instance.StateReason.Code], as the reason when
    the test holds. *)
Definition hasStateReason (instance : Instance.t) : option StateReason :=
  match Instance.StateReason instance with
  | Some reason => if JS.truthy (Code reason) then Some reason else None
  | None => None
  end.

(** The body of [differences.instances.forEach]. *)
Definition departedInstance (acc : list Awaiting * list Point)
    (instance : Instance.t) : list Awaiting * list Point :=
  let '(awaiting, points) := acc in
  match hasStateReason instance with
  | Some reason => (awaiting, points ++ plotInstanceDeath instance reason now)
  | None =>
      (awaiting ++ [{| id := Instance.InstanceId instance;
                       time := now;
                       iterationCount := 0 |}],
       points)
  end.

(** The predicate of the filter over [__awaitingStateReason]. *)
Definition awaitingInstance (instanceAwaiting : Awaiting)
  : bool * Awaiting * list Point :=
  let '(keepItInTheList, points) :=
    fold_left
      (fun '(keep, points) instanceMightHave =>
         if String.eqb (Instance.InstanceId instanceMightHave) (id instanceAwaiting)
         then
           match hasStateReason instanceMightHave with
           | Some reason =>
               (false,
                points ++ plotInstanceDeath instanceMightHave reason
                            (time instanceAwaiting))
           | None => (keep, points)
           end
         else (keep, points))
      (instances deadState) (true, []) in
  let keepItInTheList := if outlived instanceAwaiting then false else keepItInTheList in
  (keepItInTheList, incremented instanceAwaiting, points).

(** [_reconcileStateDifferences(differences, deadState, apiState)]: the new
    [__awaitingSpotFulfilmentStatus], the new [__awaitingStateReason] and the
    points reported, in order. *)
Definition reconcileStateDifferences (differences : ApiState)
  : list Awaiting * list Awaiting * list Point :=
  let '(awaitingSpot, points1) :=
    fold_left departedRequest (requests differences)
              (__awaitingSpotFulfilmentStatus that, []) in
  let '(awaitingSpot, points2) := sweep awaitingSpotRequest awaitingSpot in
  let '(awaitingReason, points3) :=
    fold_left departedInstance (instances differences)
              (__awaitingStateReason that, []) in
  let '(awaitingReason, points4) := sweep awaitingInstance awaitingReason in
  (awaitingSpot, awaitingReason, points1 ++ points2 ++ points3 ++ points4).

End Reconcile.

(** ** Assignments to the fields of the manager *)

Definition setAwaiting (m : AwsManager) (awaitingSpot awaitingReason : list Awaiting)
  : AwsManager :=
  {| regions := regions m;
     provisionerId := provisionerId m;
     keyPrefix := keyPrefix m;
     pubKey := pubKey m;
     __knownKeyPairs := __knownKeyPairs m;
     __apiState := __apiState m;
     __previousApiState := __previousApiState m;
     __deadState := __deadState m;
     __internalState := __internalState m;
     __awaitingStateReason := awaitingReason;
     __awaitingSpotFulfilmentStatus := awaitingSpot |}.

Definition setInternalState (m : AwsManager) (internalState : list Tracked.t)
  : AwsManager :=
  {| regions := regions m;
     provisionerId := provisionerId m;
     keyPrefix := keyPrefix m;
     pubKey := pubKey m;
     __knownKeyPairs := __knownKeyPairs m;
     __apiState := __apiState m;
     __previousApiState := __previousApiState m;
     __deadState := __deadState m;
     __internalState := internalState;
     __awaitingStateReason := __awaitingStateReason m;
     __awaitingSpotFulfilmentStatus := __awaitingSpotFulfilmentStatus m |}.

Definition setKnownKeyPairs (m : AwsManager) (knownKeyPairs : list string)
  : AwsManager :=
  {| regions := regions m;
     provisionerId := provisionerId m;
     keyPrefix := keyPrefix m;
     pubKey := pubKey m;
     __knownKeyPairs := knownKeyPairs;
     __apiState := __apiState m;
     __previousApiState := __previousApiState m;
     __deadState := __deadState m;
     __internalState := __internalState m;
     __awaitingStateReason := __awaitingStateReason m;
     __awaitingSpotFulfilmentStatus := __awaitingSpotFulfilmentStatus m |}.

(** [_reconcileStateDifferences] as a method: the manager with its two lists
    of awaiting resources replaced, and the points reported. *)
Definition _reconcileStateDifferences (m : AwsManager)
    (differences deadState apiState : ApiState) (now : Z)
  : AwsManager * list Point :=
  let '(awaitingSpot, awaitingReason, points) :=
    reconcileStateDifferences m deadState apiState now differences in
  (setAwaiting m awaitingSpot awaitingReason, points).

(** ** Queries on state *)

(** The default of the [states] argument of [capacityForType] and
    [killByName]. *)
Definition defaultStates : list string := ["running"; "pending"; "spotReq"].

Definition statesOrDefault (states : option (list string)) : list string :=
  match states with
  | Some s => s
  | None => defaultStates
  end.

(** [instancesOfType], called with one worker type name. *)
Definition instancesOfType (m : AwsManager) (workerType : string)
  : list Instance.t :=
  filter (fun instance => JS.includes [workerType] (Instance.WorkerType instance))
         (instances (__apiState m)).

(** [requestsOfType], called with one worker type name. *)
Definition requestsOfType (m : AwsManager) (workerType : string)
  : list SpotRequest.t :=
  filter (fun request => JS.includes [workerType] (SpotRequest.WorkerType request))
         (requests (__apiState m)).

Definition pushIfMissing (workerTypes : list string) (name : string) : list string :=
  if JS.includes workerTypes name then workerTypes else workerTypes ++ [name].

(** [knownWorkerTypes]: the worker types of instances, then of requests, then
    of the internal state, each once, in order of first appearance. *)
Definition knownWorkerTypes (m : AwsManager) : list string :=
  let workerTypes :=
    fold_left (fun acc instance => pushIfMissing acc (Instance.WorkerType instance))
              (instances (__apiState m)) [] in
  let workerTypes :=
    fold_left (fun acc request => pushIfMissing acc (SpotRequest.WorkerType request))
              (requests (__apiState m)) workerTypes in
  fold_left (fun acc sr => pushIfMissing acc (SpotRequest.WorkerType (Tracked.request sr)))
            (__internalState m) workerTypes.

(** [try { capacity += workerType.capacityOfType(t); } catch (err) { capacity++; }] *)
Definition addCapacityOf (workerType : WorkerType.t) (capacity : Z)
    (t : option string) : Z :=
  match WorkerType.capacityOfType workerType t with
  | Some c => capacity + c
  | None => capacity + 1
  end.

(** [capacityForType(workerType, states)]. *)
Definition capacityForType (m : AwsManager) (workerType : WorkerType.t)
    (states : option (list string)) : Z :=
  let states := statesOrDefault states in
  let capacity := 0 in
  let instances := instancesOfType m (WorkerType.workerType workerType) in
  let requests := requestsOfType m (WorkerType.workerType workerType) in
  let capacity :=
    fold_left (fun capacity instance =>
                 if JS.includes states (Instance.StateName instance)
                 then addCapacityOf workerType capacity
                        (Some (Instance.InstanceType instance))
                 else capacity)
              instances capacity in
  let capacity :=
    fold_left (fun capacity request =>
                 if JS.includes states "spotReq"
                 then addCapacityOf workerType capacity
                        (SpotRequest.InstanceType request)
                 else capacity)
              requests capacity in
  let capacity :=
    fold_left (fun capacity sr =>
                 if JS.includes states "spotReq"
                 then addCapacityOf workerType capacity
                        (SpotRequest.InstanceType (Tracked.request sr))
                 else capacity)
              (__internalState m) capacity in
  capacity.

(** ** The table of submitted spot requests *)

(** [knownSpotInstanceRequestIds]: the ids of the requests of the api state,
    then the spot request ids of its instances that are set and not yet
    listed. *)
Definition knownSpotInstanceRequestIds (m : AwsManager) : list string :=
  let allKnownSrIds :=
    map SpotRequest.SpotInstanceRequestId (requests (__apiState m)) in
  fold_left
    (fun allKnownSrIds instance =>
       match Instance.SpotInstanceRequestId instance with
       | Some sird =>
           if JS.truthy (Some sird) && negb (JS.includes allKnownSrIds sird)
           then allKnownSrIds ++ [sird]
           else allKnownSrIds
       | None => allKnownSrIds
       end)
    (instances (__apiState m)) allKnownSrIds.

(** The entry as [_trackNewSpotRequest] stores it: its request carries the
    region of the bid and the worker type. *)
Definition tracked (sr : Tracked.t) : Tracked.t :=
  {| Tracked.workerType := Tracked.workerType sr;
     Tracked.request :=
       SpotRequest.setRegionAndWorkerType (region (Tracked.bid sr))
         (Tracked.workerType sr) (Tracked.request sr);
     Tracked.bid := Tracked.bid sr;
     Tracked.submitted := Tracked.submitted sr |}.

(** [_trackNewSpotRequest(sr)]. *)
Definition _trackNewSpotRequest (m : AwsManager) (sr : Tracked.t) : AwsManager :=
  let allKnownSrIds := knownSpotInstanceRequestIds m in
  if negb (JS.includes allKnownSrIds
             (SpotRequest.SpotInstanceRequestId (Tracked.request sr)))
  then setInternalState m (__internalState m ++ [tracked sr])
  else m.

Definition lagPoint (m : AwsManager) (now : Z) (request : Tracked.t) (didShow : Z)
  : Point :=
  ec2ApiLag (provisionerId m)
    (SpotRequest.Region (Tracked.request request))
    (SpotRequest.AvailabilityZone (Tracked.request request))
    (SpotRequest.LaunchInstanceType (Tracked.request request))
    (SpotRequest.WorkerType (Tracked.request request))
    (SpotRequest.SpotInstanceRequestId (Tracked.request request))
    didShow
    (Qred ((now - Tracked.submitted request) # 1000)).

(** The predicate of the filter of [_reconcileInternalState]: whether the
    entry stays, and the points reported for it. *)
Definition stillInFlight (m : AwsManager) (now : Z) (allKnownSrIds : list string)
    (request : Tracked.t) : bool * list Point :=
  if JS.includes allKnownSrIds
       (SpotRequest.SpotInstanceRequestId (Tracked.request request))
  then (false, [lagPoint m now request 0])
  else if now - Tracked.submitted request >=? 15 * 60 * 1000
  then (false, [lagPoint m now request 1])
  else (true, []).

(** [_reconcileInternalState()]. *)
Definition _reconcileInternalState (m : AwsManager) (now : Z)
  : AwsManager * list Point :=
  let allKnownSrIds := knownSpotInstanceRequestIds m in
  (setInternalState m
     (filter (fun request => fst (stillInFlight m now allKnownSrIds request))
             (__internalState m)),
   flat_map (fun request => snd (stillInFlight m now allKnownSrIds request))
            (__internalState m)).

(** ** Key pairs *)

(** What a method that talks to EC2 about key pairs leaves behind: the
    manager, the key pairs that exist, and the calls it sent, in order. *)
Record World := {
  manager : AwsManager;
  keyPairs : Ec2.cloud;
  sent : list Ec2.call;
}.

(** [assert(workerName)] *)
Definition assertName (workerName : string) : JS.result unit :=
  if JS.truthy (Some workerName) then JS.Ok tt
  else JS.Throw (JS.AssertionError "workerName").

Definition keyNameOf (m : AwsManager) (workerName : string) : string :=
  String.append (keyPrefix m) workerName.

(** [createKeyPair(workerName)], run to the resolution of its promise. *)
Definition createKeyPair (w : World) (workerName : string) : JS.result World :=
  _ <- assertName workerName ;;
  let m := manager w in
  let keyName := keyNameOf m workerName in
  if JS.includes (__knownKeyPairs m) workerName then JS.Ok w
  else
    let toCreate :=
      filter (fun region => negb (Ec2.hasKeyPair (keyPairs w) region keyName))
             (regions m) in
    JS.Ok
      {| manager := setKnownKeyPairs m (__knownKeyPairs m ++ [workerName]);
         keyPairs :=
           fold_left (fun c region => Ec2.import c region keyName) toCreate (keyPairs w);
         sent :=
           sent w ++
           Ec2.describeKeyPairs (regions m) keyName
           :: map (fun region => Ec2.importKeyPair region keyName (pubKey m)) toCreate |}.

(** [deleteKeyPair(workerName)], run to the resolution of its promise. *)
Definition deleteKeyPair (w : World) (workerName : string) : JS.result World :=
  _ <- assertName workerName ;;
  let m := manager w in
  let keyName := keyNameOf m workerName in
  let toDelete :=
    filter (fun region => Ec2.hasKeyPair (keyPairs w) region keyName) (regions m) in
  JS.Ok
    {| manager :=
         setKnownKeyPairs m
           (filter (fun knownKeyPair => negb (String.eqb knownKeyPair workerName))
                   (__knownKeyPairs m));
       keyPairs :=
         fold_left (fun c region => Ec2.delete c region keyName) toDelete (keyPairs w);
       sent :=
         sent w ++
         Ec2.describeKeyPairs (regions m) keyName
         :: map (fun region => Ec2.deleteKeyPair region keyName) toDelete |}.

(** ** Killing *)

Definition orEmpty (l : option (list string)) : list string :=
  match l with
  | Some ids => ids
  | None => []
  end.

(** [killCancel(region, instances, requests)]: the calls it sends. *)
Definition killCancel (region : string) (instances requests : option (list string))
  : JS.result (list Ec2.call) :=
  match instances, requests with
  | None, None => JS.Throw (JS.AssertionError "instances || requests")
  | _, _ =>
      let i := orEmpty instances in
      let r := orEmpty requests in
      JS.Ok
        ((match i with
          | [] => []
          | _ :: _ => [Ec2.terminateInstances region i]
          end)
         ++
         (match r with
          | [] => []
          | _ :: _ => [Ec2.cancelSpotInstanceRequests region r]
          end))
  end.

(** The ids collected for one region by [killByName]. *)
Record Kills := {
  kill_instances : list string;
  kill_requests : list string;
}.

(** [perRegionKills[region].instances.push(id)]: raises when [region] is not
    a key of the object. *)
Definition pushInstance (region id : string) (o : object Kills)
  : JS.result (object Kills) :=
  match getKey region o with
  | Some k =>
      JS.Ok (setKey region
               {| kill_instances := kill_instances k ++ [id];
                  kill_requests := kill_requests k |} o)
  | None => JS.Throw (JS.TypeError "Cannot read property 'instances' of undefined")
  end.

(** [perRegionKills[region].requests.push(id)] *)
Definition pushRequest (region id : string) (o : object Kills)
  : JS.result (object Kills) :=
  match getKey region o with
  | Some k =>
      JS.Ok (setKey region
               {| kill_instances := kill_instances k;
                  kill_requests := kill_requests k ++ [id] |} o)
  | None => JS.Throw (JS.TypeError "Cannot read property 'requests' of undefined")
  end.

Definition emptyKills (regions : list string) : object Kills :=
  fold_left (fun o region =>
               setKey region {| kill_instances := []; kill_requests := [] |} o)
            regions [].

(** [killByName(name, states)]: the calls it sends. *)
Definition killByName (m : AwsManager) (name : string)
    (states : option (list string)) : JS.result (list Ec2.call) :=
  let states := statesOrDefault states in
  let perRegionKills := emptyKills (regions m) in
  perRegionKills <-
    JS.foldM (fun o instance =>
                if String.eqb (Instance.WorkerType instance) name
                   && JS.includes states (Instance.StateName instance)
                then pushInstance (Instance.Region instance)
                       (Instance.InstanceId instance) o
                else JS.Ok o)
             (instances (__apiState m)) perRegionKills ;;
  perRegionKills <-
    JS.foldM (fun o request =>
                if String.eqb (SpotRequest.WorkerType request) name
                   && JS.includes states "spotReq"
                then pushRequest (SpotRequest.Region request)
                       (SpotRequest.SpotInstanceRequestId request) o
                else JS.Ok o)
             (requests (__apiState m)) perRegionKills ;;
  perRegionKills <-
    JS.foldM (fun o sr =>
                if String.eqb (SpotRequest.WorkerType (Tracked.request sr)) name
                   && JS.includes states "spotReq"
                then pushRequest (SpotRequest.Region (Tracked.request sr))
                       (SpotRequest.SpotInstanceRequestId (Tracked.request sr)) o
                else JS.Ok o)
             (__internalState m) perRegionKills ;;
  JS.foldM (fun deaths entry =>
              calls <- killCancel (fst entry)
                         (Some (kill_instances (snd entry)))
                         (Some (kill_requests (snd entry))) ;;
              JS.Ok (deaths ++ calls))
           perRegionKills [].

(** [rougeKiller(configuredWorkers)], run to the resolution of its promise.
    The promises of the rouge worker types touch disjoint resources; their
    work is laid out one worker type after the other, so [sent] tells which
    calls were sent, and not the order in which they reached EC2. *)
Definition rougeKiller (w : World) (configuredWorkers : list string)
  : JS.result World :=
  let workersInState := knownWorkerTypes (manager w) in
  JS.foldM
    (fun w name =>
       w <- deleteKeyPair w name ;;
       calls <- killByName (manager w) name None ;;
       JS.Ok {| manager := manager w;
                keyPairs := keyPairs w;
                sent := sent w ++ calls |})
    (filter (fun name => negb (JS.includes configuredWorkers name)) workersInState)
    w.

Section KillCapacity.

(** [shuffle.knuthShuffle]: a random permutation of its argument, here any
    function on lists. *)
Variable knuthShuffle : forall A : Type, list A -> list A.

(** The mapping of instance type to capacity that
    [killCapacityOfWorkerType] builds first; [capacityOfType] may raise. *)
Definition buildCaps (workerType : WorkerType.t) : JS.result (object Z) :=
  JS.foldM
    (fun caps t =>
       match WorkerType.capacityOfType workerType (Some (instanceType t)) with
       | Some c => JS.Ok (setKey (instanceType t) c caps)
       | None => JS.Throw (JS.Error "capacityOfType")
       end)
    (WorkerType.instanceTypes workerType) [].

(** [caps[t] || 1] *)
Definition capOr1 (caps : object Z) (t : string) : Z :=
  match getKey t caps with
  | Some c => if c =? 0 then 1 else c
  | None => 1
  end.

(** [cont()] *)
Definition cont (workerType : WorkerType.t) (count capacity capToKill : Z) : bool :=
  (count <=? capToKill)
  && (capacity - capToKill >=? WorkerType.minCapacity workerType).

(** [toKill[region].push(id)].  [toKill[region]] is the object
    [{instances: [], requests: []}], or [undefined] for a region that is not
    a key: neither has a [push] method, and the call raises. *)
Definition pushId (region id : string) (toKill : object Kills)
  : JS.result (object Kills) :=
  JS.Throw (JS.TypeError "toKill[region].push is not a function").

(** The body shared by the three loops: when [cont()] and [selected], add
    the capacity of the candidate and record its id. *)
Definition select (workerType : WorkerType.t) (count capacity : Z)
    (caps : object Z) (selected : bool) (t region id : string)
    (st : Z * object Kills) : JS.result (Z * object Kills) :=
  let '(capToKill, toKill) := st in
  if cont workerType count capacity capToKill && selected then
    let capToKill := capToKill + capOr1 caps t in
    toKill <- pushId region id toKill ;;
    JS.Ok (capToKill, toKill)
  else JS.Ok (capToKill, toKill).

(** [killCapacityOfWorkerType(workerType, count, states)]: the calls it
    sends. *)
Definition killCapacityOfWorkerType (m : AwsManager) (workerType : WorkerType.t)
    (count : Z) (states : list string) : JS.result (list Ec2.call) :=
  caps <- buildCaps workerType ;;
  let capacity := capacityForType m workerType (Some states) in
  let capToKill := 0 in
  let toKill := emptyKills (regions m) in
  st <-
    (if JS.includes states "spotReq" then
       let shuffledRequests :=
         knuthShuffle _ (requestsOfType m (WorkerType.workerType workerType)) in
       st <-
         JS.foldM (fun st request =>
                     select workerType count capacity caps true
                       (SpotRequest.LaunchInstanceType request)
                       (SpotRequest.Region request)
                       (SpotRequest.SpotInstanceRequestId request) st)
                  shuffledRequests (capToKill, toKill) ;;
       JS.foldM (fun st sr =>
                   select workerType count capacity caps
                     (String.eqb (SpotRequest.WorkerType (Tracked.request sr))
                                 (WorkerType.workerType workerType))
                     (SpotRequest.LaunchInstanceType (Tracked.request sr))
                     (SpotRequest.Region (Tracked.request sr))
                     (SpotRequest.SpotInstanceRequestId (Tracked.request sr)) st)
                (__internalState m) st
     else JS.Ok (capToKill, toKill)) ;;
  let shuffledApiInstances :=
    knuthShuffle _ (instancesOfType m (WorkerType.workerType workerType)) in
  st <-
    JS.foldM (fun st instance =>
                select workerType count capacity caps
                  (JS.includes states (Instance.StateName instance))
                  (Instance.InstanceType instance)
                  (Instance.Region instance)
                  (Instance.InstanceId instance) st)
             shuffledApiInstances st ;;
  JS.foldM (fun deaths entry =>
              let i := kill_instances (snd entry) in
              let r := kill_requests (snd entry) in
              if (Z.of_nat (length i) + Z.of_nat (length r) >? 0) then
                calls <- killCancel (fst entry) (Some i) (Some r) ;;
                JS.Ok (deaths ++ calls)
              else JS.Ok deaths)
           (snd st) [].

End KillCapacity.

(** ** What [capacityForType] sums *)

Definition sumZ (l : list Z) : Z := fold_right Z.add 0 l.

(** The capacity of a type, counted as 1 when it is unknown. *)
Definition capacityOr1 (workerType : WorkerType.t) (t : option string) : Z :=
  match WorkerType.capacityOfType workerType t with
  | Some c => c
  | None => 1
  end.

(** The three sums of [capacityForType], over what its loops visit, with
    the type read where the code reads it. *)
Definition instanceCapacity (m : AwsManager) (workerType : WorkerType.t)
    (S : list string) : Z :=
  sumZ (map (fun instance =>
               capacityOr1 workerType (Some (Instance.InstanceType instance)))
            (filter (fun instance => JS.includes S (Instance.StateName instance))
                    (instancesOfType m (WorkerType.workerType workerType)))).

Definition requestCapacity (m : AwsManager) (workerType : WorkerType.t) : Z :=
  sumZ (map (fun request => capacityOr1 workerType (SpotRequest.InstanceType request))
            (requestsOfType m (WorkerType.workerType workerType))).

Definition inFlightCapacity (workerType : WorkerType.t) (entries : list Tracked.t) : Z :=
  sumZ (map (fun sr =>
               capacityOr1 workerType (SpotRequest.InstanceType (Tracked.request sr)))
            entries).

(** ** Capacity as the specification words it *)

(** The specification's current capacity, from its words: the sum over the
    instances of the worker type whose state is in [S] of the capacity of
    their type; plus, when [S] has ['spotReq'], the sum over the open
    requests of the worker type of the capacity of the type they ask for;
    plus the sum over the in-flight entries of the worker type of the
    capacity of theirs.  A type of unknown capacity counts 1.  The type of
    a request is the instance type of its launch specification, where EC2
    reports it. *)
Definition specifiedCapacity (m : AwsManager) (workerType : WorkerType.t)
    (S : list string) : Z :=
  let name := WorkerType.workerType workerType in
  sumZ (map (fun instance =>
               capacityOr1 workerType (Some (Instance.InstanceType instance)))
            (filter (fun instance =>
                       String.eqb (Instance.WorkerType instance) name
                       && JS.includes S (Instance.StateName instance))
                    (instances (__apiState m))))
  + (if JS.includes S "spotReq"
     then sumZ (map (fun request =>
                       capacityOr1 workerType
                         (Some (SpotRequest.LaunchInstanceType request)))
                    (filter (fun request =>
                               String.eqb (SpotRequest.WorkerType request) name)
                            (requests (__apiState m))))
     else 0)
  + sumZ (map (fun sr =>
                 capacityOr1 workerType
                   (Some (SpotRequest.LaunchInstanceType (Tracked.request sr))))
              (filter (fun sr => String.eqb (Tracked.workerType sr) name)
                      (__internalState m))).

(** ** Sample data *)

Definition sampleInstance (id region workerType type state : string)
    (sird : option string) (reason : option StateReason) : Instance.t :=
  {| Instance.InstanceId := id;
     Instance.KeyName := String.append "aws-provisioner-v1-managed:" workerType;
     Instance.Region := region;
     Instance.WorkerType := workerType;
     Instance.InstanceType := type;
     Instance.AvailabilityZone := String.append region "a";
     Instance.LaunchTime := 0;
     Instance.StateCode := 16;
     Instance.StateName := state;
     Instance.SpotInstanceRequestId := sird;
     Instance.StateReason := reason |}.

(** A request as EC2 describes it: the instance type sits under the launch
    specification, and there is no top-level [InstanceType]. *)
Definition sampleRequest (id region workerType type state statusCode : string)
    (createTime : Z) (spotPrice : string) : SpotRequest.t :=
  {| SpotRequest.SpotInstanceRequestId := id;
     SpotRequest.KeyName := String.append "aws-provisioner-v1-managed:" workerType;
     SpotRequest.Region := region;
     SpotRequest.WorkerType := workerType;
     SpotRequest.InstanceType := None;
     SpotRequest.LaunchInstanceType := type;
     SpotRequest.AvailabilityZone := String.append region "a";
     SpotRequest.CreateTime := createTime;
     SpotRequest.State := state;
     SpotRequest.StatusCode := statusCode;
     SpotRequest.StatusUpdateTime := createTime;
     SpotRequest.StatusMessage := "";
     SpotRequest.SpotPrice := spotPrice;
     SpotRequest.InstanceId := None |}.

Definition sampleTracked (id region workerType type : string) (submitted : Z)
  : Tracked.t :=
  {| Tracked.workerType := workerType;
     Tracked.request :=
       sampleRequest id region workerType type "open" "pending-evaluation"
         submitted "0.41";
     Tracked.bid := {| region := region; zone := String.append region "a";
                       type := type; price := 41 # 100 |};
     Tracked.submitted := submitted |}.

Definition emptyState : ApiState := {| instances := []; requests := [] |}.

Definition sampleManager (apiState deadState : ApiState)
    (internalState : list Tracked.t) : AwsManager :=
  {| regions := ["us-west-2"; "us-east-1"];
     provisionerId := "aws-provisioner-v1";
     keyPrefix := "aws-provisioner-v1-managed:";
     pubKey := "ssh-rsa AAAA";
     __knownKeyPairs := [];
     __apiState := apiState;
     __previousApiState := emptyState;
     __deadState := deadState;
     __internalState := internalState;
     __awaitingStateReason := [];
     __awaitingSpotFulfilmentStatus := [] |}.

(** A worker type with one instance type of capacity 2. *)
Definition builder : WorkerType.t :=
  mkWorkerType "builder" 0 [{| instanceType := "m3.large"; capacity := 2 |}].

(** A manager whose tracker holds one entry of the worker type [builder],
    with nothing in the api state. *)
Definition oneInFlight : AwsManager :=
  sampleManager emptyState emptyState
    [sampleTracked "sir-1" "us-west-2" "builder" "m3.large" 0].

(** Two running instances of capacity 2, an open request and an in-flight
    entry, all of worker type [builder]. *)
Definition mixedFleet : AwsManager :=
  sampleManager
    {| instances := [sampleInstance "i-1" "us-west-2" "builder" "m3.large"
                       "running" (Some "sir-a") None;
                     sampleInstance "i-2" "us-east-1" "builder" "m3.large"
                       "running" (Some "sir-b") None];
       requests := [sampleRequest "sir-1" "us-west-2" "builder" "m3.large"
                      "open" "pending-evaluation" 0 "0.41"] |}
    emptyState
    [sampleTracked "sir-2" "us-west-2" "builder" "m3.large" 0].

(** Open requests seen at minute 100: one created 25 minutes before with a
    healthy status, one created a minute before that EC2 reports as
    [constraint-not-fulfillable]. *)
Definition minute : Z := 60 * 1000.

Definition agedRequest : SpotRequest.t :=
  sampleRequest "sir-aged" "" "" "m3.large" "open" "pending-evaluation"
    (75 * minute) "0.41".

Definition constrainedRequest : SpotRequest.t :=
  sampleRequest "sir-constrained" "" "" "m3.large" "open"
    "constraint-not-fulfillable" (99 * minute) "0.41".

(** A manager that awaits the status of the departed request [sir-1], and a
    dead state in which that request is active and fulfilled. *)
Definition awaitingSir1 : AwsManager :=
  setAwaiting (sampleManager emptyState emptyState [])
    [{| id := "sir-1"; time := 0; iterationCount := 0 |}] [].

Definition sir1Fulfilled : ApiState :=
  {| instances := [];
     requests := [sampleRequest "sir-1" "us-west-2" "builder" "m3.large"
                    "active" "fulfilled" 0 "0.41"] |}.

(** A sweep in which an instance and a request depart unexplained: the dead
    state shows the instance without a state reason and the request still
    open. *)
Definition unexplained : ApiState :=
  {| instances := [sampleInstance "i-1" "us-west-2" "builder" "m3.large"
                     "shutting-down" (Some "sir-1") None];
     requests := [sampleRequest "sir-2" "us-west-2" "builder" "m3.large"
                    "open" "pending-fulfillment" 0 "0.41"] |}.

Definition firstSweep : AwsManager :=
  fst (_reconcileStateDifferences (sampleManager emptyState emptyState [])
         unexplained unexplained emptyState 0).

(** A later sweep in which nothing departs and nothing is explained. *)
Definition idleSweep (m : AwsManager) : AwsManager :=
  fst (_reconcileStateDifferences m emptyState unexplained emptyState 0).

(** An api state that shows the request [sir-1] and an instance launched
    from [sir-2], with a tracker of four entries submitted at various
    times: two that the api state now shows, one that never showed, and one
    that is recent. *)
Definition visibleState : ApiState :=
  {| instances := [sampleInstance "i-2" "us-west-2" "builder" "m3.large"
                     "running" (Some "sir-2") None];
     requests := [sampleRequest "sir-1" "us-west-2" "builder" "m3.large"
                    "open" "pending-evaluation" 0 "0.41"] |}.

Definition recentEntry : Tracked.t :=
  sampleTracked "sir-4" "us-west-2" "builder" "m3.large" (10 * minute).

Definition fourInFlight : AwsManager :=
  sampleManager visibleState emptyState
    [ sampleTracked "sir-1" "us-west-2" "builder" "m3.large" (10 * minute);
      sampleTracked "sir-2" "us-west-2" "builder" "m3.large" (10 * minute);
      sampleTracked "sir-3" "us-west-2" "builder" "m3.large" 0;
      recentEntry ].

(** A manager that knows the key pairs of two worker types, one of which
    exists in one region only. *)
Definition twoKnownKeyPairs : World :=
  {| manager :=
       setKnownKeyPairs (sampleManager emptyState emptyState []) ["builder"; "tester"];
     keyPairs := [("us-west-2", "aws-provisioner-v1-managed:builder");
                  ("us-west-2", "aws-provisioner-v1-managed:tester");
                  ("us-east-1", "aws-provisioner-v1-managed:tester")];
     sent := [] |}.

(** ** The price floor of a killed instance, as the specification words it *)

(** The request whose bid [plotInstanceDeath] reports: the first request of
    the list with the spot request id of the instance and a bid that parses
    to a number other than zero. *)
Definition isBidOf (instance : Instance.t) (request : SpotRequest.t) : bool :=
  JS.eq_opt (SpotRequest.SpotInstanceRequestId request)
            (Instance.SpotInstanceRequestId instance)
  && JS.numberTruthy (JS.parseFloat (SpotRequest.SpotPrice request)).

Definition firstBid (instance : Instance.t) (l : list SpotRequest.t)
  : option SpotRequest.t :=
  find (isBidOf instance) l.

(** The state reason of the instance says that the spot market killed it. *)
Definition spotKilled (instance : Instance.t) : Prop :=
  exists reason,
    Instance.StateReason instance = Some reason
    /\ Code reason = Some "Server.SpotInstanceTermination".

Definition reportsTermination (points : list Point) (instance : Instance.t) : Prop :=
  exists provisionerId region az instanceType workerType spotRequestId time
         launchTime stateCode stateMsg stateChangeCode stateChangeMsg,
    In (instanceTerminated provisionerId region az instanceType workerType
          (Instance.InstanceId instance) spotRequestId time launchTime stateCode
          stateMsg stateChangeCode stateChangeMsg) points.

Definition reportsFloor (points : list Point) (price : JS.number) : Prop :=
  exists region az instanceType time reason,
    In (spotPriceFloorFound region az instanceType time price reason) points.

(** The statement of the specification: every departed instance that the
    spot market killed is reported as terminated, and the bid of any request
    of the dead or current state with its spot request id is reported as a
    price floor. *)
Definition priceFloorAsSpecified (points : list Point)
    (differences deadState apiState : ApiState) : Prop :=
  forall instance,
    In instance (instances differences) ->
    spotKilled instance ->
    reportsTermination points instance
    /\ forall request,
         In request (requests deadState ++ requests apiState) ->
         Instance.SpotInstanceRequestId instance
         = Some (SpotRequest.SpotInstanceRequestId request) ->
         reportsFloor points (JS.parseFloat (SpotRequest.SpotPrice request)).

(** An instance killed by the spot market, and a dead state that holds it
    and the request it was launched from, whose bid reads as zero. *)
Definition killedInstance : Instance.t :=
  sampleInstance "i-7" "us-west-2" "builder" "m3.large" "terminated"
    (Some "sir-7")
    (Some {| Code := Some "Server.SpotInstanceTermination";
             Message := "Your Spot Instance was terminated." |}).

Definition zeroBid : ApiState :=
  {| instances := [killedInstance];
     requests := [sampleRequest "sir-7" "us-west-2" "builder" "m3.large"
                    "closed" "instance-terminated-by-price" 0 "0.000000"] |}.

(** The same with the bid of scenario S4. *)
Definition bid041 : ApiState :=
  {| instances := [killedInstance];
     requests := [sampleRequest "sir-7" "us-west-2" "builder" "m3.large"
                    "closed" "instance-terminated-by-price" 0 "0.41"] |}.

Definition noRequests (s : ApiState) : ApiState :=
  {| instances := instances s; requests := [] |}.

(** A fleet of one worker type: two running instances of capacity 2 each and
    one open request. *)
Definition smallFleet : AwsManager :=
  sampleManager
    {| instances := [sampleInstance "i-1" "us-west-2" "builder" "m3.large"
                       "running" (Some "sir-a") None;
                     sampleInstance "i-2" "us-east-1" "builder" "m3.large"
                       "running" (Some "sir-b") None];
       requests := [sampleRequest "sir-1" "us-west-2" "builder" "m3.large"
                      "open" "pending-evaluation" 0 "0.41"] |}
    emptyState [].

(** ** The state the rouge killer works on *)

(** A worker type name is observed in state when an instance, a request or
    an entry of the internal state carries it. *)
Definition observed (m : AwsManager) (name : string) : Prop :=
  (exists instance,
     In instance (instances (__apiState m)) /\ Instance.WorkerType instance = name)
  \/ (exists request,
        In request (requests (__apiState m))
        /\ SpotRequest.WorkerType request = name)
  \/ (exists sr,
        In sr (__internalState m)
        /\ SpotRequest.WorkerType (Tracked.request sr) = name).

(** What [_classify] and [requestSpotInstance] establish: every resource in
    state sits in one of the regions of the manager. *)
Definition regionsKnown (m : AwsManager) : Prop :=
  (forall instance,
     In instance (instances (__apiState m)) ->
     In (Instance.Region instance) (regions m))
  /\ (forall request,
        In request (requests (__apiState m)) ->
        In (SpotRequest.Region request) (regions m))
  /\ (forall sr,
        In sr (__internalState m) ->
        In (SpotRequest.Region (Tracked.request sr)) (regions m)).

(** Scenario S5: the state holds an instance, a request and an in-flight
    entry of worker type [legacy] and an instance of [modern]; the key pair
    of [legacy] exists in both regions. *)
Definition legacyFleet : World :=
  {| manager :=
       sampleManager
         {| instances := [sampleInstance "i-legacy" "us-west-2" "legacy" "m3.large"
                            "running" (Some "sir-l0") None;
                          sampleInstance "i-modern" "us-east-1" "modern" "m3.large"
                            "pending" (Some "sir-m0") None];
            requests := [sampleRequest "sir-l1" "us-east-1" "legacy" "m3.large"
                           "open" "pending-evaluation" 0 "0.41"] |}
         emptyState
         [tracked (sampleTracked "sir-l2" "us-west-2" "legacy" "m3.large" 0)];
     keyPairs := [("us-west-2", "aws-provisioner-v1-managed:legacy");
                  ("us-east-1", "aws-provisioner-v1-managed:legacy");
                  ("us-west-2", "aws-provisioner-v1-managed:modern")];
     sent := [] |}.

(** A state in which one instance was launched with the key prefix alone as
    its key name, so that [_classify] gave it the empty worker type, beside
    an instance of [legacy]. *)
Definition namelessFleet : World :=
  {| manager :=
       sampleManager
         {| instances := [sampleInstance "i-nameless" "us-west-2" "" "m3.large"
                            "running" None None;
                          sampleInstance "i-legacy" "us-west-2" "legacy" "m3.large"
                            "running" (Some "sir-l0") None];
            requests := [] |}
         emptyState [];
     keyPairs := [("us-west-2", "aws-provisioner-v1-managed:legacy")];
     sent := [] |}.

(** One collection of ids holds another. *)
Definition killsWithin (k k' : Kills) : Prop :=
  incl (kill_instances k) (kill_instances k')
  /\ incl (kill_requests k) (kill_requests k').

(** [o'] has the regions of [o], each with at least the ids it had. *)
Definition grows (o o' : object Kills) : Prop :=
  forall r k,
    getKey r o = Some k ->
    exists k', getKey r o' = Some k' /\ killsWithin k k'.

(** The calls [killCancel] sends for one entry of [perRegionKills]. *)
Definition callsFor (entry : string * Kills) : list Ec2.call :=
  (match kill_instances (snd entry) with
   | [] => []
   | _ :: _ => [Ec2.terminateInstances (fst entry) (kill_instances (snd entry))]
   end)
  ++
  (match kill_requests (snd entry) with
   | [] => []
   | _ :: _ => [Ec2.cancelSpotInstanceRequests (fst entry) (kill_requests (snd entry))]
   end).

(** The calls a run of a method has sent, when it ended normally. *)
Definition sentBy (r : JS.result World) : list Ec2.call :=
  match r with
  | JS.Ok w => sent w
  | JS.Throw _ => []
  end.

(** Whether [_filterSpotRequests] puts a request in the stalled bucket: its
    [killWhen] is before now, or its status code is one of [stalledStates]. *)
Definition isStalled (LocalTZA : Z -> bool -> Z) (now : Z) (sr : SpotRequest.t)
  : bool :=
  (Date.setMinutes LocalTZA (SpotRequest.CreateTime sr)
     (Date.getMinutes LocalTZA (SpotRequest.CreateTime sr) + 20) <? now)
  || JS.includes stalledStates (SpotRequest.StatusCode sr).

Definition requestIdOf (sr : Tracked.t) : string :=
  SpotRequest.SpotInstanceRequestId (Tracked.request sr).

(** The manager of [w] is [m] but for its cache of key pairs. *)
Definition sameFleet (m : AwsManager) (w : World) : Prop :=
  exists cache, manager w = setKnownKeyPairs m cache.

(** * Further methods of the manager *)

(** ** Queries by region and by worker type *)

(** An argument that is one string or an array of strings:
    [if (typeof x === 'string') { x = [x]; }]. *)
Inductive StringOrArray :=
| OneString (s : string)
| ArrayOf (l : list string).

Definition asArray (x : StringOrArray) : list string :=
  match x with
  | OneString s => [s]
  | ArrayOf l => l
  end.

(** [instancesInRegion(region)] *)
Definition instancesInRegion (m : AwsManager) (region : StringOrArray)
  : list Instance.t :=
  filter (fun instance => JS.includes (asArray region) (Instance.Region instance))
         (instances (__apiState m)).

(** [requestsInRegion(region)] *)
Definition requestsInRegion (m : AwsManager) (region : StringOrArray)
  : list SpotRequest.t :=
  filter (fun request => JS.includes (asArray region) (SpotRequest.Region request))
         (requests (__apiState m)).

(** [instancesOfType(workerType)], for either form of the argument. *)
Definition instancesOfTypes (m : AwsManager) (workerType : StringOrArray)
  : list Instance.t :=
  filter (fun instance =>
            JS.includes (asArray workerType) (Instance.WorkerType instance))
         (instances (__apiState m)).

(** [requestsOfType(workerType)], for either form of the argument. *)
Definition requestsOfTypes (m : AwsManager) (workerType : StringOrArray)
  : list SpotRequest.t :=
  filter (fun request =>
            JS.includes (asArray workerType) (SpotRequest.WorkerType request))
         (requests (__apiState m)).

(** [instancesOfTypeInRegion(region, workerType)] *)
Definition instancesOfTypeInRegion (m : AwsManager)
    (region workerType : StringOrArray) : list Instance.t :=
  filter (fun instance =>
            JS.includes (asArray region) (Instance.Region instance)
            && JS.includes (asArray workerType) (Instance.WorkerType instance))
         (instances (__apiState m)).

(** [requestsOfTypeInRegion(region, workerType)] *)
Definition requestsOfTypeInRegion (m : AwsManager)
    (region workerType : StringOrArray) : list SpotRequest.t :=
  filter (fun request =>
            JS.includes (asArray region) (SpotRequest.Region request)
            && JS.includes (asArray workerType) (SpotRequest.WorkerType request))
         (requests (__apiState m)).

(** ** Stalled requests *)

(** [handleStalledRequests(spotReqs)]: one [killCancel] per region of the
    object, with no instance and the ids of the stalled requests. *)
Definition handleStalledRequests (spotReqs : object (list SpotRequest.t))
  : JS.result (list Ec2.call) :=
  JS.foldM
    (fun sentSoFar entry =>
       calls <- killCancel (fst entry) (Some [])
                  (Some (map SpotRequest.SpotInstanceRequestId (snd entry))) ;;
       JS.Ok (sentSoFar ++ calls))
    spotReqs [].

(** ** Updating the state *)

(** The answers of the four describe calls of [update]: per region, the
    reservations of the living instances, the open spot requests, the
    reservations of the dead instances and the spot requests that are no
    longer open. *)
Record Described := {
  livingInstances : object (list (list Instance.t));
  livingSpotRequests : object (list SpotRequest.t);
  deadInstances : object (list (list Instance.t));
  deadSpotRequests : object (list SpotRequest.t);
}.

Definition setStates (m : AwsManager) (apiState previousApiState deadState : ApiState)
  : AwsManager :=
  {| regions := regions m;
     provisionerId := provisionerId m;
     keyPrefix := keyPrefix m;
     pubKey := pubKey m;
     __knownKeyPairs := __knownKeyPairs m;
     __apiState := apiState;
     __previousApiState := previousApiState;
     __deadState := deadState;
     __internalState := __internalState m;
     __awaitingStateReason := __awaitingStateReason m;
     __awaitingSpotFulfilmentStatus := __awaitingSpotFulfilmentStatus m |}.

(** What [update] leaves behind when its promise resolves. *)
Record Updated := {
  updated : AwsManager;
  points : list Point;
  cancelled : list Ec2.call;
}.

(** [update()], given what EC2 described, run to the resolution of its
    promise.  The two classifications raise when a region of the manager is
    missing from an answer, and the promise is then rejected.  The
    comparison and the reconciliation of the differences sit in a
    [try]/[catch] and are total here. *)
Definition update (LocalTZA : Z -> bool -> Z) (m : AwsManager) (res : Described)
    (now : Z) : JS.result Updated :=
  let filteredSpotRequests :=
    _filterSpotRequests LocalTZA now (livingSpotRequests res) in
  apiState <- _classify m (livingInstances res) (data_good filteredSpotRequests) ;;
  deadState <- _classify m (deadInstances res) (deadSpotRequests res) ;;
  let previousApiState := __apiState m in
  let m1 := setStates m apiState previousApiState deadState in
  let stateDifferences := _compareStates apiState previousApiState deadState in
  let '(m2, reconciled) :=
    _reconcileStateDifferences m1 stateDifferences deadState apiState now in
  calls <- handleStalledRequests (data_stalled filteredSpotRequests) ;;
  let '(m3, lag) := _reconcileInternalState m2 now in
  JS.Ok {| updated := m3;
           points := data_reported filteredSpotRequests ++ reconciled ++ lag;
           cancelled := calls |}.

(** ** Submitting a spot request *)

(** The launch information handed to [requestSpotInstance]: the worker type
    and, of the launch specification, the image id that is reported. *)
Module LaunchInfo.
Record t := {
  workerType : string;
  ImageId : string;                   (* launchSpec.ImageId *)
}.
End LaunchInfo.

(** The points of the two reporters that [requestSpotInstance] feeds. *)
Inductive SubmissionPoint :=
| spotRequestsSubmitted
    (provisionerId region az instanceType workerType id : string)
    (bid price : Q)
| amiUsage
    (provisionerId ami region az instanceType workerType : string).

(** The request [requestSpotInstance] sends: one instance, one time, at the
    price of the bid. *)
Record SpotInstancesRequest := {
  inRegion : string;
  InstanceCount : Z;
  requestType : string;               (* Type *)
  LaunchSpecification : LaunchInfo.t;
  requestedPrice : Q;                 (* SpotPrice: bid.price.toString() *)
}.

Record Submitted := {
  submittedBy : AwsManager;
  requested : SpotInstancesRequest;
  submissionPoints : list SubmissionPoint;
}.

(** [requestSpotInstance(launchInfo, bid)], with [truePrice] the property of
    that name of the bid, [SpotInstanceRequests] the list EC2 answers with
    and [now] the time of the answer.  The region of the bid is asserted to
    be one of the manager's; the first request of the answer is read, which
    raises when the answer is empty. *)
Definition requestSpotInstance (m : AwsManager) (launchInfo : LaunchInfo.t)
    (bid : Bid) (truePrice : Q) (SpotInstanceRequests : list SpotRequest.t)
    (now : Z) : JS.result Submitted :=
  if negb (JS.includes (regions m) (region bid))
  then JS.Throw (JS.AssertionError "this.ec2.regions.includes(bid.region)")
  else
    match SpotInstanceRequests with
    | [] =>
        JS.Throw (JS.TypeError "Cannot read property 'SpotInstanceRequestId' of undefined")
    | spotReq :: _ =>
        let info :=
          {| Tracked.workerType := LaunchInfo.workerType launchInfo;
             Tracked.request := spotReq;
             Tracked.bid := bid;
             Tracked.submitted := now |} in
        JS.Ok
          {| submittedBy := _trackNewSpotRequest m info;
             requested :=
               {| inRegion := region bid;
                  InstanceCount := 1;
                  requestType := "one-time";
                  LaunchSpecification := launchInfo;
                  requestedPrice := price bid |};
             submissionPoints :=
               [ spotRequestsSubmitted (provisionerId m) (region bid) (zone bid)
                   (type bid) (LaunchInfo.workerType launchInfo)
                   (SpotRequest.SpotInstanceRequestId spotReq)
                   (price bid) truePrice;
                 amiUsage (provisionerId m) (LaunchInfo.ImageId launchInfo)
                   (region bid) (zone bid) (type bid)
                   (LaunchInfo.workerType launchInfo) ] |}
    end.

(** ** Instances that lived too long *)

(** The names every object inherits from [Object.prototype]: a property of
    such a name is set without having been assigned. *)
Definition inheritedNames : list string :=
  [ "constructor"; "__defineGetter__"; "__defineSetter__"; "hasOwnProperty";
    "__lookupGetter__"; "__lookupSetter__"; "isPrototypeOf";
    "propertyIsEnumerable"; "toString"; "valueOf"; "__proto__";
    "toLocaleString" ].

(** [zombies[instance.Region].push(instance.InstanceId)], after
    [zombies[instance.Region]] was set to an empty array if it was unset.
    [zombies] starts as [{}]: a region named as a property that every object
    inherits is set already, to a value that has no [push]. *)
Definition pushZombie (zombies : object (list string)) (instance : Instance.t)
  : JS.result (object (list string)) :=
  match getKey (Instance.Region instance) zombies with
  | Some ids =>
      JS.Ok (setKey (Instance.Region instance)
               (ids ++ [Instance.InstanceId instance]) zombies)
  | None =>
      if JS.includes inheritedNames (Instance.Region instance)
      then JS.Throw (JS.TypeError "zombies[instance.Region].push is not a function")
      else JS.Ok (setKey (Instance.Region instance)
                    [Instance.InstanceId instance] zombies)
  end.

(** [zombieKiller()], with [killIfOlderThan] the date that
    [taskcluster.fromNow(this.maxInstanceLife)] gives.  Every instance of
    the model carries a launch time, so the test [if (instance.LaunchTime)]
    holds. *)
Definition zombieKiller (m : AwsManager) (killIfOlderThan : Z)
  : JS.result (list Ec2.call) :=
  zombies <-
    JS.foldM pushZombie
      (filter (fun instance => Instance.LaunchTime instance <? killIfOlderThan)
              (instances (__apiState m)))
      [] ;;
  JS.foldM
    (fun sentSoFar entry =>
       calls <- killCancel (fst entry) (Some (snd entry)) None ;;
       JS.Ok (sentSoFar ++ calls))
    zombies [].

(** The ids of the instances of a region that were launched before a date,
    in the order of the api state. *)
Definition launchedBefore (m : AwsManager) (date : Z) (region : string)
  : list string :=
  map Instance.InstanceId
    (filter (fun instance =>
               (Instance.LaunchTime instance <? date)
               && String.eqb (Instance.Region instance) region)
            (instances (__apiState m))).

(** ** The old format of state *)

(** The three lists kept per worker type.  [spotReq] receives the requests,
    and any instance whose state name is ['spotReq']. *)
Record OldState := {
  running : list Instance.t;
  pending : list Instance.t;
  spotReq : list (Instance.t + SpotRequest.t);
}.

(** [x(type)]: [if (!oldState[type]) oldState[type] = {running: [], pending:
    [], spotReq: []}].  An inherited name is set already and is left as it
    is. *)
Definition ensureType (type : string) (oldState : object OldState)
  : object OldState :=
  match getKey type oldState with
  | Some _ => oldState
  | None =>
      if JS.includes inheritedNames type then oldState
      else setKey type {| running := []; pending := []; spotReq := [] |} oldState
  end.

(** [oldState[instance.WorkerType][instance.State.Name].push(instance)]:
    raises unless the worker type has its three lists and the state name is
    the name of one of them. *)
Definition pushByState (instance : Instance.t) (oldState : object OldState)
  : JS.result (object OldState) :=
  match getKey (Instance.WorkerType instance) oldState with
  | Some o =>
      if String.eqb (Instance.StateName instance) "running" then
        JS.Ok (setKey (Instance.WorkerType instance)
                 {| running := running o ++ [instance];
                    pending := pending o;
                    spotReq := spotReq o |} oldState)
      else if String.eqb (Instance.StateName instance) "pending" then
        JS.Ok (setKey (Instance.WorkerType instance)
                 {| running := running o;
                    pending := pending o ++ [instance];
                    spotReq := spotReq o |} oldState)
      else if String.eqb (Instance.StateName instance) "spotReq" then
        JS.Ok (setKey (Instance.WorkerType instance)
                 {| running := running o;
                    pending := pending o;
                    spotReq := spotReq o ++ [inl instance] |} oldState)
      else JS.Throw (JS.TypeError "Cannot read property 'push' of undefined")
  | None => JS.Throw (JS.TypeError "Cannot read property 'push' of undefined")
  end.

(** [oldState[request.WorkerType].spotReq.push(request)] *)
Definition pushSpotReq (request : SpotRequest.t) (oldState : object OldState)
  : JS.result (object OldState) :=
  match getKey (SpotRequest.WorkerType request) oldState with
  | Some o =>
      JS.Ok (setKey (SpotRequest.WorkerType request)
               {| running := running o;
                  pending := pending o;
                  spotReq := spotReq o ++ [inr request] |} oldState)
  | None => JS.Throw (JS.TypeError "Cannot read property 'push' of undefined")
  end.

(** [emulateOldStateFormat()] *)
Definition emulateOldStateFormat (m : AwsManager) : JS.result (object OldState) :=
  oldState <-
    JS.foldM (fun oldState instance =>
                pushByState instance
                  (ensureType (Instance.WorkerType instance) oldState))
             (instances (__apiState m)) [] ;;
  JS.foldM (fun oldState request =>
              pushSpotReq request
                (ensureType (SpotRequest.WorkerType request) oldState))
           (requests (__apiState m)) oldState.

(** ** Sample answers of EC2 *)

(** An instance and a request as [_classify] stores them. *)
Definition classifyInstance (m : AwsManager) (region : string)
    (instance : Instance.t) : Instance.t :=
  Instance.setRegionAndWorkerType region
    (stripPrefix (keyPrefix m) (Instance.KeyName instance)) instance.

Definition classifyRequest (m : AwsManager) (region : string)
    (request : SpotRequest.t) : SpotRequest.t :=
  SpotRequest.setRegionAndWorkerType region
    (stripPrefix (keyPrefix m) (SpotRequest.KeyName request)) request.

(** What EC2 describes at minute 100: in [us-west-2] a running instance of
    [builder], an open request created a minute before and one created 25
    minutes before whose price is too low; a terminated instance with the
    request it came from; nothing in [us-east-1]. *)
Definition freshRequest : SpotRequest.t :=
  sampleRequest "sir-fresh" "" "builder" "m3.large" "open" "pending-evaluation"
    (99 * minute) "0.41".

Definition lowRequest : SpotRequest.t :=
  sampleRequest "sir-low" "" "builder" "m3.large" "open" "price-too-low"
    (75 * minute) "0.05".

Definition described : Described :=
  {| livingInstances :=
       [("us-west-2", [[sampleInstance "i-1" "" "builder" "m3.large" "running"
                          (Some "sir-a") None]]);
        ("us-east-1", [])];
     livingSpotRequests :=
       [("us-west-2", [freshRequest; lowRequest]); ("us-east-1", [])];
     deadInstances :=
       [("us-west-2", [[killedInstance]]); ("us-east-1", [])];
     deadSpotRequests :=
       [("us-west-2", requests bid041); ("us-east-1", [])] |}.

(** The manager before that update: its api state showed the instance that
    is now dead, and its tracker holds the fresh request and a bid that is
    not visible yet. *)
Definition beforeUpdate : AwsManager :=
  sampleManager
    {| instances := [sampleInstance "i-7" "us-west-2" "builder" "m3.large"
                       "running" (Some "sir-7") None];
       requests := [] |}
    emptyState
    [tracked (sampleTracked "sir-fresh" "us-west-2" "builder" "m3.large" (99 * minute));
     tracked (sampleTracked "sir-unseen" "us-east-1" "builder" "m3.large" (99 * minute))].

(** ** Sweeps in which nothing departs *)

(** A reconciliation with no differences, against the dead state, the api
    state and the clock of the moment. *)
Definition quietSweep (m : AwsManager) (seen : ApiState * ApiState * Z) : AwsManager :=
  fst (_reconcileStateDifferences m emptyState (fst (fst seen)) (snd (fst seen))
         (snd seen)).

Definition quietSweeps (l : list (ApiState * ApiState * Z)) (m : AwsManager)
  : AwsManager :=
  fold_left quietSweep l m.

(** The point reported for a departed request that neither was fulfilled
    nor is still open. *)
Definition diedPoint (m : AwsManager) (request : SpotRequest.t) : Point :=
  spotRequestsDied (provisionerId m)
    (SpotRequest.Region request) (SpotRequest.AvailabilityZone request)
    (SpotRequest.LaunchInstanceType request) (SpotRequest.WorkerType request)
    (SpotRequest.SpotInstanceRequestId request)
    (SpotRequest.StatusUpdateTime request)
    (JS.parseFloat (SpotRequest.SpotPrice request))
    (SpotRequest.State request) (SpotRequest.StatusCode request)
    (SpotRequest.StatusMessage request).

(** Three requests that departed: one fulfilled, one that the dead state
    still shows open, one cancelled. *)
Definition threeDeparted : ApiState :=
  {| instances := [];
     requests := [sampleRequest "sir-f" "us-west-2" "builder" "m3.large"
                    "active" "fulfilled" 0 "0.41";
                  sampleRequest "sir-o" "us-west-2" "builder" "m3.large"
                    "open" "pending-fulfillment" 0 "0.41";
                  sampleRequest "sir-c" "us-west-2" "builder" "m3.large"
                    "cancelled" "canceled-before-fulfillment" 0 "0.41"] |}.

(** A bid in a region of the manager, and the launch information and the
    answer of EC2 that go with it. *)
Definition sampleBid : Bid :=
  {| region := "us-east-1"; zone := "us-east-1a"; type := "m3.large";
     price := 41 # 100 |}.

Definition sampleLaunchInfo : LaunchInfo.t :=
  {| LaunchInfo.workerType := "builder"; LaunchInfo.ImageId := "ami-1" |}.

Definition sampleAnswer : list SpotRequest.t :=
  [sampleRequest "sir-new" "" "" "m3.large" "open" "pending-evaluation" 0 "0.41"].

(** ** The old format, worker type by worker type *)

Definition noneYet : OldState :=
  {| running := []; pending := []; spotReq := [] |}.

(** Three lists after the instances [l] were pushed, each by its state name. *)
Definition withInstances (s : OldState) (l : list Instance.t) : OldState :=
  {| running :=
       running s ++ filter (fun i => String.eqb (Instance.StateName i) "running") l;
     pending :=
       pending s ++ filter (fun i => String.eqb (Instance.StateName i) "pending") l;
     spotReq :=
       spotReq s
       ++ map inl (filter (fun i => String.eqb (Instance.StateName i) "spotReq") l) |}.

(** Three lists after the requests [l] were pushed. *)
Definition withRequests (s : OldState) (l : list SpotRequest.t) : OldState :=
  {| running := running s;
     pending := pending s;
     spotReq := spotReq s ++ map inr l |}.

(** What the old format is expected to hold for a worker type: nothing when
    the api state has no instance and no request of it, and otherwise its
    instances by state name, followed under [spotReq] by its requests. *)
Definition oldStateOf (m : AwsManager) (workerType : string) : option OldState :=
  match instancesOfType m workerType, requestsOfType m workerType with
  | [], [] => None
  | l, r => Some (withRequests (withInstances noneYet l) r)
  end.

(** The regions an answer of EC2 has. *)
Definition keys {V} (o : object V) : list string := map fst o.

(** ** What the killers may kill, and counts of sweeps *)

(** An id that [killByName] may terminate in a region, and one it may
    cancel. *)
Definition mayTerminate (m : AwsManager) (name : string) (states : list string)
    (region id : string) : Prop :=
  exists instance,
    In instance (instances (__apiState m))
    /\ Instance.InstanceId instance = id
    /\ Instance.Region instance = region
    /\ Instance.WorkerType instance = name
    /\ JS.includes states (Instance.StateName instance) = true.

Definition mayCancel (m : AwsManager) (name : string) (states : list string)
    (region id : string) : Prop :=
  JS.includes states "spotReq" = true
  /\ ((exists request,
         In request (requests (__apiState m))
         /\ SpotRequest.SpotInstanceRequestId request = id
         /\ SpotRequest.Region request = region
         /\ SpotRequest.WorkerType request = name)
      \/ (exists sr,
            In sr (__internalState m)
            /\ SpotRequest.SpotInstanceRequestId (Tracked.request sr) = id
            /\ SpotRequest.Region (Tracked.request sr) = region
            /\ SpotRequest.WorkerType (Tracked.request sr) = name)).

(** The ids collected so far are ids that [killByName] may kill. *)
Definition onlyTheNamed (m : AwsManager) (name : string) (states : list string)
    (o : object Kills) : Prop :=
  forall entry,
    In entry o ->
    (forall id, In id (kill_instances (snd entry)) -> mayTerminate m name states (fst entry) id)
    /\ (forall id, In id (kill_requests (snd entry)) -> mayCancel m name states (fst entry) id).

(** Every awaited entry of the manager has a count of at least [k]. *)
Definition countsFrom (k : Z) (m : AwsManager) : Prop :=
  (forall a, In a (__awaitingSpotFulfilmentStatus m) -> k <= iterationCount a)
  /\ (forall a, In a (__awaitingStateReason m) -> k <= iterationCount a).

(** No worker type of the old format is named as an inherited property. *)
Definition ownNames (oldState : object OldState) : Prop :=
  forall k s, getKey k oldState = Some s -> JS.includes inheritedNames k = false.

(** ** Ids known to the api state *)

(** A spot request id is known to the api state when it is the id of one of
    its requests, or the spot request id, set and not empty, that one of its
    instances carries. *)
Definition knownToApiState (m : AwsManager) (id : string) : Prop :=
  (exists request,
     In request (requests (__apiState m))
     /\ SpotRequest.SpotInstanceRequestId request = id)
  \/ (exists instance,
        In instance (instances (__apiState m))
        /\ Instance.SpotInstanceRequestId instance = Some id
        /\ id <> "").

(** A manager that sees the request [sir-1] and an instance that came from
    the request [sir-2], with an empty tracker. *)
Definition seesTwo : AwsManager := sampleManager visibleState emptyState [].

(** ** A time zone with a change of offset *)

(** A zone four hours behind UTC that falls back by one hour at the epoch:
    before it the offset is -4 hours, from it on -5 hours.  A local time in
    the hour that comes twice is read with the earlier offset. *)
Definition fallBack : Z -> bool -> Z :=
  fun t isUTC =>
    if isUTC
    then if t <? 0 then -4 * Date.msPerHour else -5 * Date.msPerHour
    else if t <? -4 * Date.msPerHour then -4 * Date.msPerHour
         else -5 * Date.msPerHour.

(** An open request of a healthy status created 10 minutes before the
    change. *)
Definition beforeTheChange : SpotRequest.t :=
  sampleRequest "sir-dst" "" "" "m3.large" "open" "pending-evaluation"
    (-10 * minute) "0.41".

(** * Properties *)

(** ** Facts about the helpers *)

Lemma includes_In l x : JS.includes l x = true <-> In x l.
Proof.
  unfold JS.includes. rewrite existsb_exists. split.
  - intros (y & Hy & E). apply String.eqb_eq in E. now subst.
  - intros H. exists x. split; [assumption | apply String.eqb_refl].
Qed.

Lemma includes_not_In l x : JS.includes l x = false <-> ~ In x l.
Proof.
  rewrite <- includes_In. destruct (JS.includes l x); split; congruence.
Qed.

Lemma includes_singleton a x : JS.includes [a] x = String.eqb x a.
Proof. unfold JS.includes. simpl. now rewrite orb_false_r. Qed.

Lemma sumZ_app l1 l2 : sumZ (l1 ++ l2) = sumZ l1 + sumZ l2.
Proof. induction l1 as [|x l1 IH]; simpl; [reflexivity | rewrite IH; lia]. Qed.

(** ** Dates *)

(** A time is its day, hour, minute, second and millisecond. *)
Lemma time_of_fields t :
  Date.MakeDate (Date.Day t)
    (Date.MakeTime (Date.HourFromTime t) (Date.MinFromTime t)
       (Date.SecFromTime t) (Date.msFromTime t))
  = t.
Proof.
  unfold Date.MakeDate, Date.MakeTime, Date.Day, Date.HourFromTime,
    Date.MinFromTime, Date.SecFromTime, Date.msFromTime,
    Date.msPerDay, Date.msPerHour, Date.msPerMinute, Date.msPerSecond.
  replace (t / 86400000) with (t / 1000 / 60 / 60 / 24)
    by (rewrite !Z.div_div by lia; reflexivity).
  replace (t / 3600000) with (t / 1000 / 60 / 60)
    by (rewrite !Z.div_div by lia; reflexivity).
  replace (t / 60000) with (t / 1000 / 60)
    by (rewrite !Z.div_div by lia; reflexivity).
  rewrite !Z.mod_eq by lia. lia.
Qed.

(** [d.setMinutes(d.getMinutes() + n)] moves the local time of [d] forward
    by [n] minutes and reads the result back as a local time. *)
Lemma setMinutes_plus LocalTZA d n :
  Date.setMinutes LocalTZA d (Date.getMinutes LocalTZA d + n)
  = Date.UTC LocalTZA (Date.LocalTime LocalTZA d + n * Date.msPerMinute).
Proof.
  unfold Date.setMinutes, Date.getMinutes. cbv zeta. f_equal.
  pose proof (time_of_fields (Date.LocalTime LocalTZA d)) as Hfields.
  unfold Date.MakeDate, Date.MakeTime, Date.msPerDay, Date.msPerHour,
    Date.msPerMinute, Date.msPerSecond in *.
  lia.
Qed.

(** In a zone whose offset never changes that is [n] minutes later. *)
Lemma setMinutes_plus_fixed offset d n :
  Date.setMinutes (Date.fixedOffset offset) d
    (Date.getMinutes (Date.fixedOffset offset) d + n)
  = d + n * 60 * 1000.
Proof.
  rewrite setMinutes_plus.
  unfold Date.UTC, Date.LocalTime, Date.fixedOffset, Date.msPerMinute. lia.
Qed.

(** ** Capacity accounting *)

Section Capacity.

Variable workerType : WorkerType.t.

Lemma addCapacityOf_capacityOr1 capacity t :
  addCapacityOf workerType capacity t = capacity + capacityOr1 workerType t.
Proof.
  unfold addCapacityOf, capacityOr1.
  destruct (WorkerType.capacityOfType workerType t); reflexivity.
Qed.

(** A counting loop adds, to what it starts from, the capacities of the
    elements that pass its test. *)
Lemma counting_loop {A} (test : A -> bool) (typeOf : A -> option string) l c0 :
  fold_left (fun capacity x =>
               if test x then addCapacityOf workerType capacity (typeOf x)
               else capacity) l c0
  = c0 + sumZ (map (fun x => capacityOr1 workerType (typeOf x)) (filter test l)).
Proof.
  revert c0. induction l as [|x l IH]; intros c0; simpl.
  - lia.
  - rewrite IH. destruct (test x); simpl.
    + rewrite addCapacityOf_capacityOr1. lia.
    + reflexivity.
Qed.

Lemma filter_const {A} (b : bool) (l : list A) :
  filter (fun _ => b) l = if b then l else [].
Proof.
  destruct b; induction l as [|x l IH]; simpl; congruence.
Qed.

(** What [capacityForType] computes: the in-flight entries of every worker
    type are counted, and only when the states have ['spotReq']. *)
Lemma capacityForType_eq m states :
  capacityForType m workerType states
  = instanceCapacity m workerType (statesOrDefault states)
    + (if JS.includes (statesOrDefault states) "spotReq"
       then requestCapacity m workerType
            + inFlightCapacity workerType (__internalState m)
       else 0).
Proof.
  unfold capacityForType, instanceCapacity, requestCapacity, inFlightCapacity.
  rewrite !counting_loop, !filter_const.
  destruct (JS.includes (statesOrDefault states) "spotReq"); simpl; lia.
Qed.

(** On requests as EC2 describes them, which have no top-level
    [InstanceType], each request of the worker type and each in-flight entry
    counts 1, whatever the capacity of its type. *)
Lemma capacityForType_counts_each_request_as_one m states :
  WorkerType.capacityOfType workerType None = None ->
  (forall request, In request (requests (__apiState m)) ->
     SpotRequest.InstanceType request = None) ->
  (forall sr, In sr (__internalState m) ->
     SpotRequest.InstanceType (Tracked.request sr) = None) ->
  capacityForType m workerType states
  = instanceCapacity m workerType (statesOrDefault states)
    + (if JS.includes (statesOrDefault states) "spotReq"
       then Z.of_nat (length (requestsOfType m (WorkerType.workerType workerType)))
            + Z.of_nat (length (__internalState m))
       else 0).
Proof.
  intros Hunknown Hreq Hsr. rewrite capacityForType_eq.
  assert (Hones : forall {A} (typeOf : A -> option string) (l : list A),
             (forall x, In x l -> typeOf x = None) ->
             sumZ (map (fun x => capacityOr1 workerType (typeOf x)) l)
             = Z.of_nat (length l)).
  { intros A typeOf l. induction l as [|x l IH]; intros H; [reflexivity |].
    cbn [map sumZ fold_right length]. fold (sumZ (map (fun x => capacityOr1 workerType (typeOf x)) l)).
    rewrite IH by (intros y Hy; apply H; now right).
    unfold capacityOr1. rewrite (H x (or_introl eq_refl)), Hunknown. lia. }
  unfold requestCapacity, inFlightCapacity.
  rewrite (Hones _ SpotRequest.InstanceType),
    (Hones _ (fun sr => SpotRequest.InstanceType (Tracked.request sr)));
    [reflexivity | exact Hsr |].
  intros request Hin. apply Hreq. unfold requestsOfType in Hin.
  apply filter_In in Hin. tauto.
Qed.

End Capacity.

(** C1 fails in the code.  [capacityForType] reads the type of a request and
    of an in-flight entry from [request.InstanceType]; EC2 reports the type
    under [LaunchSpecification], so that property is unset and each request
    and each entry counts 1, whatever the capacity of its type.  On a fleet
    of two running instances, an open request and an in-flight entry of
    [builder], all of a type of capacity 2, the code counts 6 where the
    specified sum is 8. *)
Theorem capacityForType_counts_requests_as_one :
  capacityForType mixedFleet builder None = 6
  /\ specifiedCapacity mixedFleet builder (statesOrDefault None) = 8.
Proof. split; reflexivity. Qed.

(** The in-flight entries are counted, like the requests, only when the
    states have ['spotReq']. *)
Example capacityForType_of_running_alone :
  capacityForType oneInFlight builder (Some ["running"]) = 0
  /\ capacityForType oneInFlight builder None = 1.
Proof. split; reflexivity. Qed.

(** The in-flight entries of another worker type are counted too. *)
Example capacityForType_counts_foreign_entries :
  capacityForType
    (sampleManager emptyState emptyState
       [sampleTracked "sir-9" "us-west-2" "tester" "m3.large" 0])
    builder None = 1.
Proof. reflexivity. Qed.

(** ** Filtering the open spot requests *)

Section FilterSpotRequests.

Variable LocalTZA : Z -> bool -> Z.
Variable now : Z.
Variable region : string.

Lemma filterRegion_good_from l b :
  good (fold_left (filterSpotRequest LocalTZA now region) l b)
  = good b ++
    filter (fun sr => negb (JS.includes stalledStates (SpotRequest.StatusCode sr))) l.
Proof.
  revert b. induction l as [|sr l IH]; intros b; cbn [fold_left filter].
  - now rewrite app_nil_r.
  - rewrite IH. unfold filterSpotRequest.
    destruct (JS.includes stalledStates (SpotRequest.StatusCode sr));
      cbn [good negb].
    + reflexivity.
    + now rewrite <- app_assoc.
Qed.

Lemma filterSpotRequest_stalled b x sr :
  In sr (stalled (filterSpotRequest LocalTZA now region b x))
  <-> In sr (stalled b) \/ (x = sr /\ isStalled LocalTZA now sr = true).
Proof.
  unfold filterSpotRequest, isStalled. cbv zeta.
  destruct (Date.setMinutes LocalTZA (SpotRequest.CreateTime x)
              (Date.getMinutes LocalTZA (SpotRequest.CreateTime x) + 20) <? now)
    eqn:Eold;
    destruct (JS.includes stalledStates (SpotRequest.StatusCode x)) eqn:Ebad;
    cbn [stalled orb]; rewrite ?in_app_iff; cbn [In].
  all: split; intros H.
  all: repeat match goal with
       | H : _ \/ _ |- _ => destruct H as [H | H]
       | H : _ /\ _ |- _ => destruct H as [? H]
       | H : False |- _ => destruct H
       end; subst; rewrite ?Eold, ?Ebad in *; cbn [orb] in *;
       try discriminate; auto.
Qed.

Lemma filterRegion_stalled_from l b sr :
  In sr (stalled (fold_left (filterSpotRequest LocalTZA now region) l b))
  <-> In sr (stalled b) \/ (In sr l /\ isStalled LocalTZA now sr = true).
Proof.
  revert b. induction l as [|x l IH]; intros b; cbn [fold_left In].
  - tauto.
  - rewrite IH, filterSpotRequest_stalled. tauto.
Qed.

(** The good bucket holds the requests whose status code is not one of
    [stalledStates], whatever their age. *)
Lemma filterRegion_good l :
  good (filterRegion LocalTZA now region l)
  = filter (fun sr => negb (JS.includes stalledStates (SpotRequest.StatusCode sr))) l.
Proof. unfold filterRegion. now rewrite filterRegion_good_from. Qed.

(** The stalled bucket holds the requests whose create time, moved 20
    minutes forward on the local clock, is before now, and those whose
    status code is one of [stalledStates]. *)
Lemma filterRegion_stalled l sr :
  In sr (stalled (filterRegion LocalTZA now region l))
  <-> In sr l /\ isStalled LocalTZA now sr = true.
Proof.
  unfold filterRegion. rewrite filterRegion_stalled_from. simpl. tauto.
Qed.

End FilterSpotRequests.

(** C3 fails in the code in two ways.  A request older than 20 minutes with
    a healthy status code is put in the stalled bucket and in the good bucket
    as well; and a request whose status code is [constraint-not-fulfillable]
    is put in the good bucket only, because the list of [stalledStates]
    spells that code with a trailing space.  This is so in every time zone
    whose offset does not change, UTC among them. *)
Theorem filterSpotRequests_misfiles offset :
  _filterSpotRequests (Date.fixedOffset offset) (100 * minute)
    [("us-west-2", [agedRequest; constrainedRequest])]
  = {| data_good := [("us-west-2", [agedRequest; constrainedRequest])];
       data_stalled := [("us-west-2", [agedRequest])];
       data_reported := [] |}.
Proof.
  unfold _filterSpotRequests, filterRegion. cbn [fold_left fst snd].
  unfold filterSpotRequest. cbv zeta. rewrite !setMinutes_plus_fixed.
  reflexivity.
Qed.

(** In a time zone whose offset does not change, a request goes to the
    stalled bucket when it was created more than 20 minutes before now or
    its status code is one of [stalledStates]. *)
Lemma isStalled_fixed_offset offset now sr :
  isStalled (Date.fixedOffset offset) now sr
  = (SpotRequest.CreateTime sr + 20 * 60 * 1000 <? now)
    || JS.includes stalledStates (SpotRequest.StatusCode sr).
Proof. unfold isStalled. now rewrite setMinutes_plus_fixed. Qed.

(** Across a change of offset the 20 minutes of the local clock are not 20
    minutes: 30 minutes after the clock fell back, a request created 10
    minutes before the change, 40 minutes old, is not in the stalled
    bucket; its [killWhen] is 80 minutes after its create time. *)
Example forty_minutes_old_survives_fall_back :
  isStalled fallBack (30 * minute) beforeTheChange = false
  /\ Date.setMinutes fallBack (SpotRequest.CreateTime beforeTheChange)
       (Date.getMinutes fallBack (SpotRequest.CreateTime beforeTheChange) + 20)
     = SpotRequest.CreateTime beforeTheChange + 80 * minute
  /\ data_stalled
       (_filterSpotRequests fallBack (30 * minute)
          [("us-west-2", [beforeTheChange])])
     = [("us-west-2", [])].
Proof. repeat split. Qed.

(** ** Resources awaiting an explanation *)

Section Awaiting.

Variable that : AwsManager.
Variables deadState apiState : ApiState.
Variable now : Z.

(** The comparison of a request id with the awaiting entry never holds, so
    the loop over the dead requests reports nothing and keeps the flag. *)
Lemma awaitingSpotRequest_never_resolves requestAwaiting :
  awaitingSpotRequest that deadState requestAwaiting
  = (negb (outlived requestAwaiting), incremented requestAwaiting, []).
Proof.
  unfold awaitingSpotRequest.
  assert (E : forall l acc,
             fold_left
               (fun '(keep, points) requestMightHave =>
                  if strictEqualsObject
                       (SpotRequest.SpotInstanceRequestId requestMightHave)
                       requestAwaiting
                  then
                    if isFulfilled requestMightHave
                    then (false, points ++ [plotSpotFulfilment that requestMightHave])
                    else (keep, points)
                  else (keep, points)) l acc = acc).
  { induction l as [|r l IH]; intros [keep points]; simpl; [reflexivity | apply IH]. }
  rewrite E. destruct (outlived requestAwaiting); reflexivity.
Qed.

Lemma sweep_from (pred : Awaiting -> bool * Awaiting * list Point) l kept points :
  fold_left
    (fun '(kept, points) a =>
       let '(keep, a', ps) := pred a in
       (if keep then kept ++ [a'] else kept, points ++ ps))
    l (kept, points)
  = (kept ++ fst (sweep pred l), points ++ snd (sweep pred l)).
Proof.
  unfold sweep. revert kept points.
  induction l as [|a l IH]; intros kept points; simpl.
  - now rewrite !app_nil_r.
  - destruct (pred a) as [[keep a'] ps].
    rewrite (IH (if keep then kept ++ [a'] else kept) (points ++ ps)).
    rewrite (IH (if keep then [a'] else []) ps).
    cbn [fst snd]. destruct keep; now rewrite <- ?app_assoc.
Qed.

Lemma sweep_cons pred a l :
  sweep pred (a :: l)
  = ((if fst (fst (pred a)) then [snd (fst (pred a))] else []) ++ fst (sweep pred l),
     snd (pred a) ++ snd (sweep pred l)).
Proof.
  unfold sweep at 1. simpl. destruct (pred a) as [[keep a'] ps].
  rewrite sweep_from. simpl. destruct keep; reflexivity.
Qed.

(** An entry that a sweep keeps was tested with a count of at most 20, and
    leaves the sweep with a count of at most 21. *)
Lemma sweep_kept_bound pred l a' :
  (forall a, fst (fst (pred a)) = true -> outlived a = false) ->
  (forall a, snd (fst (pred a)) = incremented a) ->
  In a' (fst (sweep pred l)) ->
  iterationCount a' <= MAX_ITERATIONS_FOR_STATE_RESOLUTION + 1.
Proof.
  intros Hkeep Hinc. induction l as [|a l IH].
  - intros [].
  - rewrite sweep_cons. cbn [fst]. rewrite in_app_iff. intros [H | H].
    + destruct (fst (fst (pred a))) eqn:E; [| destruct H].
      destruct H as [<- | []]. rewrite Hinc. apply Hkeep in E.
      unfold outlived in E. cbn [incremented iterationCount]. lia.
    + now apply IH.
Qed.

End Awaiting.

(** C4 fails in the code: the entry for [sir-1] is awaited, the dead state
    holds [sir-1] as active and fulfilled, and the sweep reports no fulfilment
    and keeps the entry (its count incremented), because the request id is
    compared with the entry itself and not with the entry's [id]. *)
Theorem awaited_fulfilment_is_never_reported :
  _reconcileStateDifferences awaitingSir1 emptyState sir1Fulfilled emptyState 1000
  = (setAwaiting awaitingSir1
       [{| id := "sir-1"; time := 0; iterationCount := 1 |}] [],
     []).
Proof. reflexivity. Qed.

(** C6 fails in the code: an instance and a request that departed
    unexplained in a first sweep are still retained after 20 further sweeps,
    21 in all, and are discarded by the sweep after that.  The test
    [iterationCount++ > 20] reads the count before incrementing it. *)
Theorem unexplained_entries_survive_21_sweeps :
  __awaitingStateReason (Nat.iter 20 idleSweep firstSweep)
  = [{| id := "i-1"; time := 0; iterationCount := 21 |}]
  /\ __awaitingSpotFulfilmentStatus (Nat.iter 20 idleSweep firstSweep)
     = [{| id := "sir-2"; time := 0; iterationCount := 21 |}]
  /\ __awaitingStateReason (Nat.iter 21 idleSweep firstSweep) = []
  /\ __awaitingSpotFulfilmentStatus (Nat.iter 21 idleSweep firstSweep) = [].
Proof. repeat split; vm_compute; reflexivity. Qed.

(** ** The table of submitted spot requests *)

Lemma knownSpotInstanceRequestIds_from l acc id :
  In id
    (fold_left
       (fun allKnownSrIds instance =>
          match Instance.SpotInstanceRequestId instance with
          | Some sird =>
              if JS.truthy (Some sird) && negb (JS.includes allKnownSrIds sird)
              then allKnownSrIds ++ [sird]
              else allKnownSrIds
          | None => allKnownSrIds
          end) l acc)
  <-> In id acc
      \/ exists instance,
           In instance l
           /\ Instance.SpotInstanceRequestId instance = Some id
           /\ JS.truthy (Some id) = true.
Proof.
  revert acc. induction l as [|x l IH]; intros acc; cbn [fold_left].
  - split; [auto | intros [H | (i & [] & _)]; exact H].
  - rewrite IH. clear IH.
    destruct (Instance.SpotInstanceRequestId x) as [sird|] eqn:Ex.
    + destruct (JS.truthy (Some sird)) eqn:Et;
        destruct (JS.includes acc sird) eqn:Ei; cbn [andb negb].
      * apply includes_In in Ei. split.
        -- intros [H | (i & Hi & Hs & Ht)]; [auto |].
           right. exists i. cbn [In]. auto.
        -- intros [H | (i & [<- | Hi] & Hs & Ht)]; [auto | |].
           ++ left. congruence.
           ++ right. exists i. auto.
      * rewrite in_app_iff. cbn [In]. split.
        -- intros [[H | [<- | []]] | (i & Hi & Hs & Ht)]; [auto | |].
           ++ right. exists x. auto.
           ++ right. exists i. auto.
        -- intros [H | (i & [<- | Hi] & Hs & Ht)]; [auto | |].
           ++ left. right. left. congruence.
           ++ right. exists i. auto.
      * split.
        -- intros [H | (i & Hi & Hs & Ht)]; [auto |].
           right. exists i. cbn [In]. auto.
        -- intros [H | (i & [<- | Hi] & Hs & Ht)]; [auto | |].
           ++ congruence.
           ++ right. exists i. auto.
      * split.
        -- intros [H | (i & Hi & Hs & Ht)]; [auto |].
           right. exists i. cbn [In]. auto.
        -- intros [H | (i & [<- | Hi] & Hs & Ht)]; [auto | |].
           ++ congruence.
           ++ right. exists i. auto.
    + split.
      * intros [H | (i & Hi & Hs & Ht)]; [auto |].
        right. exists i. cbn [In]. auto.
      * intros [H | (i & [<- | Hi] & Hs & Ht)]; [auto | |].
        -- congruence.
        -- right. exists i. auto.
Qed.

(** The ids known to the api state: the ids of its requests, and the spot
    request ids of its instances that are set. *)
Lemma knownSpotInstanceRequestIds_spec m id :
  In id (knownSpotInstanceRequestIds m)
  <-> In id (map SpotRequest.SpotInstanceRequestId (requests (__apiState m)))
      \/ exists instance,
           In instance (instances (__apiState m))
           /\ Instance.SpotInstanceRequestId instance = Some id
           /\ JS.truthy (Some id) = true.
Proof. unfold knownSpotInstanceRequestIds. apply knownSpotInstanceRequestIds_from. Qed.

(** C5: after [_reconcileInternalState], every entry left in the tracker
    was submitted less than 15 minutes before now, and its request id is not
    known to the api state: it is not the id of a request, and it is not the
    spot request id that an instance carries. *)
Theorem reconcileInternalState_keeps_fresh_unseen m now request :
  In request (__internalState (fst (_reconcileInternalState m now))) ->
  now - Tracked.submitted request < 15 * 60 * 1000
  /\ ~ In (requestIdOf request)
          (knownSpotInstanceRequestIds (fst (_reconcileInternalState m now)))
  /\ ~ In (requestIdOf request)
          (map SpotRequest.SpotInstanceRequestId
               (requests (__apiState (fst (_reconcileInternalState m now)))))
  /\ (forall instance,
        In instance (instances (__apiState (fst (_reconcileInternalState m now)))) ->
        JS.truthy (Instance.SpotInstanceRequestId instance) = true ->
        Instance.SpotInstanceRequestId instance <> Some (requestIdOf request)).
Proof.
  change (knownSpotInstanceRequestIds (fst (_reconcileInternalState m now)))
    with (knownSpotInstanceRequestIds m).
  cbn [_reconcileInternalState fst setInternalState __internalState __apiState].
  rewrite filter_In. intros [_ Hkeep]. unfold stillInFlight in Hkeep.
  destruct (JS.includes (knownSpotInstanceRequestIds m)
              (SpotRequest.SpotInstanceRequestId (Tracked.request request)))
    eqn:Eknown; [discriminate |].
  destruct (now - Tracked.submitted request >=? 15 * 60 * 1000) eqn:Eold;
    [discriminate |].
  apply includes_not_In in Eknown. split; [lia |]. split; [exact Eknown |].
  rewrite knownSpotInstanceRequestIds_spec in Eknown. split.
  - intros H. apply Eknown. now left.
  - intros instance Hin Ht Heq. apply Eknown. right. exists instance.
    unfold requestIdOf in Heq. rewrite Heq in Ht. auto.
Qed.

(** C5 on a tracker of four entries at minute 16: only the recent unseen
    entry is left. *)
Lemma reconcileInternalState_keeps_fresh_unseen_witness :
  __internalState (fst (_reconcileInternalState fourInFlight (16 * minute)))
  = [recentEntry]
  /\ 16 * minute - Tracked.submitted recentEntry < 15 * 60 * 1000
  /\ ~ In (requestIdOf recentEntry)
          (knownSpotInstanceRequestIds
             (fst (_reconcileInternalState fourInFlight (16 * minute))))
  /\ ~ In (requestIdOf recentEntry)
          (map SpotRequest.SpotInstanceRequestId
               (requests (__apiState
                            (fst (_reconcileInternalState fourInFlight (16 * minute))))))
  /\ (forall instance,
        In instance
           (instances (__apiState
                         (fst (_reconcileInternalState fourInFlight (16 * minute))))) ->
        JS.truthy (Instance.SpotInstanceRequestId instance) = true ->
        Instance.SpotInstanceRequestId instance <> Some (requestIdOf recentEntry)).
Proof.
  split; [reflexivity |].
  apply (reconcileInternalState_keeps_fresh_unseen fourInFlight (16 * minute)).
  vm_compute. now left.
Defined.

(** What [knownSpotInstanceRequestIds] lists is what the api state knows. *)
Lemma knownToApiState_iff m id :
  JS.includes (knownSpotInstanceRequestIds m) id = true <-> knownToApiState m id.
Proof.
  rewrite includes_In, knownSpotInstanceRequestIds_spec. unfold knownToApiState.
  rewrite in_map_iff. cbn [JS.truthy]. split.
  - intros [(request & Hid & Hin) | (instance & Hin & Hid & Hset)].
    + left. eauto.
    + right. exists instance. apply negb_true_iff, String.eqb_neq in Hset. auto.
  - intros [(request & Hin & Hid) | (instance & Hin & Hid & Hset)].
    + left. eauto.
    + right. exists instance. split; [exact Hin |]. split; [exact Hid |].
      now apply negb_true_iff, String.eqb_neq.
Qed.


(** C9 on a manager that sees the request [sir-1] and an instance of the
    request [sir-2]: neither is tracked, a request it does not see is. *)
Example trackNewSpotRequest_on_visible_requests :
  __internalState
    (_trackNewSpotRequest seesTwo
       (sampleTracked "sir-1" "us-west-2" "builder" "m3.large" 0)) = []
  /\ __internalState
       (_trackNewSpotRequest seesTwo
          (sampleTracked "sir-2" "us-west-2" "builder" "m3.large" 0)) = []
  /\ map requestIdOf
       (__internalState
          (_trackNewSpotRequest seesTwo
             (sampleTracked "sir-3" "us-west-2" "builder" "m3.large" 0)))
     = ["sir-3"].
Proof. repeat split. Qed.

Lemma tracked_idempotent sr : tracked (tracked sr) = tracked sr.
Proof. reflexivity. Qed.

(** ** Key pairs *)

Lemma hasKeyPair_existsb c region keyName :
  Ec2.hasKeyPair c region keyName = existsb (Ec2.isKey region keyName) c.
Proof.
  unfold Ec2.hasKeyPair, Ec2.KeyPairs.
  induction c as [|k c IH]; cbn [filter existsb]; [reflexivity |].
  destruct (Ec2.isKey region keyName k); [reflexivity | exact IH].
Qed.

Lemma isKey_other_region r r' keyName k :
  String.eqb r r' = false ->
  Ec2.isKey r keyName k = true -> Ec2.isKey r' keyName k = false.
Proof.
  unfold Ec2.isKey. intros Hr H. apply andb_true_iff in H as [H1 H2].
  apply String.eqb_eq in H1. rewrite H1, Hr. reflexivity.
Qed.

Lemma hasKeyPair_delete c r r' keyName :
  Ec2.hasKeyPair (Ec2.delete c r' keyName) r keyName
  = Ec2.hasKeyPair c r keyName && negb (String.eqb r r').
Proof.
  rewrite !hasKeyPair_existsb. unfold Ec2.delete.
  induction c as [|k c IH]; cbn [filter existsb]; [reflexivity |].
  destruct (Ec2.isKey r' keyName k) eqn:E'; cbn [negb existsb].
  - rewrite IH. destruct (String.eqb r r') eqn:Er.
    + now rewrite !andb_false_r.
    + rewrite String.eqb_sym in Er.
      now rewrite (isKey_other_region r' r keyName k Er E').
  - rewrite IH. destruct (Ec2.isKey r keyName k) eqn:E; [| reflexivity].
    destruct (String.eqb r r') eqn:Er; [| reflexivity].
    apply String.eqb_eq in Er. subst r'. congruence.
Qed.

Lemma hasKeyPair_delete_all l c r keyName :
  Ec2.hasKeyPair (fold_left (fun c region => Ec2.delete c region keyName) l c)
                 r keyName
  = Ec2.hasKeyPair c r keyName && negb (JS.includes l r).
Proof.
  revert c. induction l as [|r' l IH]; intros c; cbn [fold_left].
  - unfold JS.includes. cbn. now rewrite andb_true_r.
  - rewrite IH, hasKeyPair_delete. unfold JS.includes. cbn [existsb].
    rewrite negb_orb, andb_assoc. reflexivity.
Qed.

(** After [deleteKeyPair], no region of the manager has the key pair. *)
Lemma deleted_everywhere w workerName regionsToCheck :
  (forall r, In r regionsToCheck -> In r (regions (manager w))) ->
  let keyName := keyNameOf (manager w) workerName in
  filter (fun region =>
            negb (Ec2.hasKeyPair
                    (fold_left (fun c region => Ec2.delete c region keyName)
                       (filter (fun region => Ec2.hasKeyPair (keyPairs w) region keyName)
                               (regions (manager w)))
                       (keyPairs w))
                    region keyName))
         regionsToCheck
  = regionsToCheck.
Proof.
  intros Hsub keyName. induction regionsToCheck as [|r l IH]; [reflexivity |].
  cbn [filter]. rewrite hasKeyPair_delete_all.
  destruct (Ec2.hasKeyPair (keyPairs w) r keyName) eqn:Eh; cbn [andb negb].
  - assert (Hin : JS.includes
                    (filter (fun region => Ec2.hasKeyPair (keyPairs w) region keyName)
                            (regions (manager w))) r = true).
    { apply includes_In, filter_In. split; [apply Hsub; now left | exact Eh]. }
    rewrite Hin. cbn [negb]. f_equal. apply IH. intros r' Hr'. apply Hsub. now right.
  - f_equal. apply IH. intros r' Hr'. apply Hsub. now right.
Qed.

Lemma filter_not_name_In (l : list string) name other :
  In other (filter (fun k => negb (String.eqb k name)) l)
  <-> In other l /\ other <> name.
Proof.
  rewrite filter_In, negb_true_iff, String.eqb_neq. reflexivity.
Qed.

(** C10: once [deleteKeyPair(workerName)] has resolved, [workerName] is not
    in [__knownKeyPairs] and every other name is there as before; a
    [createKeyPair(workerName)] that follows does not take the cached path:
    it describes the key pair in the regions and imports it into each region
    that lacks it, which by then is every region. *)
Theorem deleteKeyPair_forgets_only_that_name w workerName :
  JS.truthy (Some workerName) = true ->
  exists w1,
    deleteKeyPair w workerName = JS.Ok w1
    /\ ~ In workerName (__knownKeyPairs (manager w1))
    /\ __knownKeyPairs (manager w1)
       = filter (fun k => negb (String.eqb k workerName))
                (__knownKeyPairs (manager w))
    /\ (forall other, other <> workerName ->
          (In other (__knownKeyPairs (manager w1))
           <-> In other (__knownKeyPairs (manager w))))
    /\ exists w2,
         createKeyPair w1 workerName = JS.Ok w2
         /\ sent w2
            = sent w1 ++
              Ec2.describeKeyPairs (regions (manager w))
                                   (keyNameOf (manager w) workerName)
              :: map (fun region =>
                        Ec2.importKeyPair region (keyNameOf (manager w) workerName)
                                          (pubKey (manager w)))
                     (regions (manager w))
         /\ In workerName (__knownKeyPairs (manager w2)).
Proof.
  intros Hname. unfold deleteKeyPair, assertName. rewrite Hname. cbn [JS.bind].
  eexists. split; [reflexivity |].
  cbn [manager setKnownKeyPairs __knownKeyPairs keyPairs sent regions pubKey].
  split; [| split; [reflexivity | split]].
  - rewrite filter_not_name_In. tauto.
  - intros other Hother. rewrite filter_not_name_In. tauto.
  - unfold createKeyPair, assertName. rewrite Hname. cbn [JS.bind].
    cbn [manager setKnownKeyPairs __knownKeyPairs keyPairs sent regions pubKey].
    destruct (JS.includes
                (filter (fun k => negb (String.eqb k workerName))
                        (__knownKeyPairs (manager w))) workerName) eqn:Ecached.
    + apply includes_In, filter_not_name_In in Ecached. tauto.
    + eexists. split; [reflexivity |].
      cbn [manager setKnownKeyPairs __knownKeyPairs keyPairs sent regions pubKey].
      change (keyNameOf (setKnownKeyPairs (manager w)
                (filter (fun k => negb (String.eqb k workerName))
                        (__knownKeyPairs (manager w)))) workerName)
        with (keyNameOf (manager w) workerName).
      rewrite (deleted_everywhere w workerName (regions (manager w)) (fun r H => H)).
      split; [reflexivity |]. apply in_or_app. right. now left.
Qed.

(** C10 on a cache of two names. *)
Lemma deleteKeyPair_forgets_only_that_name_witness :
  exists w1,
    deleteKeyPair twoKnownKeyPairs "builder" = JS.Ok w1
    /\ ~ In "builder" (__knownKeyPairs (manager w1))
    /\ __knownKeyPairs (manager w1)
       = filter (fun k => negb (String.eqb k "builder"))
                (__knownKeyPairs (manager twoKnownKeyPairs))
    /\ (forall other, other <> "builder" ->
          (In other (__knownKeyPairs (manager w1))
           <-> In other (__knownKeyPairs (manager twoKnownKeyPairs))))
    /\ exists w2,
         createKeyPair w1 "builder" = JS.Ok w2
         /\ sent w2
            = sent w1 ++
              Ec2.describeKeyPairs (regions (manager twoKnownKeyPairs))
                                   (keyNameOf (manager twoKnownKeyPairs) "builder")
              :: map (fun region =>
                        Ec2.importKeyPair region
                          (keyNameOf (manager twoKnownKeyPairs) "builder")
                          (pubKey (manager twoKnownKeyPairs)))
                     (regions (manager twoKnownKeyPairs))
         /\ In "builder" (__knownKeyPairs (manager w2)).
Proof.
  apply (deleteKeyPair_forgets_only_that_name twoKnownKeyPairs "builder").
  reflexivity.
Defined.

(** ** Departed instances *)

Section Departed.

Variable that : AwsManager.
Variables deadState apiState : ApiState.
Variable now : Z.

Lemma priceOf_unset instance price request :
  JS.optTruthy price = false ->
  priceOf instance price request
  = if JS.eq_opt (SpotRequest.SpotInstanceRequestId request)
                 (Instance.SpotInstanceRequestId instance)
    then Some (JS.parseFloat (SpotRequest.SpotPrice request))
    else price.
Proof. intros H. unfold priceOf. now rewrite H. Qed.

(** Once [price] is truthy the loop no longer assigns it. *)
Lemma priceOf_set instance l price :
  JS.optTruthy price = true -> fold_left (priceOf instance) l price = price.
Proof.
  intros H. induction l as [|r l IH]; cbn [fold_left]; [reflexivity |].
  unfold priceOf at 2. rewrite H. exact IH.
Qed.

(** The loop over the requests leaves in [price] the bid of the first
    request that [isBidOf] accepts, when there is one. *)
Lemma priceOf_fold instance l price :
  JS.optTruthy price = false ->
  match firstBid instance l with
  | Some request =>
      fold_left (priceOf instance) l price
      = Some (JS.parseFloat (SpotRequest.SpotPrice request))
  | None => JS.optTruthy (fold_left (priceOf instance) l price) = false
  end.
Proof.
  revert price. unfold firstBid.
  induction l as [|r l IH]; intros price Hp; cbn [find fold_left].
  - exact Hp.
  - rewrite (priceOf_unset instance price r Hp). unfold isBidOf at 1.
    destruct (JS.eq_opt (SpotRequest.SpotInstanceRequestId r)
                        (Instance.SpotInstanceRequestId instance)); cbn [andb].
    + destruct (JS.numberTruthy (JS.parseFloat (SpotRequest.SpotPrice r))) eqn:Et.
      * apply priceOf_set. exact Et.
      * apply IH. exact Et.
    + apply IH. exact Hp.
Qed.

Lemma plotInstanceDeath_terminated instance reason time :
  In (instanceTerminated (provisionerId that)
        (Instance.Region instance) (Instance.AvailabilityZone instance)
        (Instance.InstanceType instance) (Instance.WorkerType instance)
        (Instance.InstanceId instance) (Instance.SpotInstanceRequestId instance)
        time (Instance.LaunchTime instance) (Instance.StateCode instance)
        (Instance.StateName instance) (Code reason) (Message reason))
     (plotInstanceDeath that deadState apiState now instance reason time).
Proof. now left. Qed.

Lemma plotInstanceDeath_floor instance reason time request :
  Code reason = Some "Server.SpotInstanceTermination" ->
  firstBid instance (requests deadState ++ requests apiState) = Some request ->
  In (spotPriceFloorFound (Instance.Region instance)
        (Instance.AvailabilityZone instance) (Instance.InstanceType instance)
        (IsoString now) (JS.parseFloat (SpotRequest.SpotPrice request))
        "instance-spot-killed")
     (plotInstanceDeath that deadState apiState now instance reason time).
Proof.
  intros Hcode Hfirst. unfold plotInstanceDeath. right.
  rewrite Hcode. cbn [JS.eq_opt]. rewrite String.eqb_refl.
  rewrite <- fold_left_app.
  pose proof (priceOf_fold instance (requests deadState ++ requests apiState)
                None eq_refl) as H.
  rewrite Hfirst in H. rewrite H.
  apply find_some in Hfirst as [_ Hbid]. unfold isBidOf in Hbid.
  apply andb_true_iff in Hbid as [_ Ht]. rewrite Ht. now left.
Qed.

(** The points of the loop over the departed instances only grow, and hold
    what [plotInstanceDeath] reports for each instance that has a reason. *)
Lemma departedInstance_points l awaiting points instance reason :
  In instance l ->
  hasStateReason instance = Some reason ->
  forall p,
    In p (plotInstanceDeath that deadState apiState now instance reason now) ->
    In p (snd (fold_left (departedInstance that deadState apiState now) l
                 (awaiting, points))).
Proof.
  intros Hin Hreason p Hp.
  assert (Hgrow : forall l awaiting points,
             In p points ->
             In p (snd (fold_left (departedInstance that deadState apiState now) l
                          (awaiting, points)))).
  { clear. induction l as [|x l IH]; intros awaiting points H; cbn [fold_left].
    - exact H.
    - unfold departedInstance at 2.
      destruct (hasStateReason x); apply IH; [apply in_or_app; now left | exact H]. }
  revert awaiting points. induction l as [|x l IH]; intros awaiting points.
  - destruct Hin.
  - cbn [fold_left]. destruct Hin as [-> | Hin].
    + unfold departedInstance at 2. rewrite Hreason.
      apply Hgrow, in_or_app. now right.
    + destruct (departedInstance that deadState apiState now (awaiting, points) x)
        as [awaiting' points'].
      now apply IH.
Qed.

(** The points of the whole method hold those of its third loop. *)
Lemma reconcile_points_of_departed differences p :
  In p (snd (fold_left (departedInstance that deadState apiState now)
               (instances differences) (__awaitingStateReason that, []))) ->
  In p (snd (reconcileStateDifferences that deadState apiState now differences)).
Proof.
  unfold reconcileStateDifferences.
  destruct (fold_left (departedRequest that now) (requests differences)
              (__awaitingSpotFulfilmentStatus that, [])) as [awaitingSpot points1].
  destruct (sweep (awaitingSpotRequest that deadState) awaitingSpot)
    as [awaitingSpot' points2].
  destruct (fold_left (departedInstance that deadState apiState now)
              (instances differences) (__awaitingStateReason that, []))
    as [awaitingReason points3].
  destruct (sweep (awaitingInstance that deadState apiState now) awaitingReason)
    as [awaitingReason' points4].
  cbn [snd]. intros H. rewrite !in_app_iff. auto.
Qed.

End Departed.

Lemma reconcileStateDifferences_points m differences deadState apiState now :
  snd (_reconcileStateDifferences m differences deadState apiState now)
  = snd (reconcileStateDifferences m deadState apiState now differences).
Proof.
  unfold _reconcileStateDifferences.
  destruct (reconcileStateDifferences m deadState apiState now differences)
    as [[awaitingSpot awaitingReason] points].
  reflexivity.
Qed.

Lemma spotKilled_hasStateReason instance reason :
  Instance.StateReason instance = Some reason ->
  Code reason = Some "Server.SpotInstanceTermination" ->
  hasStateReason instance = Some reason.
Proof.
  intros Hr Hc. unfold hasStateReason. rewrite Hr, Hc. reflexivity.
Qed.

(** C7, as stated, fails: the instance killed by the spot market is reported
    as terminated, but the bid of its request, which reads as zero, is not
    reported as a price floor. *)
Lemma zero_bid_is_no_price_floor :
  ~ priceFloorAsSpecified
      (snd (_reconcileStateDifferences (sampleManager emptyState zeroBid [])
              (noRequests zeroBid) zeroBid emptyState 1000))
      (noRequests zeroBid) zeroBid emptyState.
Proof.
  intros H.
  destruct (H killedInstance (or_introl eq_refl)) as [_ Hfloor].
  - eexists. split; reflexivity.
  - destruct (Hfloor _ (or_introl eq_refl) eq_refl)
      as (region & az & instanceType & time & reason & Hin).
    vm_compute in Hin. destruct Hin as [Hin | []]. discriminate Hin.
Qed.

(** C7 (amended): every departed instance whose state reason code is
    ['Server.SpotInstanceTermination'] is reported as terminated; and when a
    request of the dead or current state has the spot request id of the
    instance and a bid that parses to a number other than zero, the bid of
    the first such request (dead state first) is reported as a price floor. *)
Theorem spot_killed_instance_reports_price_floor
    m differences deadState apiState now instance reason :
  In instance (instances differences) ->
  Instance.StateReason instance = Some reason ->
  Code reason = Some "Server.SpotInstanceTermination" ->
  let points := snd (_reconcileStateDifferences m differences deadState apiState now) in
  In (instanceTerminated (provisionerId m)
        (Instance.Region instance) (Instance.AvailabilityZone instance)
        (Instance.InstanceType instance) (Instance.WorkerType instance)
        (Instance.InstanceId instance) (Instance.SpotInstanceRequestId instance)
        now (Instance.LaunchTime instance) (Instance.StateCode instance)
        (Instance.StateName instance) (Code reason) (Message reason)) points
  /\ (forall request,
        In request (requests deadState ++ requests apiState) ->
        isBidOf instance request = true ->
        exists first,
          firstBid instance (requests deadState ++ requests apiState) = Some first
          /\ In (spotPriceFloorFound (Instance.Region instance)
                   (Instance.AvailabilityZone instance)
                   (Instance.InstanceType instance) (IsoString now)
                   (JS.parseFloat (SpotRequest.SpotPrice first))
                   "instance-spot-killed") points).
Proof.
  intros Hin Hr Hc points. subst points.
  rewrite reconcileStateDifferences_points.
  pose proof (spotKilled_hasStateReason instance reason Hr Hc) as Hhas.
  split.
  - apply reconcile_points_of_departed.
    apply (departedInstance_points m deadState apiState now _ _ _ instance reason Hin Hhas).
    apply plotInstanceDeath_terminated.
  - intros request Hreq Hbid.
    destruct (firstBid instance (requests deadState ++ requests apiState))
      as [first|] eqn:Efirst.
    + exists first. split; [reflexivity |].
      apply reconcile_points_of_departed.
      apply (departedInstance_points m deadState apiState now _ _ _ instance reason Hin Hhas).
      now apply plotInstanceDeath_floor.
    + unfold firstBid in Efirst.
      pose proof (find_none _ _ Efirst request Hreq) as Hnone. congruence.
Qed.

(** The amended C7 on scenario S4: a bid of 0.41 is reported as the floor. *)
Lemma spot_killed_instance_reports_price_floor_witness :
  snd (_reconcileStateDifferences (sampleManager emptyState bid041 [])
         (noRequests bid041) bid041 emptyState 1000)
  = [ instanceTerminated "aws-provisioner-v1" "us-west-2" "us-west-2a" "m3.large"
        "builder" "i-7" (Some "sir-7") 1000 0 16 "terminated"
        (Some "Server.SpotInstanceTermination")
        "Your Spot Instance was terminated.";
      spotPriceFloorFound "us-west-2" "us-west-2a" "m3.large" (IsoString 1000)
        (JS.Num (41 # 100)) "instance-spot-killed" ]
  /\ firstBid killedInstance (requests bid041 ++ requests emptyState)
     = nth_error (requests bid041) 0
  /\ In (spotPriceFloorFound "us-west-2" "us-west-2a" "m3.large" (IsoString 1000)
           (JS.Num (41 # 100)) "instance-spot-killed")
        (snd (_reconcileStateDifferences (sampleManager emptyState bid041 [])
                (noRequests bid041) bid041 emptyState 1000)).
Proof.
  split; [reflexivity |]. split; [reflexivity |].
  destruct (spot_killed_instance_reports_price_floor
              (sampleManager emptyState bid041 []) (noRequests bid041) bid041
              emptyState 1000 killedInstance
              {| Code := Some "Server.SpotInstanceTermination";
                 Message := "Your Spot Instance was terminated." |}
              (or_introl eq_refl) eq_refl eq_refl) as [_ Hfloor].
  destruct (Hfloor (sampleRequest "sir-7" "us-west-2" "builder" "m3.large"
                      "closed" "instance-terminated-by-price" 0 "0.41")
              (or_introl eq_refl) eq_refl) as (first & Hfirst & Hpoint).
  vm_compute in Hfirst. injection Hfirst as <-. exact Hpoint.
Defined.

(** ** Killing capacity *)

Lemma setKey_entries {V} k (v : V) o entry :
  In entry (setKey k v o) -> In entry o \/ entry = (k, v).
Proof.
  induction o as [|[k' v'] o IH]; cbn [setKey In].
  - intros [<- | []]. now right.
  - destruct (String.eqb k' k); cbn [In].
    + intros [<- | H]; auto.
    + intros [<- | H]; auto. destruct (IH H); auto.
Qed.

Lemma emptyKills_entries regions entry :
  In entry (emptyKills regions) ->
  snd entry = {| kill_instances := []; kill_requests := [] |}.
Proof.
  unfold emptyKills.
  assert (H : forall (o : object Kills),
             (forall e, In e o ->
                snd e = {| kill_instances := []; kill_requests := [] |}) ->
             forall e,
               In e (fold_left
                       (fun o region =>
                          setKey region
                            {| kill_instances := []; kill_requests := [] |} o)
                       regions o) ->
               snd e = {| kill_instances := []; kill_requests := [] |}).
  { induction regions as [|r l IH]; intros o Ho e; cbn [fold_left].
    - apply Ho.
    - apply IH. intros e' He'. apply setKey_entries in He' as [He' | ->].
      + now apply Ho.
      + reflexivity. }
  apply H. intros e [].
Qed.

Section KillCapacityFacts.

Variable knuthShuffle : forall A : Type, list A -> list A.
Variable workerType : WorkerType.t.
Variables count capacity : Z.
Variable caps : object Z.

(** With a positive count and nothing selected yet, [cont()] is false. *)
Lemma cont_false_at_start :
  0 < count -> cont workerType count capacity 0 = false.
Proof.
  intros H. unfold cont. destruct (Z.leb_spec count 0); [lia | reflexivity].
Qed.

(** A loop whose candidates are never selected leaves its state alone. *)
Lemma select_loop_idle {A} (selected : A -> bool) (typeOf regionOf idOf : A -> string)
    l toKill :
  cont workerType count capacity 0 = false ->
  JS.foldM (fun st x =>
              select workerType count capacity caps (selected x)
                (typeOf x) (regionOf x) (idOf x) st)
           l (0, toKill)
  = JS.Ok (0, toKill).
Proof.
  intros H. induction l as [|x l IH]; cbn [JS.foldM]; [reflexivity |].
  unfold select at 1. rewrite H. cbn [andb JS.bind]. exact IH.
Qed.

Lemma nothing_to_kill (toKill : object Kills) :
  (forall entry, In entry toKill ->
     snd entry = {| kill_instances := []; kill_requests := [] |}) ->
  forall deaths,
    JS.foldM (fun deaths entry =>
                let i := kill_instances (snd entry) in
                let r := kill_requests (snd entry) in
                if (Z.of_nat (length i) + Z.of_nat (length r) >? 0) then
                  calls <- killCancel (fst entry) (Some i) (Some r) ;;
                  JS.Ok (deaths ++ calls)
                else JS.Ok deaths)
             toKill deaths
    = JS.Ok deaths.
Proof.
  induction toKill as [|entry l IH]; intros H deaths; cbn [JS.foldM];
    [reflexivity |].
  rewrite (H entry (or_introl eq_refl)). cbn [kill_instances kill_requests length].
  cbn [JS.bind]. apply IH. intros e He. apply H. now right.
Qed.

End KillCapacityFacts.

(** Asked to kill a positive count, [killCapacityOfWorkerType] selects
    nothing and sends no call: [cont()] tests [count <= capToKill], which is
    false before anything is selected. *)
Lemma killCapacityOfWorkerType_selects_nothing knuthShuffle m workerType count states caps :
  0 < count ->
  buildCaps workerType = JS.Ok caps ->
  killCapacityOfWorkerType knuthShuffle m workerType count states = JS.Ok [].
Proof.
  intros Hcount Hcaps. unfold killCapacityOfWorkerType. rewrite Hcaps.
  cbn [JS.bind].
  pose proof (cont_false_at_start workerType count
                (capacityForType m workerType (Some states)) Hcount) as Hcont.
  destruct (JS.includes states "spotReq").
  - rewrite (select_loop_idle workerType count _ caps (fun _ => true)
               SpotRequest.LaunchInstanceType SpotRequest.Region
               SpotRequest.SpotInstanceRequestId _ _ Hcont).
    cbn [JS.bind].
    rewrite (select_loop_idle workerType count _ caps
               (fun sr => String.eqb (SpotRequest.WorkerType (Tracked.request sr))
                                     (WorkerType.workerType workerType))
               (fun sr => SpotRequest.LaunchInstanceType (Tracked.request sr))
               (fun sr => SpotRequest.Region (Tracked.request sr))
               (fun sr => SpotRequest.SpotInstanceRequestId (Tracked.request sr))
               _ _ Hcont).
    cbn [JS.bind].
    rewrite (select_loop_idle workerType count _ caps
               (fun instance => JS.includes states (Instance.StateName instance))
               Instance.InstanceType Instance.Region Instance.InstanceId
               _ _ Hcont).
    cbn [JS.bind snd]. apply nothing_to_kill, emptyKills_entries.
  - cbn [JS.bind].
    rewrite (select_loop_idle workerType count _ caps
               (fun instance => JS.includes states (Instance.StateName instance))
               Instance.InstanceType Instance.Region Instance.InstanceId
               _ _ Hcont).
    cbn [JS.bind snd]. apply nothing_to_kill, emptyKills_entries.
Qed.

(** C2 fails in the code: with a capacity of 5 (two running instances of
    capacity 2 and an open request), a minimum of 0 and a count of 2, no
    candidate is selected and no call is sent, whatever the shuffle. *)
Theorem killCapacityOfWorkerType_kills_nothing :
  forall knuthShuffle : forall A : Type, list A -> list A,
    capacityForType smallFleet builder (Some defaultStates) = 5
    /\ killCapacityOfWorkerType knuthShuffle smallFleet builder 2 defaultStates
       = JS.Ok [].
Proof.
  intros knuthShuffle. split; [reflexivity |].
  apply (killCapacityOfWorkerType_selects_nothing knuthShuffle smallFleet builder 2
           defaultStates [("m3.large", 2)]); reflexivity.
Qed.

(** With a count that is not positive the first candidate is selected, and
    recording its id raises: the entry of [toKill] is not an array. *)
Example killCapacityOfWorkerType_raises_on_zero :
  killCapacityOfWorkerType (fun _ l => l) smallFleet builder 0 defaultStates
  = JS.Throw (JS.TypeError "toKill[region].push is not a function").
Proof. reflexivity. Qed.

(** ** Objects used as maps *)

Lemma getKey_setKey {V} k (v : V) o k' :
  getKey k' (setKey k v o) = if String.eqb k k' then Some v else getKey k' o.
Proof.
  induction o as [|[k0 v0] o IH]; cbn [setKey getKey].
  - reflexivity.
  - destruct (String.eqb k0 k) eqn:E0; cbn [getKey].
    + apply String.eqb_eq in E0. subst k0. destruct (String.eqb k k'); reflexivity.
    + rewrite IH. destruct (String.eqb k0 k') eqn:E1; [| reflexivity].
      apply String.eqb_eq in E1. subst k0. rewrite String.eqb_sym in E0.
      now rewrite E0.
Qed.

Lemma getKey_In {V} k (v : V) o : getKey k o = Some v -> In (k, v) o.
Proof.
  induction o as [|[k0 v0] o IH]; cbn [getKey In]; [discriminate |].
  destruct (String.eqb k0 k) eqn:E.
  - apply String.eqb_eq in E. intros [= ->]. left. now subst.
  - intros H. right. now apply IH.
Qed.

Lemma getKey_emptyKills regions r :
  In r regions -> exists k, getKey r (emptyKills regions) = Some k.
Proof.
  unfold emptyKills.
  assert (H : forall l (o : object Kills),
             In r l \/ (exists k, getKey r o = Some k) ->
             exists k,
               getKey r (fold_left
                           (fun o region =>
                              setKey region
                                {| kill_instances := []; kill_requests := [] |} o)
                           l o) = Some k).
  { induction l as [|r' l IH]; intros o; cbn [fold_left].
    - intros [[] | H]. exact H.
    - intros [[-> | H] | (k & H)]; apply IH.
      + right. rewrite getKey_setKey, String.eqb_refl. eauto.
      + now left.
      + right. rewrite getKey_setKey. destruct (String.eqb r' r); eauto. }
  intros Hin. apply H. now left.
Qed.

(** ** Killing by name *)

Lemma killsWithin_refl k : killsWithin k k.
Proof. split; apply incl_refl. Qed.

Lemma grows_refl o : grows o o.
Proof. intros r k H. exists k. split; [exact H | apply killsWithin_refl]. Qed.

Lemma grows_trans o1 o2 o3 : grows o1 o2 -> grows o2 o3 -> grows o1 o3.
Proof.
  intros H12 H23 r k H. destruct (H12 r k H) as (k2 & H2 & [Hi2 Hr2]).
  destruct (H23 r k2 H2) as (k3 & H3 & [Hi3 Hr3]).
  exists k3. split; [exact H3 |]. split; eapply incl_tran; eauto.
Qed.

Lemma grows_setKey region k k' o :
  getKey region o = Some k -> killsWithin k k' -> grows o (setKey region k' o).
Proof.
  intros Hk Hw r k0 H0. rewrite getKey_setKey.
  destruct (String.eqb region r) eqn:E.
  - apply String.eqb_eq in E. subst r. exists k'. split; [reflexivity |]. congruence.
  - exists k0. split; [exact H0 | apply killsWithin_refl].
Qed.

Lemma pushInstance_ok region id o k :
  getKey region o = Some k ->
  exists o',
    pushInstance region id o = JS.Ok o'
    /\ grows o o'
    /\ exists k', getKey region o' = Some k' /\ In id (kill_instances k').
Proof.
  intros Hk. unfold pushInstance. rewrite Hk. eexists. split; [reflexivity |]. split.
  - apply (grows_setKey region k); [exact Hk |].
    split; cbn [kill_instances kill_requests];
      [apply incl_appl | ]; apply incl_refl.
  - eexists. rewrite getKey_setKey, String.eqb_refl. split; [reflexivity |].
    cbn [kill_instances]. apply in_or_app. right. now left.
Qed.

Lemma pushRequest_ok region id o k :
  getKey region o = Some k ->
  exists o',
    pushRequest region id o = JS.Ok o'
    /\ grows o o'
    /\ exists k', getKey region o' = Some k' /\ In id (kill_requests k').
Proof.
  intros Hk. unfold pushRequest. rewrite Hk. eexists. split; [reflexivity |]. split.
  - apply (grows_setKey region k); [exact Hk |].
    split; cbn [kill_instances kill_requests];
      [| apply incl_appl]; apply incl_refl.
  - eexists. rewrite getKey_setKey, String.eqb_refl. split; [reflexivity |].
    cbn [kill_requests]. apply in_or_app. right. now left.
Qed.

Section PushLoop.

Context {A : Type}.
Variable selected : A -> bool.
Variables regionOf idOf : A -> string.
Variable push : string -> string -> object Kills -> JS.result (object Kills).
Variable field : Kills -> list string.

Hypothesis push_ok :
  forall region id o k,
    getKey region o = Some k ->
    exists o',
      push region id o = JS.Ok o'
      /\ grows o o'
      /\ exists k', getKey region o' = Some k' /\ In id (field k').

Hypothesis field_within :
  forall k k', killsWithin k k' -> incl (field k) (field k').

(** A loop that pushes the id of every selected element ends normally when
    the regions of the selected elements are keys, and then every selected
    element has its id under its region. *)
Lemma push_loop l o :
  (forall x, In x l -> selected x = true ->
     exists k, getKey (regionOf x) o = Some k) ->
  exists o',
    JS.foldM (fun o x => if selected x then push (regionOf x) (idOf x) o else JS.Ok o)
             l o = JS.Ok o'
    /\ grows o o'
    /\ forall x, In x l -> selected x = true ->
         exists k, getKey (regionOf x) o' = Some k /\ In (idOf x) (field k).
Proof.
  revert o. induction l as [|x l IH]; intros o Hkeys; cbn [JS.foldM].
  - exists o. split; [reflexivity |]. split; [apply grows_refl |]. intros x [].
  - destruct (selected x) eqn:Ex.
    + destruct (Hkeys x (or_introl eq_refl) Ex) as (k & Hk).
      destruct (push_ok (regionOf x) (idOf x) o k Hk)
        as (o1 & Hpush & Hgrow1 & k1 & Hk1 & Hid).
      rewrite Hpush. cbn [JS.bind].
      destruct (IH o1) as (o' & Hfold & Hgrow & Hall).
      { intros y Hy Hsel. destruct (Hkeys y (or_intror Hy) Hsel) as (ky & Hky).
        destruct (Hgrow1 _ _ Hky) as (ky' & Hky' & _). eauto. }
      exists o'. split; [exact Hfold |]. split; [eapply grows_trans; eauto |].
      intros y [<- | Hy] Hsel; [| now apply Hall].
      destruct (Hgrow _ _ Hk1) as (k' & Hk' & Hwithin).
      exists k'. split; [exact Hk' |]. now apply (field_within k1 k' Hwithin).
    + cbn [JS.bind].
      destruct (IH o) as (o' & Hfold & Hgrow & Hall).
      { intros y Hy Hsel. apply (Hkeys y (or_intror Hy) Hsel). }
      exists o'. split; [exact Hfold |]. split; [exact Hgrow |].
      intros y [<- | Hy] Hsel; [congruence | now apply Hall].
Qed.

End PushLoop.

Lemma killCancel_lists region i r :
  killCancel region (Some i) (Some r) = JS.Ok (callsFor (region, {| kill_instances := i; kill_requests := r |})).
Proof. reflexivity. Qed.

Lemma deaths_loop (o : object Kills) deaths :
  JS.foldM (fun deaths entry =>
              calls <- killCancel (fst entry)
                         (Some (kill_instances (snd entry)))
                         (Some (kill_requests (snd entry))) ;;
              JS.Ok (deaths ++ calls))
           o deaths
  = JS.Ok (deaths ++ flat_map callsFor o).
Proof.
  revert deaths. induction o as [|[region k] o IH]; intros deaths;
    cbn [JS.foldM flat_map].
  - now rewrite app_nil_r.
  - cbn [fst snd]. rewrite killCancel_lists. cbn [JS.bind].
    rewrite IH, <- app_assoc. reflexivity.
Qed.

Lemma callsFor_terminate region k id o :
  getKey region o = Some k ->
  In id (kill_instances k) ->
  In (Ec2.terminateInstances region (kill_instances k)) (flat_map callsFor o).
Proof.
  intros Hk Hid. apply in_flat_map. exists (region, k).
  split; [now apply getKey_In |]. unfold callsFor. cbn [fst snd].
  apply in_or_app. left. destruct (kill_instances k); [destruct Hid | now left].
Qed.

Lemma callsFor_cancel region k id o :
  getKey region o = Some k ->
  In id (kill_requests k) ->
  In (Ec2.cancelSpotInstanceRequests region (kill_requests k)) (flat_map callsFor o).
Proof.
  intros Hk Hid. apply in_flat_map. exists (region, k).
  split; [now apply getKey_In |]. unfold callsFor. cbn [fst snd].
  apply in_or_app. right. destruct (kill_requests k); [destruct Hid | now left].
Qed.

Lemma grows_keeps_instance o o' region id :
  grows o o' ->
  (exists k, getKey region o = Some k /\ In id (kill_instances k)) ->
  exists k, getKey region o' = Some k /\ In id (kill_instances k).
Proof.
  intros Hg (k & Hk & Hid). destruct (Hg _ _ Hk) as (k' & Hk' & [Hi _]).
  exists k'. split; [exact Hk' | now apply Hi].
Qed.

Lemma grows_keeps_request o o' region id :
  grows o o' ->
  (exists k, getKey region o = Some k /\ In id (kill_requests k)) ->
  exists k, getKey region o' = Some k /\ In id (kill_requests k).
Proof.
  intros Hg (k & Hk & Hid). destruct (Hg _ _ Hk) as (k' & Hk' & [_ Hr]).
  exists k'. split; [exact Hk' | now apply Hr].
Qed.

Lemma grows_keeps_key o o' region :
  grows o o' ->
  (exists k, getKey region o = Some k) -> exists k, getKey region o' = Some k.
Proof.
  intros Hg (k & Hk). destruct (Hg _ _ Hk) as (k' & Hk' & _). eauto.
Qed.

(** [killByName] on a state whose resources sit in known regions: it ends
    normally, every instance of the name in one of the states is in a
    [terminateInstances] call for its region, and, when the states have
    ['spotReq'], every request and every in-flight entry of the name is in a
    [cancelSpotInstanceRequests] call for its region. *)
Lemma killByName_spec m name states :
  regionsKnown m ->
  exists calls,
    killByName m name states = JS.Ok calls
    /\ (forall instance,
          In instance (instances (__apiState m)) ->
          Instance.WorkerType instance = name ->
          JS.includes (statesOrDefault states) (Instance.StateName instance) = true ->
          exists ids,
            In (Ec2.terminateInstances (Instance.Region instance) ids) calls
            /\ In (Instance.InstanceId instance) ids)
    /\ (JS.includes (statesOrDefault states) "spotReq" = true ->
        (forall request,
           In request (requests (__apiState m)) ->
           SpotRequest.WorkerType request = name ->
           exists ids,
             In (Ec2.cancelSpotInstanceRequests (SpotRequest.Region request) ids) calls
             /\ In (SpotRequest.SpotInstanceRequestId request) ids)
        /\ (forall sr,
              In sr (__internalState m) ->
              SpotRequest.WorkerType (Tracked.request sr) = name ->
              exists ids,
                In (Ec2.cancelSpotInstanceRequests
                      (SpotRequest.Region (Tracked.request sr)) ids) calls
                /\ In (SpotRequest.SpotInstanceRequestId (Tracked.request sr)) ids)).
Proof.
  intros (Hinst & Hreq & Hint). unfold killByName.
  set (S := statesOrDefault states).
  destruct (push_loop
              (fun instance => String.eqb (Instance.WorkerType instance) name
                               && JS.includes S (Instance.StateName instance))
              Instance.Region Instance.InstanceId pushInstance kill_instances
              pushInstance_ok (fun k k' H => proj1 H)
              (instances (__apiState m)) (emptyKills (regions m)))
    as (o1 & Hfold1 & Hgrow1 & Hall1).
  { intros x Hx _. apply getKey_emptyKills, Hinst, Hx. }
  rewrite Hfold1. cbn [JS.bind].
  destruct (push_loop
              (fun request => String.eqb (SpotRequest.WorkerType request) name
                              && JS.includes S "spotReq")
              SpotRequest.Region SpotRequest.SpotInstanceRequestId
              pushRequest kill_requests
              pushRequest_ok (fun k k' H => proj2 H)
              (requests (__apiState m)) o1)
    as (o2 & Hfold2 & Hgrow2 & Hall2).
  { intros x Hx _. apply (grows_keeps_key _ _ _ Hgrow1).
    apply getKey_emptyKills, Hreq, Hx. }
  rewrite Hfold2. cbn [JS.bind].
  destruct (push_loop
              (fun sr => String.eqb (SpotRequest.WorkerType (Tracked.request sr)) name
                         && JS.includes S "spotReq")
              (fun sr => SpotRequest.Region (Tracked.request sr))
              (fun sr => SpotRequest.SpotInstanceRequestId (Tracked.request sr))
              pushRequest kill_requests
              pushRequest_ok (fun k k' H => proj2 H)
              (__internalState m) o2)
    as (o3 & Hfold3 & Hgrow3 & Hall3).
  { intros x Hx _. apply (grows_keeps_key _ _ _ Hgrow2).
    apply (grows_keeps_key _ _ _ Hgrow1).
    apply getKey_emptyKills, Hint, Hx. }
  rewrite Hfold3. cbn [JS.bind]. rewrite deaths_loop. cbn [app].
  eexists. split; [reflexivity |]. split; [| intros Hspot; split].
  - intros instance Hin Hname Hstate.
    destruct (grows_keeps_instance _ _ _ _ Hgrow3
                (grows_keeps_instance _ _ _ _ Hgrow2 (Hall1 instance Hin
                   ltac:(rewrite Hname, String.eqb_refl, Hstate; reflexivity))))
      as (k & Hk & Hid).
    exists (kill_instances k). split; [| exact Hid].
    now apply (callsFor_terminate _ k (Instance.InstanceId instance)).
  - intros request Hin Hname.
    destruct (grows_keeps_request _ _ _ _ Hgrow3 (Hall2 request Hin
                   ltac:(rewrite Hname, String.eqb_refl, Hspot; reflexivity)))
      as (k & Hk & Hid).
    exists (kill_requests k). split; [| exact Hid].
    now apply (callsFor_cancel _ k (SpotRequest.SpotInstanceRequestId request)).
  - intros sr Hin Hname.
    destruct (Hall3 sr Hin
                ltac:(rewrite Hname, String.eqb_refl, Hspot; reflexivity))
      as (k & Hk & Hid).
    exists (kill_requests k). split; [| exact Hid].
    now apply (callsFor_cancel _ k
                 (SpotRequest.SpotInstanceRequestId (Tracked.request sr))).
Qed.

(** ** The worker types known in state *)

Lemma pushIfMissing_In workerTypes name x :
  In x (pushIfMissing workerTypes name) <-> In x workerTypes \/ x = name.
Proof.
  unfold pushIfMissing. destruct (JS.includes workerTypes name) eqn:E.
  - apply includes_In in E. split; [auto | intros [H | ->]; assumption].
  - rewrite in_app_iff. cbn [In]. split.
    + intros [H | [H | []]]; auto.
    + intros [H | H]; auto.
Qed.

Lemma pushIfMissing_loop {A} (nameOf : A -> string) l acc x :
  In x (fold_left (fun acc e => pushIfMissing acc (nameOf e)) l acc)
  <-> In x acc \/ exists e, In e l /\ nameOf e = x.
Proof.
  revert acc. induction l as [|e l IH]; intros acc; cbn [fold_left].
  - split; [auto | intros [H | (e & [] & _)]; exact H].
  - rewrite IH, pushIfMissing_In. split.
    + intros [[H | ->] | (e' & He' & Hn)]; [auto | |].
      * right. exists e. split; [now left | reflexivity].
      * right. exists e'. split; [now right | exact Hn].
    + intros [H | (e' & [<- | He'] & Hn)]; [auto | |].
      * left. right. now symmetry.
      * right. exists e'. auto.
Qed.

(** [knownWorkerTypes] lists exactly the worker types observed in state. *)
Lemma knownWorkerTypes_spec m name :
  In name (knownWorkerTypes m) <-> observed m name.
Proof.
  unfold knownWorkerTypes, observed. rewrite !pushIfMissing_loop. cbn [In].
  tauto.
Qed.

(** ** Deleting a key pair *)

Lemma hasKeyPair_delete_false c r keyName r' keyName' :
  Ec2.hasKeyPair c r keyName = false ->
  Ec2.hasKeyPair (Ec2.delete c r' keyName') r keyName = false.
Proof.
  rewrite !hasKeyPair_existsb. unfold Ec2.delete.
  induction c as [|k c IH]; cbn [filter existsb]; [reflexivity |].
  intros H. apply orb_false_iff in H as [H1 H2].
  destruct (negb (Ec2.isKey r' keyName' k)); cbn [existsb]; [| now apply IH].
  rewrite H1. now apply IH.
Qed.

Lemma hasKeyPair_delete_true c r keyName r' keyName' :
  Ec2.hasKeyPair c r keyName = true ->
  Ec2.hasKeyPair (Ec2.delete c r' keyName') r keyName = true
  \/ (r = r' /\ keyName = keyName').
Proof.
  rewrite !hasKeyPair_existsb. unfold Ec2.delete.
  induction c as [|k c IH]; cbn [filter existsb]; [discriminate |].
  intros H. apply orb_true_iff in H as [H | H].
  - destruct (Ec2.isKey r' keyName' k) eqn:E'; cbn [negb existsb].
    + right. unfold Ec2.isKey in H, E'.
      apply andb_true_iff in H as [H1 H2]. apply andb_true_iff in E' as [E1 E2].
      apply String.eqb_eq in H1, H2, E1, E2. split; congruence.
    + left. now rewrite H.
  - destruct (IH H) as [IH' | IH']; [| now right].
    left. destruct (negb (Ec2.isKey r' keyName' k)); cbn [existsb]; [| exact IH'].
    rewrite IH'. apply orb_true_r.
Qed.

Lemma hasKeyPair_delete_all_false l keyName' c r keyName :
  Ec2.hasKeyPair c r keyName = false ->
  Ec2.hasKeyPair (fold_left (fun c region => Ec2.delete c region keyName') l c)
                 r keyName = false.
Proof.
  revert c. induction l as [|r' l IH]; intros c H; cbn [fold_left]; [exact H |].
  apply IH. now apply hasKeyPair_delete_false.
Qed.

Lemma hasKeyPair_delete_all_true l keyName' c r keyName :
  Ec2.hasKeyPair c r keyName = true ->
  Ec2.hasKeyPair (fold_left (fun c region => Ec2.delete c region keyName') l c)
                 r keyName = true
  \/ (In r l /\ keyName = keyName').
Proof.
  revert c. induction l as [|r' l IH]; intros c H; cbn [fold_left]; [now left |].
  destruct (hasKeyPair_delete_true c r keyName r' keyName' H) as [H' | [-> ->]].
  - destruct (IH _ H') as [IH' | [IH' ->]]; [now left |].
    right. split; [now right | reflexivity].
  - right. split; [now left | reflexivity].
Qed.

(** [deleteKeyPair] of a non-empty name: it ends normally, touches only the
    cache of the manager, leaves the key pair in no region, creates no key
    pair, and removes a key pair only with a [deleteKeyPair] call. *)
Lemma deleteKeyPair_spec w workerName :
  workerName <> "" ->
  exists w1,
    deleteKeyPair w workerName = JS.Ok w1
    /\ (exists cache, manager w1 = setKnownKeyPairs (manager w) cache)
    /\ incl (sent w) (sent w1)
    /\ (forall r, In r (regions (manager w)) ->
          Ec2.hasKeyPair (keyPairs w1) r (keyNameOf (manager w) workerName) = false)
    /\ (forall r keyName,
          Ec2.hasKeyPair (keyPairs w) r keyName = false ->
          Ec2.hasKeyPair (keyPairs w1) r keyName = false)
    /\ (forall r keyName,
          Ec2.hasKeyPair (keyPairs w) r keyName = true ->
          Ec2.hasKeyPair (keyPairs w1) r keyName = true
          \/ In (Ec2.deleteKeyPair r keyName) (sent w1)).
Proof.
  intros Hname. unfold deleteKeyPair, assertName.
  assert (Ht : JS.truthy (Some workerName) = true).
  { cbn [JS.truthy]. apply negb_true_iff, String.eqb_neq, Hname. }
  rewrite Ht. cbn [JS.bind]. eexists. split; [reflexivity |].
  cbn [manager keyPairs sent].
  split; [eexists; reflexivity |]. split; [apply incl_appl, incl_refl |].
  split; [| split].
  - intros r Hr. rewrite hasKeyPair_delete_all.
    destruct (Ec2.hasKeyPair (keyPairs w) r (keyNameOf (manager w) workerName))
      eqn:Eh; [| reflexivity].
    cbn [andb]. apply negb_false_iff, includes_In, filter_In. auto.
  - intros r keyName H. now apply hasKeyPair_delete_all_false.
  - intros r keyName H.
    destruct (hasKeyPair_delete_all_true
                (filter (fun region =>
                           Ec2.hasKeyPair (keyPairs w) region
                             (keyNameOf (manager w) workerName))
                        (regions (manager w)))
                (keyNameOf (manager w) workerName) (keyPairs w) r keyName H)
      as [H' | [Hin ->]]; [now left |].
    right. apply in_or_app. right. right.
    apply in_map_iff. exists r. auto.
Qed.

(** ** The rouge killer *)

Section RougeKiller.

(** The manager the rouge killer starts from.  Along the way only its cache
    of key pairs changes. *)
Variable m : AwsManager.
Hypothesis Hregions : regionsKnown m.

Lemma sameFleet_setKnownKeyPairs w w1 :
  sameFleet m w ->
  (exists cache, manager w1 = setKnownKeyPairs (manager w) cache) ->
  sameFleet m w1.
Proof. intros (c & Hc) (c1 & Hc1). exists c1. rewrite Hc1, Hc. reflexivity. Qed.

(** The loop of [rougeKiller] over a list of non-empty names. *)
Lemma rougeKiller_loop names :
  (forall name, In name names -> name <> "") ->
  forall w,
    sameFleet m w ->
    exists w',
      JS.foldM
        (fun w name =>
           w <- deleteKeyPair w name ;;
           calls <- killByName (manager w) name None ;;
           JS.Ok {| manager := manager w;
                    keyPairs := keyPairs w;
                    sent := sent w ++ calls |})
        names w = JS.Ok w'
      /\ sameFleet m w'
      /\ incl (sent w) (sent w')
      /\ (forall r keyName,
            Ec2.hasKeyPair (keyPairs w) r keyName = false ->
            Ec2.hasKeyPair (keyPairs w') r keyName = false)
      /\ (forall r keyName,
            Ec2.hasKeyPair (keyPairs w) r keyName = true ->
            Ec2.hasKeyPair (keyPairs w') r keyName = true
            \/ In (Ec2.deleteKeyPair r keyName) (sent w'))
      /\ (forall name,
            In name names ->
            (forall r, In r (regions m) ->
               Ec2.hasKeyPair (keyPairs w') r (keyNameOf m name) = false)
            /\ exists calls,
                 killByName m name None = JS.Ok calls /\ incl calls (sent w')).
Proof.
  induction names as [|name names IH]; intros Hnames w Hsame; cbn [JS.foldM].
  - exists w. split; [reflexivity |]. split; [exact Hsame |].
    split; [apply incl_refl |]. split; [auto |]. split; [auto |]. intros name [].
  - destruct (deleteKeyPair_spec w name (Hnames name (or_introl eq_refl)))
      as (w1 & Hdel & Hman & Hsent1 & Hgone & Hfalse1 & Htrue1).
    rewrite Hdel. cbn [JS.bind].
    pose proof (sameFleet_setKnownKeyPairs w w1 Hsame Hman) as Hsame1.
    destruct Hsame as (cache & Hcache). destruct Hsame1 as (cache1 & Hcache1).
    destruct (killByName_spec m name None Hregions) as (calls & Hkill & _).
    assert (Hkill1 : killByName (manager w1) name None = JS.Ok calls).
    { rewrite Hcache1. exact Hkill. }
    rewrite Hkill1. cbn [JS.bind].
    set (w2 := {| manager := manager w1; keyPairs := keyPairs w1;
                  sent := sent w1 ++ calls |}).
    destruct (IH (fun n Hn => Hnames n (or_intror Hn)) w2)
      as (w' & Hfold & Hsame' & Hsent' & Hfalse' & Htrue' & Hall).
    { exists cache1. exact Hcache1. }
    exists w'. split; [exact Hfold |]. split; [exact Hsame' |].
    assert (Hsent2 : incl (sent w1) (sent w')).
    { eapply incl_tran; [| exact Hsent']. apply incl_appl, incl_refl. }
    split; [eapply incl_tran; eauto |]. split; [| split].
    + intros r keyName H. apply Hfalse'. cbn [w2 keyPairs]. now apply Hfalse1.
    + intros r keyName H. destruct (Htrue1 r keyName H) as [H1 | H1].
      * apply Htrue'. exact H1.
      * right. now apply Hsent2.
    + intros n [<- | Hn]; [| now apply Hall].
      split.
      * intros r Hr. apply Hfalse'. cbn [w2 keyPairs].
        replace (keyNameOf m name) with (keyNameOf (manager w) name)
          by (rewrite Hcache; reflexivity).
        apply Hgone. rewrite Hcache. exact Hr.
      * exists calls. split; [exact Hkill |].
        eapply incl_tran; [| exact Hsent']. apply incl_appr, incl_refl.
Qed.

End RougeKiller.



(** Settles a goal about each element of a list that is given in full. *)
Ltac each_element H tac :=
  simpl in H; repeat (destruct H as [<- | H]; [tac |]); destruct H.

Lemma legacyFleet_regionsKnown : regionsKnown (manager legacyFleet).
Proof.
  repeat split; intros x Hx; each_element Hx ltac:(simpl; tauto).
Qed.

Lemma legacyFleet_names name :
  observed (manager legacyFleet) name -> name <> "".
Proof.
  intros [(x & Hx & <-) | [(x & Hx & <-) | (x & Hx & <-)]];
    each_element Hx ltac:(discriminate).
Qed.


(** ** Classification *)

(** Every resource of a state built by [_classify] sits in one of the
    regions of the manager. *)
Lemma classify_regions m instanceState spotReqs state :
  _classify m instanceState spotReqs = JS.Ok state ->
  (forall instance, In instance (instances state) ->
     In (Instance.Region instance) (regions m))
  /\ (forall request, In request (requests state) ->
        In (SpotRequest.Region request) (regions m)).
Proof.
  unfold _classify.
  set (known s :=
         (forall instance, In instance (instances s) ->
            In (Instance.Region instance) (regions m))
         /\ (forall request, In request (requests s) ->
               In (SpotRequest.Region request) (regions m))).
  assert (H : forall l s,
             incl l (regions m) -> known s ->
             forall s',
               JS.foldM
                 (fun state region =>
                    match getKey region instanceState, getKey region spotReqs with
                    | Some Reservations, Some reqs =>
                        JS.Ok
                          {| instances :=
                               instances state ++
                               map (fun instance =>
                                      Instance.setRegionAndWorkerType region
                                        (stripPrefix (keyPrefix m)
                                           (Instance.KeyName instance))
                                        instance)
                                   (concat Reservations);
                             requests :=
                               requests state ++
                               map (fun request =>
                                      SpotRequest.setRegionAndWorkerType region
                                        (stripPrefix (keyPrefix m)
                                           (SpotRequest.KeyName request))
                                        request)
                                   reqs |}
                    | _, _ => JS.Throw (JS.TypeError "Cannot read property of undefined")
                    end) l s = JS.Ok s' ->
               known s').
  { induction l as [|region l IH]; intros s Hl Hs s'; cbn [JS.foldM].
    - intros [= <-]. exact Hs.
    - destruct (getKey region instanceState) as [Reservations|]; [| discriminate].
      destruct (getKey region spotReqs) as [reqs|]; [| discriminate].
      cbn [JS.bind]. apply IH.
      + intros r Hr. apply Hl. now right.
      + destruct Hs as [Hi Hr]. split; cbn [instances requests].
        * intros instance Hin. apply in_app_or in Hin as [Hin | Hin]; [now apply Hi |].
          apply in_map_iff in Hin as (x & <- & _). cbn. apply Hl. now left.
        * intros request Hin. apply in_app_or in Hin as [Hin | Hin]; [now apply Hr |].
          apply in_map_iff in Hin as (x & <- & _). cbn. apply Hl. now left. }
  apply H; [apply incl_refl |]. split; intros x [].
Qed.

(** The filter over [__awaitingStateReason] does compare ids: an instance
    whose reason shows up in the dead state is reported at the time it was
    first missed, and its entry is dropped. *)
Example awaited_state_reason_is_reported :
  _reconcileStateDifferences
    (setAwaiting (sampleManager emptyState emptyState []) []
       [{| id := "i-7"; time := 500; iterationCount := 3 |}])
    emptyState (noRequests bid041) emptyState 1000
  = (sampleManager emptyState emptyState [],
     [instanceTerminated "aws-provisioner-v1" "us-west-2" "us-west-2a" "m3.large"
        "builder" "i-7" (Some "sir-7") 500 0 16 "terminated"
        (Some "Server.SpotInstanceTermination")
        "Your Spot Instance was terminated."]).
Proof. reflexivity. Qed.

(** Scenario S2: of five bids in flight, three have become visible; the
    tracker keeps the other two, and the capacity still counts five. *)
Example three_of_five_visible :
  let m :=
    sampleManager
      {| instances := [];
         requests := [sampleRequest "sir-1" "us-west-2" "builder" "m3.large"
                        "open" "pending-evaluation" 0 "0.41";
                      sampleRequest "sir-2" "us-west-2" "builder" "m3.large"
                        "open" "pending-evaluation" 0 "0.41";
                      sampleRequest "sir-3" "us-west-2" "builder" "m3.large"
                        "open" "pending-evaluation" 0 "0.41"] |}
      emptyState
      (map (fun id => tracked (sampleTracked id "us-west-2" "builder" "m3.large" 0))
           ["sir-1"; "sir-2"; "sir-3"; "sir-4"; "sir-5"]) in
  let m' := fst (_reconcileInternalState m minute) in
  map requestIdOf (__internalState m') = ["sir-4"; "sir-5"]
  /\ capacityForType m' builder None = 5.
Proof. split; reflexivity. Qed.

(** Scenario S4 from the snapshots: the instance was in the previous state,
    is gone from the new one, and the dead state explains it. *)
Example departed_instance_is_found :
  _compareStates emptyState
    {| instances := [sampleInstance "i-7" "us-west-2" "builder" "m3.large"
                       "running" (Some "sir-7") None];
       requests := [] |}
    bid041
  = noRequests bid041.
Proof. reflexivity. Qed.

(** * Further properties *)

(** ** Queries by region and by worker type *)

Lemma filter_filter_and {A} (p q : A -> bool) l :
  filter q (filter p l) = filter (fun x => p x && q x) l.
Proof.
  induction l as [|x l IH]; cbn [filter]; [reflexivity |].
  destruct (p x); cbn [filter andb]; [destruct (q x) |]; now rewrite IH.
Qed.

(** X1: [instancesOfTypeInRegion] and [requestsOfTypeInRegion] return what
    the query by region returns, restricted to the worker types asked, in
    the order of state; a resource is returned exactly when the query by
    region and the query by worker type both return it. *)
Theorem queries_by_type_in_region m region workerType :
  instancesOfTypeInRegion m region workerType
  = filter (fun instance =>
              JS.includes (asArray workerType) (Instance.WorkerType instance))
           (instancesInRegion m region)
  /\ requestsOfTypeInRegion m region workerType
     = filter (fun request =>
                 JS.includes (asArray workerType) (SpotRequest.WorkerType request))
              (requestsInRegion m region)
  /\ (forall instance,
        In instance (instancesOfTypeInRegion m region workerType)
        <-> In instance (instancesInRegion m region)
            /\ In instance (instancesOfTypes m workerType))
  /\ (forall request,
        In request (requestsOfTypeInRegion m region workerType)
        <-> In request (requestsInRegion m region)
            /\ In request (requestsOfTypes m workerType)).
Proof.
  unfold instancesOfTypeInRegion, requestsOfTypeInRegion, instancesInRegion,
    requestsInRegion, instancesOfTypes, requestsOfTypes.
  rewrite !filter_filter_and.
  split; [reflexivity |]. split; [reflexivity |].
  split; intros x; rewrite !filter_In, andb_true_iff; tauto.
Qed.

Lemma count_of_unlisted_name l x :
  ~ In x l ->
  fold_right (fun r acc => ((if JS.includes [r] x then 1 else 0) + acc)%nat) 0%nat l
  = 0%nat.
Proof.
  induction l as [|r l IH]; intros Hx; [reflexivity |].
  cbn [fold_right]. rewrite includes_singleton.
  destruct (String.eqb x r) eqn:E.
  - apply String.eqb_eq in E. subst. exfalso. apply Hx. now left.
  - apply IH. intros H. apply Hx. now right.
Qed.

(** How many of the names of a list are the given one. *)
Lemma count_of_listed_name l x :
  NoDup l -> In x l ->
  fold_right (fun r acc => ((if JS.includes [r] x then 1 else 0) + acc)%nat) 0%nat l
  = 1%nat.
Proof.
  induction l as [|r l IH]; intros Hnd Hin; [destruct Hin |].
  cbn [fold_right]. rewrite includes_singleton. inversion Hnd as [|? ? Hr Hl]; subst.
  destruct Hin as [-> | Hin].
  - rewrite String.eqb_refl. now rewrite (count_of_unlisted_name l x Hr).
  - destruct (String.eqb x r) eqn:E.
    + apply String.eqb_eq in E. subst. contradiction.
    + now rewrite IH.
Qed.

Lemma lengths_by_key {A} (keyOf : A -> string) (keys : list string) (l : list A) :
  NoDup keys ->
  (forall x, In x l -> In (keyOf x) keys) ->
  fold_right
    (fun r acc =>
       (length (filter (fun x => JS.includes [r] (keyOf x)) l) + acc)%nat)
    0%nat keys
  = length l.
Proof.
  intros Hnd. induction l as [|x l IH]; intros Hin.
  - clear. induction keys as [|r keys IHk]; [reflexivity | simpl; exact IHk].
  - assert (E : forall keys',
               fold_right
                 (fun r acc =>
                    (length (filter (fun y => JS.includes [r] (keyOf y)) (x :: l))
                     + acc)%nat) 0%nat keys'
               = (fold_right
                    (fun r acc =>
                       ((if JS.includes [r] (keyOf x) then 1 else 0) + acc)%nat)
                    0%nat keys'
                  + fold_right
                      (fun r acc =>
                         (length (filter (fun y => JS.includes [r] (keyOf y)) l)
                          + acc)%nat) 0%nat keys')%nat).
    { induction keys' as [|r keys' IHk]; [reflexivity |].
      cbn [fold_right]. rewrite IHk. cbn [filter].
      destruct (JS.includes [r] (keyOf x)); cbn [length]; lia. }
    rewrite E, (count_of_listed_name keys (keyOf x) Hnd (Hin x (or_introl eq_refl))).
    rewrite IH; [reflexivity |]. intros y Hy. apply Hin. now right.
Qed.

(** X2: when the regions of the manager are distinct and every resource of
    the api state sits in one of them, the per-region queries partition the
    state: the lengths of [instancesInRegion(r)] over the regions add up to
    the number of instances, and likewise for the requests. *)
Theorem regions_partition_state m :
  NoDup (regions m) ->
  regionsKnown m ->
  fold_right (fun r acc => (length (instancesInRegion m (OneString r)) + acc)%nat)
             0%nat (regions m)
  = length (instances (__apiState m))
  /\ fold_right (fun r acc => (length (requestsInRegion m (OneString r)) + acc)%nat)
                0%nat (regions m)
     = length (requests (__apiState m)).
Proof.
  intros Hnd (Hinst & Hreq & _). split.
  - apply (lengths_by_key Instance.Region (regions m) _ Hnd Hinst).
  - apply (lengths_by_key SpotRequest.Region (regions m) _ Hnd Hreq).
Qed.

(** X2 on the fleet of scenario S5. *)
Lemma regions_partition_state_witness :
  fold_right
    (fun r acc =>
       (length (instancesInRegion (manager legacyFleet) (OneString r)) + acc)%nat)
    0%nat (regions (manager legacyFleet))
  = 2%nat
  /\ fold_right
       (fun r acc =>
          (length (requestsInRegion (manager legacyFleet) (OneString r)) + acc)%nat)
       0%nat (regions (manager legacyFleet))
     = length (requests (__apiState (manager legacyFleet))).
Proof.
  assert (Hnd : NoDup (regions (manager legacyFleet))).
  { repeat constructor; simpl; intuition discriminate. }
  destruct (regions_partition_state (manager legacyFleet) Hnd
              legacyFleet_regionsKnown) as [Hi Hr].
  split; [exact Hi | exact Hr].
Defined.

(** ** The names and ids known in state *)

Lemma pushIfMissing_NoDup workerTypes name :
  NoDup workerTypes -> NoDup (pushIfMissing workerTypes name).
Proof.
  intros H. unfold pushIfMissing. destruct (JS.includes workerTypes name) eqn:E.
  - exact H.
  - apply includes_not_In in E. apply NoDup_app; [exact H | repeat constructor; auto |].
    intros x Hx [<- | []]. contradiction.
Qed.

Lemma pushIfMissing_loop_NoDup {A} (nameOf : A -> string) l acc :
  NoDup acc -> NoDup (fold_left (fun acc e => pushIfMissing acc (nameOf e)) l acc).
Proof.
  revert acc. induction l as [|e l IH]; intros acc H; cbn [fold_left]; [exact H |].
  apply IH. now apply pushIfMissing_NoDup.
Qed.

(** X3: [knownWorkerTypes] lists every worker type that an instance, a
    request or an in-flight entry carries, lists nothing else, and lists no
    name twice. *)
Theorem knownWorkerTypes_exact m :
  NoDup (knownWorkerTypes m)
  /\ forall name, In name (knownWorkerTypes m) <-> observed m name.
Proof.
  split; [| intros name; apply knownWorkerTypes_spec].
  unfold knownWorkerTypes. repeat apply pushIfMissing_loop_NoDup. constructor.
Qed.

(** X4: [knownSpotInstanceRequestIds] holds an id exactly when it is the id
    of a request of the api state, or the non-empty spot request id of one
    of its instances; the ids of the requests come first, in the order of
    state. *)
Theorem knownSpotInstanceRequestIds_exact m :
  (forall id,
     In id (knownSpotInstanceRequestIds m)
     <-> In id (map SpotRequest.SpotInstanceRequestId (requests (__apiState m)))
         \/ exists instance,
              In instance (instances (__apiState m))
              /\ Instance.SpotInstanceRequestId instance = Some id
              /\ id <> "")
  /\ exists fromInstances,
       knownSpotInstanceRequestIds m
       = map SpotRequest.SpotInstanceRequestId (requests (__apiState m))
         ++ fromInstances.
Proof.
  split.
  - intros id. rewrite knownSpotInstanceRequestIds_spec. cbn [JS.truthy].
    split; (intros [H | (i & Hi & Hs & Ht)]; [now left | right; exists i]);
      repeat split; auto.
    + apply String.eqb_neq, negb_true_iff, Ht.
    + apply negb_true_iff, String.eqb_neq, Ht.
  - unfold knownSpotInstanceRequestIds.
    generalize (map SpotRequest.SpotInstanceRequestId (requests (__apiState m))).
    induction (instances (__apiState m)) as [|i l IH]; intros acc; cbn [fold_left].
    + exists []. now rewrite app_nil_r.
    + destruct (Instance.SpotInstanceRequestId i) as [sird|]; [| apply IH].
      destruct (JS.truthy (Some sird) && negb (JS.includes acc sird)); [| apply IH].
      destruct (IH (acc ++ [sird])) as (rest & ->).
      exists (sird :: rest). now rewrite <- app_assoc.
Qed.

(** ** Classification *)

Lemma substring_whole s : String.substring 0 (String.length s) s = s.
Proof. induction s as [|c s IH]; cbn; [reflexivity | now rewrite IH]. Qed.

Lemma stripPrefix_append keyPrefix name :
  stripPrefix keyPrefix (String.append keyPrefix name) = name.
Proof.
  unfold stripPrefix. induction keyPrefix as [|c p IH]; cbn.
  - rewrite Nat.sub_0_r. apply substring_whole.
  - exact IH.
Qed.

(** The state [_classify] builds, region after region. *)
Lemma classify_from m instanceState spotReqs l s state :
  JS.foldM
    (fun state region =>
       match getKey region instanceState, getKey region spotReqs with
       | Some Reservations, Some reqs =>
           JS.Ok
             {| instances :=
                  instances state ++
                  map (fun instance =>
                         Instance.setRegionAndWorkerType region
                           (stripPrefix (keyPrefix m) (Instance.KeyName instance))
                           instance)
                      (concat Reservations);
                requests :=
                  requests state ++
                  map (fun request =>
                         SpotRequest.setRegionAndWorkerType region
                           (stripPrefix (keyPrefix m) (SpotRequest.KeyName request))
                           request)
                      reqs |}
       | _, _ => JS.Throw (JS.TypeError "Cannot read property of undefined")
       end) l s = JS.Ok state ->
  (forall region, In region l ->
     exists Reservations reqs,
       getKey region instanceState = Some Reservations
       /\ getKey region spotReqs = Some reqs)
  /\ instances state
     = instances s ++
       flat_map (fun region =>
                   match getKey region instanceState with
                   | Some Reservations =>
                       map (classifyInstance m region) (concat Reservations)
                   | None => []
                   end) l
  /\ requests state
     = requests s ++
       flat_map (fun region =>
                   match getKey region spotReqs with
                   | Some reqs => map (classifyRequest m region) reqs
                   | None => []
                   end) l.
Proof.
  revert s. induction l as [|region l IH]; intros s; cbn [JS.foldM flat_map].
  - intros [= <-]. rewrite !app_nil_r. split; [intros r [] | split; reflexivity].
  - destruct (getKey region instanceState) as [Reservations|] eqn:Ei; [| discriminate].
    destruct (getKey region spotReqs) as [reqs|] eqn:Er; [| discriminate].
    cbn [JS.bind]. intros H. apply IH in H as (Hkeys & Hi & Hr).
    cbn [instances requests] in Hi, Hr. split; [| split].
    + intros r [<- | Hin]; [eauto | now apply Hkeys].
    + rewrite Hi, <- app_assoc. reflexivity.
    + rewrite Hr, <- app_assoc. reflexivity.
Qed.

(** X5: when [_classify] returns, every region of the manager was present
    in both answers; the instances of the state are exactly the instances of
    the reservations of those regions, and its requests exactly their
    requests, each with its region and with the worker type that its key
    name gives once the key prefix is cut off.  In particular a resource
    launched with the key pair name of worker type [w] is classified under
    [w]. *)
Theorem classify_exact m instanceState spotReqs state :
  _classify m instanceState spotReqs = JS.Ok state ->
  (forall region, In region (regions m) ->
     exists Reservations reqs,
       getKey region instanceState = Some Reservations
       /\ getKey region spotReqs = Some reqs)
  /\ (forall classified,
        In classified (instances state)
        <-> exists region Reservations reservation instance,
              In region (regions m)
              /\ getKey region instanceState = Some Reservations
              /\ In reservation Reservations
              /\ In instance reservation
              /\ classified = classifyInstance m region instance)
  /\ (forall classified,
        In classified (requests state)
        <-> exists region reqs request,
              In region (regions m)
              /\ getKey region spotReqs = Some reqs
              /\ In request reqs
              /\ classified = classifyRequest m region request)
  /\ (forall region w instance,
        Instance.KeyName instance = keyNameOf m w ->
        Instance.WorkerType (classifyInstance m region instance) = w)
  /\ (forall region w request,
        SpotRequest.KeyName request = keyNameOf m w ->
        SpotRequest.WorkerType (classifyRequest m region request) = w).
Proof.
  unfold _classify. intros H.
  apply classify_from in H as (Hkeys & Hi & Hr). cbn [instances requests app] in Hi, Hr.
  split; [exact Hkeys |]. split; [| split; [| split]].
  - intros classified. rewrite Hi, in_flat_map. split.
    + intros (region & Hregion & Hin).
      destruct (getKey region instanceState) as [Reservations|] eqn:E; [| destruct Hin].
      apply in_map_iff in Hin as (instance & <- & Hin).
      apply in_concat in Hin as (reservation & Hres & Hin).
      exists region, Reservations, reservation, instance. auto.
    + intros (region & Reservations & reservation & instance
              & Hregion & E & Hres & Hin & ->).
      exists region. split; [exact Hregion |]. rewrite E.
      apply in_map, in_concat. eauto.
  - intros classified. rewrite Hr, in_flat_map. split.
    + intros (region & Hregion & Hin).
      destruct (getKey region spotReqs) as [reqs|] eqn:E; [| destruct Hin].
      apply in_map_iff in Hin as (request & <- & Hin).
      exists region, reqs, request. auto.
    + intros (region & reqs & request & Hregion & E & Hin & ->).
      exists region. split; [exact Hregion |]. rewrite E. now apply in_map.
  - intros region w instance Hkey. cbn. rewrite Hkey. apply stripPrefix_append.
  - intros region w request Hkey. cbn. rewrite Hkey. apply stripPrefix_append.
Qed.

(** X5 on the answers of one update. *)
Lemma classify_exact_witness :
  exists state,
    _classify beforeUpdate (livingInstances described)
      [("us-west-2", [freshRequest]); ("us-east-1", [])] = JS.Ok state
    /\ map Instance.InstanceId (instances state) = ["i-1"]
    /\ map SpotRequest.Region (requests state) = ["us-west-2"]
    /\ forall classified,
         In classified (requests state)
         <-> exists region reqs request,
               In region (regions beforeUpdate)
               /\ getKey region [("us-west-2", [freshRequest]); ("us-east-1", [])]
                  = Some reqs
               /\ In request reqs
               /\ classified = classifyRequest beforeUpdate region request.
Proof.
  eexists. split; [reflexivity |]. split; [reflexivity |]. split; [reflexivity |].
  apply (classify_exact beforeUpdate (livingInstances described)
           [("us-west-2", [freshRequest]); ("us-east-1", [])]).
  reflexivity.
Defined.

(** X6: [_classify] raises a [TypeError] when a region of the manager is
    missing from the described instances or from the described requests. *)
Theorem classify_raises_on_missing_region m instanceState spotReqs region :
  In region (regions m) ->
  getKey region instanceState = None \/ getKey region spotReqs = None ->
  exists message,
    _classify m instanceState spotReqs = JS.Throw (JS.TypeError message).
Proof.
  unfold _classify. intros Hin Hmissing.
  generalize {| instances := []; requests := [] |}.
  induction (regions m) as [|r l IH]; intros s; [destruct Hin |].
  cbn [JS.foldM].
  destruct (getKey r instanceState) as [Reservations|] eqn:Ei.
  - destruct (getKey r spotReqs) as [reqs|] eqn:Er.
    + cbn [JS.bind]. destruct Hin as [-> | Hin]; [| now apply IH].
      destruct Hmissing; congruence.
    + cbn [JS.bind]. eauto.
  - cbn [JS.bind]. eauto.
Qed.

(** X6 on a manager of two regions and answers for one. *)
Lemma classify_raises_on_missing_region_witness :
  exists message,
    _classify beforeUpdate [("us-west-2", [])] [("us-west-2", [])]
    = JS.Throw (JS.TypeError message).
Proof.
  apply (classify_raises_on_missing_region beforeUpdate
           [("us-west-2", [])] [("us-west-2", [])] "us-east-1").
  - simpl. tauto.
  - left. reflexivity.
Defined.

(** ** Differences between two states *)

(** X7: [_compareStates] returns exactly the instances of the dead state
    whose id was the id of an instance of the previous state and is the id
    of no instance of the new state, and exactly the requests of the dead
    state of which the same holds; a resource that left the new state
    without showing in the dead state is not returned. *)
Theorem compareStates_exact newState previousState deadState :
  (forall instance,
     In instance (instances (_compareStates newState previousState deadState))
     <-> In instance (instances deadState)
         /\ In (Instance.InstanceId instance)
               (map Instance.InstanceId (instances previousState))
         /\ ~ In (Instance.InstanceId instance)
                 (map Instance.InstanceId (instances newState)))
  /\ (forall request,
        In request (requests (_compareStates newState previousState deadState))
        <-> In request (requests deadState)
            /\ In (SpotRequest.SpotInstanceRequestId request)
                  (map SpotRequest.SpotInstanceRequestId (requests previousState))
            /\ ~ In (SpotRequest.SpotInstanceRequestId request)
                    (map SpotRequest.SpotInstanceRequestId (requests newState))).
Proof.
  unfold _compareStates. cbn [instances requests].
  split; intros x;
    rewrite filter_In, includes_In, filter_In, negb_true_iff, includes_not_In;
    tauto.
Qed.

Lemma filter_nothing {A} (p : A -> bool) l :
  (forall x, In x l -> p x = false) -> filter p l = [].
Proof.
  induction l as [|x l IH]; intros H; cbn [filter]; [reflexivity |].
  rewrite (H x (or_introl eq_refl)). apply IH. intros y Hy. apply H. now right.
Qed.

(** X8: when every id of the previous state is still an id of the new
    state, nothing has departed: [_compareStates] returns no instance and no
    request, whatever the dead state holds. *)
Theorem compareStates_nothing_departed newState previousState deadState :
  incl (map Instance.InstanceId (instances previousState))
       (map Instance.InstanceId (instances newState)) ->
  incl (map SpotRequest.SpotInstanceRequestId (requests previousState))
       (map SpotRequest.SpotInstanceRequestId (requests newState)) ->
  _compareStates newState previousState deadState
  = {| instances := []; requests := [] |}.
Proof.
  intros Hi Hr. unfold _compareStates.
  rewrite (filter_nothing _ (map Instance.InstanceId (instances previousState))),
          (filter_nothing _ (map SpotRequest.SpotInstanceRequestId
                               (requests previousState))).
  - rewrite !filter_nothing; [reflexivity | |]; intros x _; reflexivity.
  - intros id Hid. apply negb_false_iff, includes_In, Hr, Hid.
  - intros id Hid. apply negb_false_iff, includes_In, Hi, Hid.
Qed.

(** X8 on a state compared with itself. *)
Lemma compareStates_nothing_departed_witness :
  _compareStates visibleState visibleState bid041
  = {| instances := []; requests := [] |}.
Proof.
  apply (compareStates_nothing_departed visibleState visibleState bid041);
    apply incl_refl.
Defined.

(** ** Reconciling the differences *)

Section ReconcileFacts.

Variable that : AwsManager.
Variables deadState apiState : ApiState.
Variable now : Z.

(** The four steps of [_reconcileStateDifferences], one after the other. *)
Lemma reconcileStateDifferences_steps differences :
  reconcileStateDifferences that deadState apiState now differences
  = let departedRequests :=
      fold_left (departedRequest that now) (requests differences)
                (__awaitingSpotFulfilmentStatus that, []) in
    let sweptRequests :=
      sweep (awaitingSpotRequest that deadState) (fst departedRequests) in
    let departedInstances :=
      fold_left (departedInstance that deadState apiState now)
                (instances differences) (__awaitingStateReason that, []) in
    let sweptInstances :=
      sweep (awaitingInstance that deadState apiState now) (fst departedInstances) in
    (fst sweptRequests, fst sweptInstances,
     snd departedRequests ++ snd sweptRequests
       ++ snd departedInstances ++ snd sweptInstances).
Proof.
  unfold reconcileStateDifferences.
  destruct (fold_left (departedRequest that now) (requests differences)
              (__awaitingSpotFulfilmentStatus that, [])) as [a1 p1].
  cbn [fst snd]. destruct (sweep (awaitingSpotRequest that deadState) a1) as [a2 p2].
  destruct (fold_left (departedInstance that deadState apiState now)
              (instances differences) (__awaitingStateReason that, [])) as [a3 p3].
  cbn [fst snd].
  destruct (sweep (awaitingInstance that deadState apiState now) a3) as [a4 p4].
  reflexivity.
Qed.

(** What the loop over the departed requests has collected: the entries and
    points it started from, then one entry or one point per request. *)
Lemma departedRequest_loop l awaiting reports :
  let outcome := fold_left (departedRequest that now) l (awaiting, reports) in
  (forall a, In a awaiting -> In a (fst outcome))
  /\ (forall p, In p reports -> In p (snd outcome))
  /\ forall request,
       In request l ->
       if isFulfilled request
       then In (plotSpotFulfilment that request) (snd outcome)
       else if String.eqb (SpotRequest.State request) "open"
       then In {| id := SpotRequest.SpotInstanceRequestId request;
                  time := now;
                  iterationCount := 0 |} (fst outcome)
       else In (diedPoint that request) (snd outcome).
Proof.
  revert awaiting reports. induction l as [|x l IH]; intros awaiting reports;
    cbn [fold_left].
  - cbn [fst snd]. repeat split; auto. intros request [].
  - set (next := departedRequest that now (awaiting, reports) x).
    assert (Hnext : (forall a, In a awaiting -> In a (fst next))
                    /\ (forall p, In p reports -> In p (snd next))
                    /\ (if isFulfilled x
                        then In (plotSpotFulfilment that x) (snd next)
                        else if String.eqb (SpotRequest.State x) "open"
                        then In {| id := SpotRequest.SpotInstanceRequestId x;
                                   time := now;
                                   iterationCount := 0 |} (fst next)
                        else In (diedPoint that x) (snd next))).
    { subst next. unfold departedRequest.
      destruct (isFulfilled x); [| destruct (String.eqb (SpotRequest.State x) "open")];
        cbn [fst snd]; repeat split; intros; rewrite ?in_app_iff; cbn [In]; auto. }
    destruct next as [awaiting' reports']. cbn [fst snd] in Hnext.
    destruct Hnext as (Ha & Hp & Hx).
    destruct (IH awaiting' reports') as (IHa & IHp & IHl).
    split; [auto |]. split; [auto |].
    intros request [<- | Hin]; [| now apply IHl].
    destruct (isFulfilled x); [now apply IHp |].
    destruct (String.eqb (SpotRequest.State x) "open"); [now apply IHa | now apply IHp].
Qed.

(** An entry that the predicate of a sweep keeps is in the swept list, as
    the predicate left it. *)
Lemma sweep_keeps pred l a :
  In a l -> fst (fst (pred a)) = true -> In (snd (fst (pred a))) (fst (sweep pred l)).
Proof.
  induction l as [|x l IH]; intros Hin Hkeep; [destruct Hin |].
  rewrite sweep_cons. cbn [fst]. apply in_or_app.
  destruct Hin as [-> | Hin]; [left; rewrite Hkeep; now left | right; auto].
Qed.

(** An entry of the swept list comes from an entry that the predicate
    kept. *)
Lemma sweep_kept_from pred l a' :
  In a' (fst (sweep pred l)) ->
  exists a, In a l /\ fst (fst (pred a)) = true /\ a' = snd (fst (pred a)).
Proof.
  induction l as [|x l IH]; [intros [] |].
  rewrite sweep_cons. cbn [fst]. rewrite in_app_iff. intros [H | H].
  - destruct (fst (fst (pred x))) eqn:E; [| destruct H].
    destruct H as [<- | []]. exists x. split; [now left | auto].
  - destruct (IH H) as (a & Ha & Hk & Heq). exists a. split; [now right | auto].
Qed.

(** The points of a sweep hold the points of each of its entries. *)
Lemma sweep_points pred l a p :
  In a l -> In p (snd (pred a)) -> In p (snd (sweep pred l)).
Proof.
  induction l as [|x l IH]; intros Hin Hp; [destruct Hin |].
  rewrite sweep_cons. cbn [snd]. apply in_or_app.
  destruct Hin as [-> | Hin]; [now left | right; auto].
Qed.

End ReconcileFacts.

Lemma reconcileStateDifferences_lists m differences deadState apiState now :
  __awaitingSpotFulfilmentStatus
    (fst (_reconcileStateDifferences m differences deadState apiState now))
  = fst (fst (reconcileStateDifferences m deadState apiState now differences))
  /\ __awaitingStateReason
       (fst (_reconcileStateDifferences m differences deadState apiState now))
     = snd (fst (reconcileStateDifferences m deadState apiState now differences)).
Proof.
  unfold _reconcileStateDifferences.
  destruct (reconcileStateDifferences m deadState apiState now differences)
    as [[awaitingSpot awaitingReason] reports].
  split; reflexivity.
Qed.

(** X9: every departed request has one of three outcomes.  One that is
    active and fulfilled is reported as fulfilled; one that the dead state
    shows open is put on the list of requests awaiting their status, where
    it stands with a count of 1 after the sweep of the same call; any other
    is reported as died, with its state, its status code and its bid. *)
Theorem departed_request_outcome m differences deadState apiState now request :
  In request (requests differences) ->
  let outcome := _reconcileStateDifferences m differences deadState apiState now in
  if isFulfilled request
  then In (plotSpotFulfilment m request) (snd outcome)
  else if String.eqb (SpotRequest.State request) "open"
  then In {| id := SpotRequest.SpotInstanceRequestId request;
             time := now;
             iterationCount := 1 |}
          (__awaitingSpotFulfilmentStatus (fst outcome))
  else In (diedPoint m request) (snd outcome).
Proof.
  intros Hin outcome. subst outcome.
  rewrite reconcileStateDifferences_points.
  rewrite (proj1 (reconcileStateDifferences_lists m differences deadState apiState now)).
  rewrite reconcileStateDifferences_steps. cbn zeta. cbn [fst snd].
  destruct (departedRequest_loop m now (requests differences)
              (__awaitingSpotFulfilmentStatus m) []) as (_ & _ & Hl).
  specialize (Hl request Hin).
  destruct (isFulfilled request); [apply in_or_app; now left |].
  destruct (String.eqb (SpotRequest.State request) "open");
    [| apply in_or_app; now left].
  pose proof (sweep_keeps (awaitingSpotRequest m deadState) _ _ Hl) as Hkept.
  rewrite awaitingSpotRequest_never_resolves in Hkept. apply Hkept. reflexivity.
Qed.

(** X9 on three departed requests. *)
Lemma departed_request_outcome_witness :
  snd (_reconcileStateDifferences (sampleManager emptyState emptyState [])
         threeDeparted threeDeparted emptyState 1000)
  = [ spotRequestsFulfilled "aws-provisioner-v1" "us-west-2" "us-west-2a"
        "m3.large" "builder" "sir-f" None 0;
      spotRequestsDied "aws-provisioner-v1" "us-west-2" "us-west-2a" "m3.large"
        "builder" "sir-c" 0 (JS.Num (41 # 100)) "cancelled"
        "canceled-before-fulfillment" "" ]
  /\ In {| id := "sir-o"; time := 1000; iterationCount := 1 |}
        (__awaitingSpotFulfilmentStatus
           (fst (_reconcileStateDifferences (sampleManager emptyState emptyState [])
                   threeDeparted threeDeparted emptyState 1000))).
Proof.
  split; [reflexivity |].
  apply (departed_request_outcome (sampleManager emptyState emptyState [])
           threeDeparted threeDeparted emptyState 1000
           (sampleRequest "sir-o" "us-west-2" "builder" "m3.large"
              "open" "pending-fulfillment" 0 "0.41")).
  right. now left.
Defined.

(** An entry that either filter keeps was not outlived, and leaves with its
    count incremented. *)
Lemma awaitingSpotRequest_kept that deadState a :
  fst (fst (awaitingSpotRequest that deadState a)) = true -> outlived a = false.
Proof.
  rewrite awaitingSpotRequest_never_resolves. cbn [fst].
  now destruct (outlived a).
Qed.

Lemma awaitingInstance_shape that deadState apiState now a :
  snd (fst (awaitingInstance that deadState apiState now a)) = incremented a
  /\ (fst (fst (awaitingInstance that deadState apiState now a)) = true ->
      outlived a = false).
Proof.
  unfold awaitingInstance.
  destruct (fold_left _ (instances deadState) (true, [])) as [keep reports].
  cbn [fst snd]. split; [reflexivity |]. now destruct (outlived a).
Qed.

(** A sweep in which nothing departs drops the entries whose count exceeds
    20 and adds 1 to the count of those it keeps. *)
Lemma quietSweep_counts k m seen :
  countsFrom k m ->
  countsFrom (k + 1) (quietSweep m seen)
  /\ (forall a, In a (__awaitingSpotFulfilmentStatus (quietSweep m seen)) ->
        iterationCount a <= 21)
  /\ (forall a, In a (__awaitingStateReason (quietSweep m seen)) ->
        iterationCount a <= 21).
Proof.
  intros [Hs Hr]. unfold quietSweep.
  destruct (reconcileStateDifferences_lists m emptyState (fst (fst seen))
              (snd (fst seen)) (snd seen)) as [Es Er].
  assert (Hspot : forall a,
             In a (__awaitingSpotFulfilmentStatus
                     (fst (_reconcileStateDifferences m emptyState (fst (fst seen))
                             (snd (fst seen)) (snd seen)))) ->
             k + 1 <= iterationCount a <= 21).
  { intros a. rewrite Es, reconcileStateDifferences_steps. cbn zeta. cbn [fst snd].
    cbn [requests emptyState fold_left fst]. intros Ha.
    apply sweep_kept_from in Ha as (a0 & Ha0 & Hk & ->).
    pose proof (awaitingSpotRequest_kept _ _ _ Hk) as Hout.
    rewrite awaitingSpotRequest_never_resolves. cbn [fst snd incremented iterationCount].
    unfold outlived, MAX_ITERATIONS_FOR_STATE_RESOLUTION in Hout.
    specialize (Hs a0 Ha0). lia. }
  assert (Hreason : forall a,
             In a (__awaitingStateReason
                     (fst (_reconcileStateDifferences m emptyState (fst (fst seen))
                             (snd (fst seen)) (snd seen)))) ->
             k + 1 <= iterationCount a <= 21).
  { intros a. rewrite Er, reconcileStateDifferences_steps. cbn zeta. cbn [fst snd].
    cbn [instances emptyState fold_left fst]. intros Ha.
    apply sweep_kept_from in Ha as (a0 & Ha0 & Hk & ->).
    destruct (awaitingInstance_shape m (fst (fst seen)) (snd (fst seen)) (snd seen) a0)
      as [-> Hout].
    specialize (Hout Hk). cbn [incremented iterationCount].
    unfold outlived, MAX_ITERATIONS_FOR_STATE_RESOLUTION in Hout.
    specialize (Hr a0 Ha0). lia. }
  repeat split; intros a Ha;
    first [apply (Hspot a Ha) | apply (Hreason a Ha)].
Qed.

Lemma quietSweeps_counts l k m :
  countsFrom k m ->
  countsFrom (k + Z.of_nat (length l)) (quietSweeps l m)
  /\ (l <> [] ->
      (forall a, In a (__awaitingSpotFulfilmentStatus (quietSweeps l m)) ->
         iterationCount a <= 21)
      /\ (forall a, In a (__awaitingStateReason (quietSweeps l m)) ->
            iterationCount a <= 21)).
Proof.
  revert k m. induction l as [|seen l IH] using rev_ind; intros k m Hk.
  - cbn. rewrite Z.add_0_r. split; [exact Hk | congruence].
  - unfold quietSweeps. rewrite fold_left_app. cbn [fold_left].
    fold (quietSweeps l m).
    destruct (IH k m Hk) as [Hcount _].
    destruct (quietSweep_counts _ (quietSweeps l m) seen Hcount)
      as (Hnext & Hs & Hr).
    rewrite length_app. cbn [length]. split; [| auto].
    replace (k + Z.of_nat (length l + 1)) with (k + Z.of_nat (length l) + 1) by lia.
    exact Hnext.
Qed.

Lemma no_element_nil {A} (l : list A) : (forall x, ~ In x l) -> l = [].
Proof.
  destruct l as [|x l]; [reflexivity |]. intros H. destruct (H x). now left.
Qed.

(** X10: no entry is awaited for ever.  Whatever the dead states show,
    after 22 reconciliations in which nothing new departs both lists of
    awaited resources are empty, provided the counts they start with are
    not negative (an entry is created with a count of 0). *)
Theorem awaited_entries_are_dropped_after_22_sweeps m seen :
  (forall a, In a (__awaitingSpotFulfilmentStatus m) -> 0 <= iterationCount a) ->
  (forall a, In a (__awaitingStateReason m) -> 0 <= iterationCount a) ->
  (22 <= length seen)%nat ->
  __awaitingSpotFulfilmentStatus (quietSweeps seen m) = []
  /\ __awaitingStateReason (quietSweeps seen m) = [].
Proof.
  intros Hs Hr Hlen.
  destruct (quietSweeps_counts seen 0 m (conj Hs Hr)) as [[Hs' Hr'] Hmax].
  destruct Hmax as [Hs21 Hr21]; [intros ->; cbn in Hlen; lia |].
  split; apply no_element_nil; intros a Ha.
  - specialize (Hs' a Ha). specialize (Hs21 a Ha). lia.
  - specialize (Hr' a Ha). specialize (Hr21 a Ha). lia.
Qed.

(** X10 on the two entries left by a sweep in which an instance and a
    request departed unexplained. *)
Lemma awaited_entries_are_dropped_after_22_sweeps_witness :
  __awaitingStateReason firstSweep
  = [{| id := "i-1"; time := 0; iterationCount := 1 |}]
  /\ __awaitingSpotFulfilmentStatus
       (quietSweeps (repeat (unexplained, emptyState, 0) 22) firstSweep) = []
  /\ __awaitingStateReason
       (quietSweeps (repeat (unexplained, emptyState, 0) 22) firstSweep) = [].
Proof.
  split; [reflexivity |].
  apply (awaited_entries_are_dropped_after_22_sweeps firstSweep
           (repeat (unexplained, emptyState, 0) 22)).
  - intros a [<- | []]. cbn. lia.
  - intros a [<- | []]. cbn. lia.
  - cbn. lia.
Defined.

Section AwaitedInstance.

Variable that : AwsManager.
Variables deadState apiState : ApiState.
Variable now : Z.
Variable instanceAwaiting : Awaiting.

(** The loop of the filter over the dead instances: once the flag is down
    it stays down, the points only grow, and a dead instance with the id of
    the entry and a state reason puts the flag down and is reported at the
    time of the entry. *)
Lemma awaitingInstance_loop l keep reports :
  let outcome :=
    fold_left
      (fun '(keep, points) instanceMightHave =>
         if String.eqb (Instance.InstanceId instanceMightHave) (id instanceAwaiting)
         then
           match hasStateReason instanceMightHave with
           | Some reason =>
               (false,
                points ++ plotInstanceDeath that deadState apiState now
                            instanceMightHave reason (time instanceAwaiting))
           | None => (keep, points)
           end
         else (keep, points))
      l (keep, reports) in
  (keep = false -> fst outcome = false)
  /\ (forall p, In p reports -> In p (snd outcome))
  /\ (forall instance reason,
        In instance l ->
        Instance.InstanceId instance = id instanceAwaiting ->
        hasStateReason instance = Some reason ->
        fst outcome = false
        /\ forall p,
             In p (plotInstanceDeath that deadState apiState now instance reason
                     (time instanceAwaiting)) ->
             In p (snd outcome))
  /\ (fst outcome = false ->
      keep = false
      \/ exists instance reason,
           In instance l
           /\ Instance.InstanceId instance = id instanceAwaiting
           /\ hasStateReason instance = Some reason).
Proof.
  revert keep reports. induction l as [|x l IH]; intros keep reports;
    cbn [fold_left].
  - cbn [fst snd]. split; [auto |]. split; [auto |]. split; [| auto].
    intros instance reason [].
  - destruct (String.eqb (Instance.InstanceId x) (id instanceAwaiting)) eqn:Eid.
    + destruct (hasStateReason x) as [reason|] eqn:Er.
      * destruct (IH false
                    (reports ++ plotInstanceDeath that deadState apiState now x
                                  reason (time instanceAwaiting)))
          as (Hdown & Hgrow & Hall & Hback).
        split; [auto |]. split; [intros p Hp; apply Hgrow, in_or_app; now left |].
        split.
        -- intros instance reason' [<- | Hin] Hi Hr; [| now apply Hall].
           split; [auto |]. intros p Hp. apply Hgrow, in_or_app. right.
           congruence.
        -- intros _. right. exists x, reason. split; [now left |].
           split; [now apply String.eqb_eq | exact Er].
      * destruct (IH keep reports) as (Hdown & Hgrow & Hall & Hback).
        split; [exact Hdown |]. split; [exact Hgrow |]. split.
        -- intros instance reason [<- | Hin] Hi Hr; [congruence | now apply Hall].
        -- intros H. destruct (Hback H) as [Hk | (i & r & Hi & Hid & Hr)]; [now left |].
           right. exists i, r. split; [now right | auto].
    + destruct (IH keep reports) as (Hdown & Hgrow & Hall & Hback).
      split; [exact Hdown |]. split; [exact Hgrow |]. split.
      * intros instance reason [<- | Hin] Hi Hr; [| now apply Hall].
        apply String.eqb_neq in Eid. contradiction.
      * intros H. destruct (Hback H) as [Hk | (i & r & Hi & Hid & Hr)]; [now left |].
        right. exists i, r. split; [now right | auto].
Qed.

End AwaitedInstance.

Lemma departedInstance_keeps_awaiting that deadState apiState now l awaiting reports a :
  In a awaiting ->
  In a (fst (fold_left (departedInstance that deadState apiState now) l
               (awaiting, reports))).
Proof.
  revert awaiting reports. induction l as [|x l IH]; intros awaiting reports Ha;
    cbn [fold_left]; [exact Ha |].
  unfold departedInstance at 2. destruct (hasStateReason x); apply IH;
    [exact Ha | apply in_or_app; now left].
Qed.

(** X11: an instance awaiting its state reason is resolved when the dead
    state shows an instance of its id with a reason: what
    [plotInstanceDeath] reports for that instance is reported at the time
    the entry was made, and after the call no entry of that id is left on
    the list. *)
Theorem awaited_instance_is_resolved
    m differences deadState apiState now awaiting instance reason :
  In awaiting (__awaitingStateReason m) ->
  In instance (instances deadState) ->
  Instance.InstanceId instance = id awaiting ->
  hasStateReason instance = Some reason ->
  let outcome := _reconcileStateDifferences m differences deadState apiState now in
  (forall p,
     In p (plotInstanceDeath m deadState apiState now instance reason (time awaiting)) ->
     In p (snd outcome))
  /\ (forall left, In left (__awaitingStateReason (fst outcome)) ->
        id left <> id awaiting).
Proof.
  intros Hawait Hdead Hid Hreason outcome. subst outcome.
  rewrite reconcileStateDifferences_points.
  rewrite (proj2 (reconcileStateDifferences_lists m differences deadState apiState now)).
  rewrite reconcileStateDifferences_steps. cbn zeta. cbn [fst snd].
  split.
  - intros p Hp. rewrite !in_app_iff. right. right. right.
    apply (sweep_points (awaitingInstance m deadState apiState now) _ awaiting).
    + now apply departedInstance_keeps_awaiting.
    + unfold awaitingInstance.
      destruct (awaitingInstance_loop m deadState apiState now awaiting
                  (instances deadState) true [])
        as (_ & _ & Hall & _).
      destruct (Hall instance reason Hdead Hid Hreason) as [_ Hpoints].
      destruct (fold_left _ (instances deadState) (true, [])) as [keep reports].
      cbn [fst snd] in *. now apply Hpoints.
  - intros left Hleft Hsame.
    apply sweep_kept_from in Hleft as (a0 & _ & Hkeep & ->).
    destruct (awaitingInstance_shape m deadState apiState now a0) as [Hinc _].
    rewrite Hinc in Hsame. cbn [incremented id] in Hsame.
    unfold awaitingInstance in Hkeep.
    destruct (awaitingInstance_loop m deadState apiState now a0
                (instances deadState) true [])
      as (_ & _ & Hall & _).
    destruct (Hall instance reason Hdead ltac:(congruence) Hreason) as [Hdown _].
    destruct (fold_left _ (instances deadState) (true, [])) as [keep reports].
    cbn [fst snd] in *. subst keep. destruct (outlived a0); discriminate.
Qed.

(** X11 on an entry made at time 500 for the instance of scenario S4. *)
Lemma awaited_instance_is_resolved_witness :
  __awaitingStateReason
    (fst (_reconcileStateDifferences
            (setAwaiting (sampleManager emptyState emptyState []) []
               [{| id := "i-7"; time := 500; iterationCount := 3 |}])
            emptyState bid041 emptyState 1000))
  = []
  /\ (forall p,
        In p (plotInstanceDeath
                (setAwaiting (sampleManager emptyState emptyState []) []
                   [{| id := "i-7"; time := 500; iterationCount := 3 |}])
                bid041 emptyState 1000 killedInstance
                {| Code := Some "Server.SpotInstanceTermination";
                   Message := "Your Spot Instance was terminated." |} 500) ->
        In p (snd (_reconcileStateDifferences
                     (setAwaiting (sampleManager emptyState emptyState []) []
                        [{| id := "i-7"; time := 500; iterationCount := 3 |}])
                     emptyState bid041 emptyState 1000))).
Proof.
  split; [reflexivity |].
  apply (awaited_instance_is_resolved
           (setAwaiting (sampleManager emptyState emptyState []) []
              [{| id := "i-7"; time := 500; iterationCount := 3 |}])
           emptyState bid041 emptyState 1000
           {| id := "i-7"; time := 500; iterationCount := 3 |}
           killedInstance
           {| Code := Some "Server.SpotInstanceTermination";
              Message := "Your Spot Instance was terminated." |}).
  - now left.
  - now left.
  - reflexivity.
  - reflexivity.
Defined.

(** ** Reconciling the table of submitted requests *)

Lemma filter_idempotent {A} (p : A -> bool) l : filter p (filter p l) = filter p l.
Proof.
  induction l as [|x l IH]; cbn [filter]; [reflexivity |].
  destruct (p x) eqn:E; cbn [filter]; [rewrite E; now f_equal | exact IH].
Qed.

Lemma stillInFlight_quiet m now known request :
  fst (stillInFlight m now known request) = true ->
  snd (stillInFlight m now known request) = [].
Proof.
  unfold stillInFlight.
  destruct (JS.includes known _); [discriminate |].
  destruct (_ >=? _); [discriminate | reflexivity].
Qed.

(** X12: [_reconcileInternalState] is idempotent: called again at the same
    time, with the api state unchanged, it removes nothing more and reports
    nothing. *)
Theorem reconcileInternalState_idempotent m now :
  _reconcileInternalState (fst (_reconcileInternalState m now)) now
  = (fst (_reconcileInternalState m now), []).
Proof.
  unfold _reconcileInternalState. cbn [fst].
  change (knownSpotInstanceRequestIds (setInternalState m _))
    with (knownSpotInstanceRequestIds m).
  cbn [setInternalState __internalState].
  set (known := knownSpotInstanceRequestIds m).
  change (stillInFlight (setInternalState m _) now known)
    with (stillInFlight m now known).
  rewrite filter_idempotent. f_equal.
  induction (__internalState m) as [|x l IH]; [reflexivity |].
  cbn [filter]. destruct (fst (stillInFlight m now known x)) eqn:E; [| exact IH].
  cbn [flat_map]. rewrite (stillInFlight_quiet _ _ _ _ E). exact IH.
Qed.


(** ** Submitting a spot request *)

(** X14: [requestSpotInstance] resolves exactly when the region of the bid
    is one of the regions of the manager and EC2 answers with at least one
    request.  A bid for another region fails the assertion before anything
    is sent; an empty answer raises a [TypeError]. *)
Theorem requestSpotInstance_resolves_iff m launchInfo bid truePrice answer now :
  ((exists outcome,
      requestSpotInstance m launchInfo bid truePrice answer now = JS.Ok outcome)
   <-> In (region bid) (regions m) /\ answer <> [])
  /\ (~ In (region bid) (regions m) ->
      exists message,
        requestSpotInstance m launchInfo bid truePrice answer now
        = JS.Throw (JS.AssertionError message))
  /\ (In (region bid) (regions m) -> answer = [] ->
      exists message,
        requestSpotInstance m launchInfo bid truePrice answer now
        = JS.Throw (JS.TypeError message)).
Proof.
  unfold requestSpotInstance.
  destruct (JS.includes (regions m) (region bid)) eqn:E; cbn [negb].
  - apply includes_In in E. split; [| split].
    + destruct answer as [|spotReq rest].
      * split; [intros (o & H); discriminate H | intros [_ H]; congruence].
      * split; [intros _; split; [exact E | discriminate] | intros _; eauto].
    + intros H. contradiction.
    + intros _ ->. eauto.
  - apply includes_not_In in E. split; [| split].
    + split; [intros (o & H); discriminate H | intros [H _]; contradiction].
    + intros _. eauto.
    + intros H. contradiction.
Qed.

(** X15: a resolved [requestSpotInstance] keeps every in-flight entry in a
    region of the manager: the entry it stores carries the region of the
    bid and the worker type of the launch information, and the api state is
    left as it was. *)
Theorem requestSpotInstance_keeps_regions_known
    m launchInfo bid truePrice answer now outcome :
  regionsKnown m ->
  requestSpotInstance m launchInfo bid truePrice answer now = JS.Ok outcome ->
  regionsKnown (submittedBy outcome)
  /\ __apiState (submittedBy outcome) = __apiState m
  /\ forall sr,
       In sr (__internalState (submittedBy outcome)) ->
       In sr (__internalState m)
       \/ (SpotRequest.Region (Tracked.request sr) = region bid
           /\ SpotRequest.WorkerType (Tracked.request sr)
              = LaunchInfo.workerType launchInfo
           /\ Tracked.submitted sr = now).
Proof.
  intros (Hi & Hr & Ht). unfold requestSpotInstance.
  destruct (JS.includes (regions m) (region bid)) eqn:E; [| discriminate].
  apply includes_In in E. cbn [negb].
  destruct answer as [|spotReq rest]; [discriminate |].
  intros [= <-]. cbn [submittedBy]. unfold _trackNewSpotRequest.
  destruct (negb (JS.includes (knownSpotInstanceRequestIds m) _)).
  - cbn [setInternalState __apiState __internalState regions].
    assert (Hnew : forall sr,
               In sr (__internalState m ++
                      [tracked {| Tracked.workerType := LaunchInfo.workerType launchInfo;
                                  Tracked.request := spotReq;
                                  Tracked.bid := bid;
                                  Tracked.submitted := now |}]) ->
               In sr (__internalState m)
               \/ (SpotRequest.Region (Tracked.request sr) = region bid
                   /\ SpotRequest.WorkerType (Tracked.request sr)
                      = LaunchInfo.workerType launchInfo
                   /\ Tracked.submitted sr = now)).
    { intros sr Hin. apply in_app_or in Hin as [Hin | [<- | []]]; [now left |].
      right. repeat split. }
    split; [| split; [reflexivity | exact Hnew]].
    split; [exact Hi |]. split; [exact Hr |].
    intros sr Hin. destruct (Hnew sr Hin) as [Hold | (Hregion & _)].
    + now apply Ht.
    + cbn [regions]. now rewrite Hregion.
  - split; [repeat split; assumption |]. split; [reflexivity |]. auto.
Qed.

(** X15 on a bid in [us-east-1] for the fleet of scenario S5. *)
Lemma requestSpotInstance_keeps_regions_known_witness :
  exists outcome,
    requestSpotInstance (manager legacyFleet) sampleLaunchInfo sampleBid (1 # 10)
      sampleAnswer 1000 = JS.Ok outcome
    /\ map requestIdOf (__internalState (submittedBy outcome)) = ["sir-l2"; "sir-new"]
    /\ regionsKnown (submittedBy outcome).
Proof.
  eexists. split; [reflexivity |]. split; [reflexivity |].
  apply (requestSpotInstance_keeps_regions_known (manager legacyFleet)
           sampleLaunchInfo sampleBid (1 # 10) sampleAnswer 1000).
  - exact legacyFleet_regionsKnown.
  - reflexivity.
Defined.

(** X16: a submitted bid is counted at once.  After a resolved
    [requestSpotInstance] whose request the api state does not know yet,
    [capacityForType] of any worker type, for states that have
    ['spotReq'], is what it was plus the capacity of the type read from the
    new request (1 when unknown); for states without ['spotReq'], and for a
    request the api state already knows, it is unchanged. *)
Theorem requestSpotInstance_is_counted
    m launchInfo bid truePrice spotReq rest now outcome workerType states :
  requestSpotInstance m launchInfo bid truePrice (spotReq :: rest) now
  = JS.Ok outcome ->
  capacityForType (submittedBy outcome) workerType states
  = capacityForType m workerType states
    + (if JS.includes (knownSpotInstanceRequestIds m)
            (SpotRequest.SpotInstanceRequestId spotReq)
       then 0
       else if JS.includes (statesOrDefault states) "spotReq"
       then capacityOr1 workerType (SpotRequest.InstanceType spotReq)
       else 0).
Proof.
  unfold requestSpotInstance.
  destruct (negb (JS.includes (regions m) (region bid))); [discriminate |].
  intros [= <-]. cbn [submittedBy]. unfold _trackNewSpotRequest.
  cbn [Tracked.request].
  destruct (JS.includes (knownSpotInstanceRequestIds m)
              (SpotRequest.SpotInstanceRequestId spotReq)); cbn [negb]; [lia |].
  rewrite !capacityForType_eq.
  unfold instanceCapacity, requestCapacity, inFlightCapacity, instancesOfType,
    requestsOfType.
  cbn [setInternalState __apiState __internalState].
  destruct (JS.includes (statesOrDefault states) "spotReq"); [| lia].
  rewrite map_app, sumZ_app. cbn. lia.
Qed.

(** X16 on the same bid: the capacity of [builder] goes from 0 to 1, and
    so does the capacity of a worker type the bid is not for. *)
Lemma requestSpotInstance_is_counted_witness :
  capacityForType (sampleManager emptyState emptyState []) builder None = 0
  /\ exists outcome,
       requestSpotInstance (sampleManager emptyState emptyState [])
         sampleLaunchInfo sampleBid (1 # 10) sampleAnswer 1000 = JS.Ok outcome
       /\ capacityForType (submittedBy outcome) builder None = 1
       /\ capacityForType (submittedBy outcome) (mkWorkerType "tester" 0 []) None
          = capacityForType (sampleManager emptyState emptyState [])
              (mkWorkerType "tester" 0 []) None
            + 1.
Proof.
  split; [reflexivity |]. eexists. split; [reflexivity |]. split; [reflexivity |].
  apply (requestSpotInstance_is_counted (sampleManager emptyState emptyState [])
           sampleLaunchInfo sampleBid (1 # 10)
           (sampleRequest "sir-new" "" "" "m3.large" "open" "pending-evaluation"
              0 "0.41") [] 1000 _ (mkWorkerType "tester" 0 []) None).
  reflexivity.
Defined.

(** ** Creating a key pair *)

Lemma hasKeyPair_import c r keyName :
  Ec2.hasKeyPair (Ec2.import c r keyName) r keyName = true.
Proof.
  unfold Ec2.import. destruct (Ec2.hasKeyPair c r keyName) eqn:E; [exact E |].
  rewrite hasKeyPair_existsb, existsb_app. cbn [existsb]. unfold Ec2.isKey at 2.
  cbn [fst snd]. rewrite !String.eqb_refl. cbn. apply orb_true_r.
Qed.

Lemma hasKeyPair_import_keeps c r keyName r' keyName' :
  Ec2.hasKeyPair c r' keyName' = true ->
  Ec2.hasKeyPair (Ec2.import c r keyName) r' keyName' = true.
Proof.
  intros H. unfold Ec2.import. destruct (Ec2.hasKeyPair c r keyName); [exact H |].
  rewrite hasKeyPair_existsb, existsb_app. rewrite hasKeyPair_existsb in H.
  now rewrite H.
Qed.

Lemma hasKeyPair_import_all_keeps l keyName c r' keyName' :
  Ec2.hasKeyPair c r' keyName' = true ->
  Ec2.hasKeyPair (fold_left (fun c region => Ec2.import c region keyName) l c)
                 r' keyName' = true.
Proof.
  revert c. induction l as [|r l IH]; intros c H; cbn [fold_left]; [exact H |].
  apply IH. now apply hasKeyPair_import_keeps.
Qed.

Lemma hasKeyPair_import_all l keyName c r :
  In r l ->
  Ec2.hasKeyPair (fold_left (fun c region => Ec2.import c region keyName) l c)
                 r keyName = true.
Proof.
  revert c. induction l as [|r' l IH]; intros c Hin; [destruct Hin |].
  cbn [fold_left]. destruct Hin as [-> | Hin]; [| now apply IH].
  apply hasKeyPair_import_all_keeps, hasKeyPair_import.
Qed.

(** X17: [createKeyPair] of a non-empty name resolves with the name in the
    cache.  When the name was not cached, every region of the manager has
    the key pair afterwards; no key pair that existed is lost; and an
    [importKeyPair] is sent only to a region of the manager that lacked the
    key pair. *)
Theorem createKeyPair_ensures w workerName :
  workerName <> "" ->
  exists w',
    createKeyPair w workerName = JS.Ok w'
    /\ In workerName (__knownKeyPairs (manager w'))
    /\ (~ In workerName (__knownKeyPairs (manager w)) ->
        forall r, In r (regions (manager w)) ->
          Ec2.hasKeyPair (keyPairs w') r (keyNameOf (manager w) workerName) = true)
    /\ (forall r keyName,
          Ec2.hasKeyPair (keyPairs w) r keyName = true ->
          Ec2.hasKeyPair (keyPairs w') r keyName = true)
    /\ (forall r keyName material,
          In (Ec2.importKeyPair r keyName material) (sent w') ->
          In (Ec2.importKeyPair r keyName material) (sent w)
          \/ (In r (regions (manager w))
              /\ keyName = keyNameOf (manager w) workerName
              /\ Ec2.hasKeyPair (keyPairs w) r keyName = false)).
Proof.
  intros Hname. unfold createKeyPair, assertName.
  assert (Ht : JS.truthy (Some workerName) = true).
  { cbn [JS.truthy]. apply negb_true_iff, String.eqb_neq, Hname. }
  rewrite Ht. cbn [JS.bind].
  destruct (JS.includes (__knownKeyPairs (manager w)) workerName) eqn:Ec.
  - apply includes_In in Ec. exists w. repeat split; auto; contradiction.
  - eexists. split; [reflexivity |].
    cbn [manager setKnownKeyPairs __knownKeyPairs keyPairs sent].
    split; [apply in_or_app; right; now left |]. split; [| split].
    + intros _ r Hr.
      destruct (Ec2.hasKeyPair (keyPairs w) r (keyNameOf (manager w) workerName))
        eqn:Eh.
      * now apply hasKeyPair_import_all_keeps.
      * apply hasKeyPair_import_all, filter_In. rewrite Eh. auto.
    + intros r keyName H. now apply hasKeyPair_import_all_keeps.
    + intros r keyName material Hin.
      apply in_app_or in Hin as [Hin | [Hin | Hin]]; [now left | discriminate Hin |].
      apply in_map_iff in Hin as (r' & [= -> <- <-] & Hin).
      apply filter_In in Hin as [Hr Hlack]. right.
      split; [exact Hr |]. split; [reflexivity |]. now apply negb_true_iff.
Qed.

(** X17 on a manager with an empty cache, the key pair being in one region. *)
Lemma createKeyPair_ensures_witness :
  sentBy (createKeyPair
            {| manager := sampleManager emptyState emptyState [];
               keyPairs := [("us-west-2", "aws-provisioner-v1-managed:builder")];
               sent := [] |} "builder")
  = [ Ec2.describeKeyPairs ["us-west-2"; "us-east-1"]
        "aws-provisioner-v1-managed:builder";
      Ec2.importKeyPair "us-east-1" "aws-provisioner-v1-managed:builder"
        "ssh-rsa AAAA" ]
  /\ exists w',
       createKeyPair
         {| manager := sampleManager emptyState emptyState [];
            keyPairs := [("us-west-2", "aws-provisioner-v1-managed:builder")];
            sent := [] |} "builder" = JS.Ok w'
       /\ In "builder" (__knownKeyPairs (manager w')).
Proof.
  split; [reflexivity |].
  destruct (createKeyPair_ensures
              {| manager := sampleManager emptyState emptyState [];
                 keyPairs := [("us-west-2", "aws-provisioner-v1-managed:builder")];
                 sent := [] |} "builder") as (w' & Hrun & Hcache & _).
  - discriminate.
  - exists w'. split; [exact Hrun | exact Hcache].
Defined.

(** X18: once [createKeyPair] of a name has resolved, a further
    [createKeyPair] of that name sends nothing and changes nothing, whatever
    became of the key pairs in between: the cache is not checked against
    EC2 until [deleteKeyPair] removes the name. *)
Theorem createKeyPair_cached w workerName w1 :
  createKeyPair w workerName = JS.Ok w1 ->
  forall keyPairsNow sentSoFar,
    createKeyPair {| manager := manager w1;
                     keyPairs := keyPairsNow;
                     sent := sentSoFar |} workerName
    = JS.Ok {| manager := manager w1;
               keyPairs := keyPairsNow;
               sent := sentSoFar |}.
Proof.
  unfold createKeyPair. destruct (assertName workerName) as [[]|e]; [| discriminate].
  cbn [JS.bind manager].
  destruct (JS.includes (__knownKeyPairs (manager w)) workerName) eqn:Ec.
  - intros [= <-] c s. now rewrite Ec.
  - intros [= <-] c s. cbn [manager setKnownKeyPairs __knownKeyPairs].
    assert (Hin : JS.includes (__knownKeyPairs (manager w) ++ [workerName]) workerName
                  = true).
    { apply includes_In, in_or_app. right. now left. }
    now rewrite Hin.
Qed.

(** X18 with the key pairs all gone in between. *)
Lemma createKeyPair_cached_witness :
  exists w1,
    createKeyPair
      {| manager := sampleManager emptyState emptyState [];
         keyPairs := []; sent := [] |} "builder" = JS.Ok w1
    /\ createKeyPair {| manager := manager w1; keyPairs := []; sent := [] |} "builder"
       = JS.Ok {| manager := manager w1; keyPairs := []; sent := [] |}.
Proof.
  eexists. split; [reflexivity |].
  apply (createKeyPair_cached
           {| manager := sampleManager emptyState emptyState [];
              keyPairs := []; sent := [] |} "builder").
  reflexivity.
Defined.

(** ** What the killers leave alone *)

Section PushLoopOnly.

Context {A : Type}.
Variable selected : A -> bool.
Variables regionOf idOf : A -> string.
Variable push : string -> string -> object Kills -> JS.result (object Kills).

(** A property of the collected ids that a justified push keeps. *)
Variable justified : object Kills -> Prop.
Variable mayPush : string -> string -> Prop.

Hypothesis push_only :
  forall region id o o',
    justified o -> mayPush region id -> push region id o = JS.Ok o' -> justified o'.

Lemma push_loop_only l o o' :
  justified o ->
  (forall x, In x l -> selected x = true -> mayPush (regionOf x) (idOf x)) ->
  JS.foldM (fun o x => if selected x then push (regionOf x) (idOf x) o else JS.Ok o)
           l o = JS.Ok o' ->
  justified o'.
Proof.
  revert o. induction l as [|x l IH]; intros o Ho Hl; cbn [JS.foldM].
  - now intros [= <-].
  - destruct (selected x) eqn:Ex.
    + destruct (push (regionOf x) (idOf x) o) as [o1|e] eqn:Ep; [| discriminate].
      cbn [JS.bind]. apply IH.
      * apply (push_only _ _ _ _ Ho (Hl x (or_introl eq_refl) Ex) Ep).
      * intros y Hy. apply Hl. now right.
    + cbn [JS.bind]. apply IH; [exact Ho |]. intros y Hy. apply Hl. now right.
Qed.

End PushLoopOnly.

Lemma onlyTheNamed_setKey m name states region k o :
  onlyTheNamed m name states o ->
  (forall id, In id (kill_instances k) -> mayTerminate m name states region id) ->
  (forall id, In id (kill_requests k) -> mayCancel m name states region id) ->
  onlyTheNamed m name states (setKey region k o).
Proof.
  intros Ho Hi Hr entry Hin. apply setKey_entries in Hin as [Hin | ->].
  - now apply Ho.
  - split; assumption.
Qed.

Lemma pushInstance_only m name states region id o o' :
  onlyTheNamed m name states o -> mayTerminate m name states region id ->
  pushInstance region id o = JS.Ok o' -> onlyTheNamed m name states o'.
Proof.
  intros Ho Hid. unfold pushInstance.
  destruct (getKey region o) as [k|] eqn:Ek; [| discriminate]. intros [= <-].
  apply getKey_In in Ek. destruct (Ho _ Ek) as [Hi Hr]. cbn [fst snd] in Hi, Hr.
  apply onlyTheNamed_setKey; [exact Ho | | exact Hr].
  cbn [kill_instances]. intros id' Hin.
  apply in_app_or in Hin as [Hin | [<- | []]]; auto.
Qed.

Lemma pushRequest_only m name states region id o o' :
  onlyTheNamed m name states o -> mayCancel m name states region id ->
  pushRequest region id o = JS.Ok o' -> onlyTheNamed m name states o'.
Proof.
  intros Ho Hid. unfold pushRequest.
  destruct (getKey region o) as [k|] eqn:Ek; [| discriminate]. intros [= <-].
  apply getKey_In in Ek. destruct (Ho _ Ek) as [Hi Hr]. cbn [fst snd] in Hi, Hr.
  apply onlyTheNamed_setKey; [exact Ho | exact Hi |].
  cbn [kill_requests]. intros id' Hin.
  apply in_app_or in Hin as [Hin | [<- | []]]; auto.
Qed.

(** The calls of [killByName] name only what it is asked for. *)
Lemma killByName_calls m name states calls :
  killByName m name states = JS.Ok calls ->
  forall call,
    In call calls ->
    (exists region ids,
       call = Ec2.terminateInstances region ids
       /\ forall id, In id ids -> mayTerminate m name (statesOrDefault states) region id)
    \/ (exists region ids,
          call = Ec2.cancelSpotInstanceRequests region ids
          /\ forall id, In id ids -> mayCancel m name (statesOrDefault states) region id).
Proof.
  unfold killByName. set (S := statesOrDefault states).
  destruct (JS.foldM _ (instances (__apiState m)) (emptyKills (regions m)))
    as [o1|e] eqn:E1; [| discriminate].
  cbn [JS.bind].
  destruct (JS.foldM _ (requests (__apiState m)) o1) as [o2|e] eqn:E2; [| discriminate].
  cbn [JS.bind].
  destruct (JS.foldM _ (__internalState m) o2) as [o3|e] eqn:E3; [| discriminate].
  cbn [JS.bind]. rewrite deaths_loop. cbn [app]. intros [= <-].
  assert (H0 : onlyTheNamed m name S (emptyKills (regions m))).
  { intros entry Hin. rewrite (emptyKills_entries _ _ Hin).
    split; intros id []. }
  assert (H1 : onlyTheNamed m name S o1).
  { apply (push_loop_only
             (fun instance => String.eqb (Instance.WorkerType instance) name
                              && JS.includes S (Instance.StateName instance))
             Instance.Region Instance.InstanceId pushInstance
             (onlyTheNamed m name S) (mayTerminate m name S)
             (pushInstance_only m name S)
             (instances (__apiState m)) (emptyKills (regions m)) o1 H0); [| exact E1].
    intros x Hx Hsel. apply andb_true_iff in Hsel as [Hn Hs].
    apply String.eqb_eq in Hn. exists x. auto. }
  assert (H2 : onlyTheNamed m name S o2).
  { apply (push_loop_only
             (fun request => String.eqb (SpotRequest.WorkerType request) name
                             && JS.includes S "spotReq")
             SpotRequest.Region SpotRequest.SpotInstanceRequestId pushRequest
             (onlyTheNamed m name S) (mayCancel m name S)
             (pushRequest_only m name S)
             (requests (__apiState m)) o1 o2 H1); [| exact E2].
    intros x Hx Hsel. apply andb_true_iff in Hsel as [Hn Hs].
    apply String.eqb_eq in Hn. split; [exact Hs |]. left. exists x. auto. }
  assert (H3 : onlyTheNamed m name S o3).
  { apply (push_loop_only
             (fun sr => String.eqb (SpotRequest.WorkerType (Tracked.request sr)) name
                        && JS.includes S "spotReq")
             (fun sr => SpotRequest.Region (Tracked.request sr))
             (fun sr => SpotRequest.SpotInstanceRequestId (Tracked.request sr))
             pushRequest
             (onlyTheNamed m name S) (mayCancel m name S)
             (pushRequest_only m name S)
             (__internalState m) o2 o3 H2); [| exact E3].
    intros x Hx Hsel. apply andb_true_iff in Hsel as [Hn Hs].
    apply String.eqb_eq in Hn. split; [exact Hs |]. right. exists x. auto. }
  intros call Hcall. apply in_flat_map in Hcall as (entry & Hentry & Hcall).
  destruct (H3 entry Hentry) as [Hi Hr]. unfold callsFor in Hcall.
  apply in_app_or in Hcall as [Hcall | Hcall].
  - destruct (kill_instances (snd entry)) as [|id0 ids] eqn:Ek; [destruct Hcall |].
    destruct Hcall as [<- | []]. left. eauto.
  - destruct (kill_requests (snd entry)) as [|id0 ids] eqn:Ek; [destruct Hcall |].
    destruct Hcall as [<- | []]. right. eauto.
Qed.

(** X19: [killByName] kills nothing but what it is asked for.  Every id in
    a [terminateInstances] call it sends is the id of an instance of the api
    state that has the name, sits in the region of the call and is in one
    of the states; every id in a [cancelSpotInstanceRequests] call is the id
    of a request or of an in-flight entry of the name in that region, and
    such a call is sent only when the states have ['spotReq']; no other
    call is sent. *)
Theorem killByName_only_the_named m name states calls :
  killByName m name states = JS.Ok calls ->
  forall call,
    In call calls ->
    (exists region ids,
       call = Ec2.terminateInstances region ids
       /\ forall id, In id ids -> mayTerminate m name (statesOrDefault states) region id)
    \/ (exists region ids,
          call = Ec2.cancelSpotInstanceRequests region ids
          /\ forall id, In id ids -> mayCancel m name (statesOrDefault states) region id).
Proof. apply killByName_calls. Qed.

(** X19 on scenario S5: asked to kill [legacy], the calls name no resource
    of [modern]. *)
Lemma killByName_only_the_named_witness :
  killByName (manager legacyFleet) "legacy" None
  = JS.Ok [ Ec2.terminateInstances "us-west-2" ["i-legacy"];
            Ec2.cancelSpotInstanceRequests "us-west-2" ["sir-l2"];
            Ec2.cancelSpotInstanceRequests "us-east-1" ["sir-l1"] ]
  /\ forall call,
       In call [ Ec2.terminateInstances "us-west-2" ["i-legacy"];
                 Ec2.cancelSpotInstanceRequests "us-west-2" ["sir-l2"];
                 Ec2.cancelSpotInstanceRequests "us-east-1" ["sir-l1"] ] ->
       (exists region ids,
          call = Ec2.terminateInstances region ids
          /\ forall id, In id ids ->
               mayTerminate (manager legacyFleet) "legacy" (statesOrDefault None)
                 region id)
       \/ (exists region ids,
             call = Ec2.cancelSpotInstanceRequests region ids
             /\ forall id, In id ids ->
                  mayCancel (manager legacyFleet) "legacy" (statesOrDefault None)
                    region id).
Proof.
  split; [reflexivity |].
  apply (killByName_only_the_named (manager legacyFleet) "legacy" None).
  reflexivity.
Defined.

(** What [deleteKeyPair] sends and leaves, read off its definition. *)
Lemma deleteKeyPair_sent w workerName w1 :
  deleteKeyPair w workerName = JS.Ok w1 ->
  (exists cache, manager w1 = setKnownKeyPairs (manager w) cache)
  /\ forall call,
       In call (sent w1) ->
       In call (sent w)
       \/ call = Ec2.describeKeyPairs (regions (manager w))
                   (keyNameOf (manager w) workerName)
       \/ exists region,
            call = Ec2.deleteKeyPair region (keyNameOf (manager w) workerName).
Proof.
  unfold deleteKeyPair. destruct (assertName workerName) as [[]|e]; [| discriminate].
  cbn [JS.bind]. intros [= <-]. cbn [manager sent]. split; [eexists; reflexivity |].
  intros call Hin. apply in_app_or in Hin as [Hin | [<- | Hin]]; auto.
  apply in_map_iff in Hin as (region & <- & _). eauto.
Qed.

(** Every call the loop of [rougeKiller] adds is a call of [deleteKeyPair]
    or of [killByName] for one of the names it goes through. *)
Lemma rougeKiller_loop_only m names :
  forall w w',
    sameFleet m w ->
    JS.foldM
      (fun w name =>
         w <- deleteKeyPair w name ;;
         calls <- killByName (manager w) name None ;;
         JS.Ok {| manager := manager w;
                  keyPairs := keyPairs w;
                  sent := sent w ++ calls |})
      names w = JS.Ok w' ->
    forall call,
      In call (sent w') ->
      In call (sent w)
      \/ exists name,
           In name names
           /\ (call = Ec2.describeKeyPairs (regions m) (keyNameOf m name)
               \/ (exists region, call = Ec2.deleteKeyPair region (keyNameOf m name))
               \/ exists calls,
                    killByName m name None = JS.Ok calls /\ In call calls).
Proof.
  induction names as [|name names IH]; intros w w' Hsame; cbn [JS.foldM].
  - intros [= <-] call Hin. now left.
  - destruct (deleteKeyPair w name) as [w1|e] eqn:Ed; [| discriminate].
    cbn [JS.bind].
    destruct (deleteKeyPair_sent w name w1 Ed) as (Hman & Hsent1).
    pose proof (sameFleet_setKnownKeyPairs m w w1 Hsame Hman) as Hsame1.
    destruct Hsame as (cache & Hcache). destruct Hsame1 as (cache1 & Hcache1).
    assert (Ek : killByName (manager w1) name None = killByName m name None).
    { rewrite Hcache1. reflexivity. }
    rewrite Ek. destruct (killByName m name None) as [calls|e] eqn:Ekill;
      [| discriminate].
    cbn [JS.bind]. intros Hfold call Hin.
    apply (IH {| manager := manager w1; keyPairs := keyPairs w1;
                 sent := sent w1 ++ calls |} w') in Hin;
      [| exists cache1; exact Hcache1 | exact Hfold].
    destruct Hin as [Hin | (n & Hn & Hcall)].
    + cbn [sent] in Hin. apply in_app_or in Hin as [Hin | Hin].
      * destruct (Hsent1 call Hin) as [Hold | [-> | (region & ->)]].
        -- now left.
        -- right. exists name. split; [now left |]. left.
           rewrite Hcache. reflexivity.
        -- right. exists name. split; [now left |]. right. left.
           exists region. rewrite Hcache. reflexivity.
      * right. exists name. split; [now left |]. right. right. eauto.
    + right. exists n. split; [now right | exact Hcall].
Qed.

(** X20: [rougeKiller] spares what is configured.  Of the calls it adds,
    every [terminateInstances] names only instances whose worker type is not
    configured, every [cancelSpotInstanceRequests] names only requests and
    in-flight entries whose worker type is not configured, and every
    [deleteKeyPair] is for the key pair of a worker type that is observed in
    state and not configured. *)
Theorem rougeKiller_spares_configured w configuredWorkers w' :
  rougeKiller w configuredWorkers = JS.Ok w' ->
  (forall region ids,
     In (Ec2.terminateInstances region ids) (sent w') ->
     In (Ec2.terminateInstances region ids) (sent w)
     \/ forall id, In id ids ->
          exists instance,
            In instance (instances (__apiState (manager w)))
            /\ Instance.InstanceId instance = id
            /\ ~ In (Instance.WorkerType instance) configuredWorkers)
  /\ (forall region ids,
        In (Ec2.cancelSpotInstanceRequests region ids) (sent w') ->
        In (Ec2.cancelSpotInstanceRequests region ids) (sent w)
        \/ forall id, In id ids ->
             (exists request,
                In request (requests (__apiState (manager w)))
                /\ SpotRequest.SpotInstanceRequestId request = id
                /\ ~ In (SpotRequest.WorkerType request) configuredWorkers)
             \/ (exists sr,
                   In sr (__internalState (manager w))
                   /\ SpotRequest.SpotInstanceRequestId (Tracked.request sr) = id
                   /\ ~ In (SpotRequest.WorkerType (Tracked.request sr))
                           configuredWorkers))
  /\ (forall region keyName,
        In (Ec2.deleteKeyPair region keyName) (sent w') ->
        In (Ec2.deleteKeyPair region keyName) (sent w)
        \/ exists name,
             keyName = keyNameOf (manager w) name
             /\ observed (manager w) name
             /\ ~ In name configuredWorkers).
Proof.
  unfold rougeKiller. intros Hrun.
  assert (Hsame : sameFleet (manager w) w).
  { exists (__knownKeyPairs (manager w)). now destruct w as [[] ? ?]. }
  pose proof (rougeKiller_loop_only (manager w) _ w w' Hsame Hrun) as Honly.
  assert (Hrouge : forall name,
             In name (filter (fun name => negb (JS.includes configuredWorkers name))
                             (knownWorkerTypes (manager w))) ->
             observed (manager w) name /\ ~ In name configuredWorkers).
  { intros name Hin. apply filter_In in Hin as [Hk Hc].
    split; [now apply knownWorkerTypes_spec |].
    now apply includes_not_In, negb_true_iff. }
  split; [| split].
  - intros region ids Hin.
    destruct (Honly _ Hin) as [Hold | (name & Hname & [H | [(r & H) | (calls & Hk & Hc)]])];
      [now left | discriminate H | discriminate H |].
    right. intros id Hid.
    destruct (killByName_calls _ _ _ _ Hk _ Hc)
      as [(r & ids' & [= <- <-] & Hall) | (r & ids' & H & _)]; [| discriminate H].
    destruct (Hall id Hid) as (instance & Hi & Hid' & _ & Hw & _).
    exists instance. split; [exact Hi |]. split; [exact Hid' |].
    rewrite Hw. apply (Hrouge name Hname).
  - intros region ids Hin.
    destruct (Honly _ Hin) as [Hold | (name & Hname & [H | [(r & H) | (calls & Hk & Hc)]])];
      [now left | discriminate H | discriminate H |].
    right. intros id Hid.
    destruct (killByName_calls _ _ _ _ Hk _ Hc)
      as [(r & ids' & H & _) | (r & ids' & [= <- <-] & Hall)]; [discriminate H |].
    destruct (Hall id Hid) as [_ [(request & Hi & Hid' & _ & Hw)
                                 | (sr & Hi & Hid' & _ & Hw)]].
    + left. exists request. split; [exact Hi |]. split; [exact Hid' |].
      rewrite Hw. apply (Hrouge name Hname).
    + right. exists sr. split; [exact Hi |]. split; [exact Hid' |].
      rewrite Hw. apply (Hrouge name Hname).
  - intros region keyName Hin.
    destruct (Honly _ Hin) as [Hold | (name & Hname & [H | [(r & H) | (calls & Hk & Hc)]])];
      [now left | discriminate H | |].
    + injection H as <- ->. right. exists name.
      split; [reflexivity | apply (Hrouge name Hname)].
    + destruct (killByName_calls _ _ _ _ Hk _ Hc)
        as [(r & ids' & H & _) | (r & ids' & H & _)]; discriminate H.
Qed.

(** X20 on scenario S5, where [modern] is configured. *)
Lemma rougeKiller_spares_configured_witness :
  exists w',
    rougeKiller legacyFleet ["modern"] = JS.Ok w'
    /\ forall region ids,
         In (Ec2.terminateInstances region ids) (sent w') ->
         In (Ec2.terminateInstances region ids) (sent legacyFleet)
         \/ forall id, In id ids ->
              exists instance,
                In instance (instances (__apiState (manager legacyFleet)))
                /\ Instance.InstanceId instance = id
                /\ ~ In (Instance.WorkerType instance) ["modern"].
Proof.
  eexists. split; [reflexivity |].
  apply (rougeKiller_spares_configured legacyFleet ["modern"]). reflexivity.
Defined.

(** X21: when every worker type observed in state is configured,
    [rougeKiller] sends nothing and changes nothing. *)
Theorem rougeKiller_idle_when_all_configured w configuredWorkers :
  (forall name, observed (manager w) name -> In name configuredWorkers) ->
  rougeKiller w configuredWorkers = JS.Ok w.
Proof.
  intros Hall. unfold rougeKiller. rewrite filter_nothing; [reflexivity |].
  intros name Hin. apply negb_false_iff, includes_In, Hall.
  now apply knownWorkerTypes_spec.
Qed.

(** X21 on scenario S5 with both worker types configured. *)
Lemma rougeKiller_idle_when_all_configured_witness :
  rougeKiller legacyFleet ["modern"; "legacy"] = JS.Ok legacyFleet.
Proof.
  apply (rougeKiller_idle_when_all_configured legacyFleet ["modern"; "legacy"]).
  intros name [(x & Hx & <-) | [(x & Hx & <-) | (x & Hx & <-)]];
    each_element Hx ltac:(simpl; tauto).
Defined.

(** A loop of selections that ends normally has selected nothing: recording
    an id raises. *)
Lemma select_loop_inert {A} workerType count capacity caps
    (selected : A -> bool) (typeOf regionOf idOf : A -> string) l st st' :
  JS.foldM (fun st x =>
              select workerType count capacity caps (selected x)
                (typeOf x) (regionOf x) (idOf x) st)
           l st = JS.Ok st' ->
  st' = st.
Proof.
  revert st. induction l as [|x l IH]; intros st; cbn [JS.foldM].
  - now intros [= <-].
  - destruct st as [capToKill toKill]. unfold select at 1.
    destruct (cont workerType count capacity capToKill && selected x).
    + cbn. discriminate.
    + cbn [JS.bind]. apply IH.
Qed.

(** X22: [killCapacityOfWorkerType] never sends a call.  For every count,
    every state and every shuffle it either raises or resolves having
    selected nothing: it sends no [terminateInstances] and no
    [cancelSpotInstanceRequests]. *)
Theorem killCapacityOfWorkerType_never_kills
    knuthShuffle m workerType count states calls :
  killCapacityOfWorkerType knuthShuffle m workerType count states = JS.Ok calls ->
  calls = [].
Proof.
  unfold killCapacityOfWorkerType.
  destruct (buildCaps workerType) as [caps|e]; [| discriminate]. cbn [JS.bind].
  set (capacity := capacityForType m workerType (Some states)).
  set (start := (0, emptyKills (regions m))).
  assert (Hfirst : forall st,
             (if JS.includes states "spotReq"
              then
                st <-
                  JS.foldM (fun st request =>
                              select workerType count capacity caps true
                                (SpotRequest.LaunchInstanceType request)
                                (SpotRequest.Region request)
                                (SpotRequest.SpotInstanceRequestId request) st)
                           (knuthShuffle _
                              (requestsOfType m (WorkerType.workerType workerType)))
                           start ;;
                JS.foldM (fun st sr =>
                            select workerType count capacity caps
                              (String.eqb (SpotRequest.WorkerType (Tracked.request sr))
                                          (WorkerType.workerType workerType))
                              (SpotRequest.LaunchInstanceType (Tracked.request sr))
                              (SpotRequest.Region (Tracked.request sr))
                              (SpotRequest.SpotInstanceRequestId (Tracked.request sr))
                              st)
                         (__internalState m) st
              else JS.Ok start) = JS.Ok st ->
             st = start).
  { intros st. destruct (JS.includes states "spotReq"); [| now intros [= <-]].
    destruct (JS.foldM _ (knuthShuffle _ _) start) as [st1|e] eqn:E1; [| discriminate].
    cbn [JS.bind]. intros E2.
    apply (select_loop_inert workerType count capacity caps (fun _ => true)
             SpotRequest.LaunchInstanceType SpotRequest.Region
             SpotRequest.SpotInstanceRequestId) in E1.
    apply (select_loop_inert workerType count capacity caps
             (fun sr => String.eqb (SpotRequest.WorkerType (Tracked.request sr))
                                   (WorkerType.workerType workerType))
             (fun sr => SpotRequest.LaunchInstanceType (Tracked.request sr))
             (fun sr => SpotRequest.Region (Tracked.request sr))
             (fun sr => SpotRequest.SpotInstanceRequestId (Tracked.request sr))) in E2.
    congruence. }
  fold start. fold capacity.
  revert Hfirst.
  destruct (if JS.includes states "spotReq" then _ else _) as [st|e];
    intros Hfirst; [| discriminate].
  rewrite (Hfirst st eq_refl). cbn [JS.bind].
  destruct (JS.foldM _ (knuthShuffle _ _) start) as [st2|e] eqn:E2; [| discriminate].
  apply (select_loop_inert workerType count capacity caps
           (fun instance => JS.includes states (Instance.StateName instance))
           Instance.InstanceType Instance.Region Instance.InstanceId) in E2.
  subst st2. cbn [JS.bind snd start].
  rewrite (nothing_to_kill _ (emptyKills_entries (regions m))).
  now intros [= <-].
Qed.

(** X22 on the fleet of five, asked to kill 2. *)
Lemma killCapacityOfWorkerType_never_kills_witness :
  killCapacityOfWorkerType (fun _ l => rev l) smallFleet builder 2 defaultStates
  = JS.Ok []
  /\ ([] : list Ec2.call) = [].
Proof.
  split; [reflexivity |].
  apply (killCapacityOfWorkerType_never_kills (fun _ l => rev l) smallFleet builder 2
           defaultStates).
  reflexivity.
Defined.

(** ** Objects whose keys are distinct *)

Lemma setKey_keys {V} k (v : V) o k' :
  In k' (map fst (setKey k v o)) <-> k' = k \/ In k' (map fst o).
Proof.
  induction o as [|[k0 v0] o IH]; cbn [setKey map fst In].
  - intuition congruence.
  - destruct (String.eqb k0 k) eqn:E; cbn [map fst In].
    + apply String.eqb_eq in E. subst k0. intuition congruence.
    + rewrite IH. intuition congruence.
Qed.

Lemma setKey_NoDup {V} k (v : V) o :
  NoDup (map fst o) -> NoDup (map fst (setKey k v o)).
Proof.
  induction o as [|[k0 v0] o IH]; cbn [setKey map fst]; intros H.
  - constructor; [intros [] | constructor].
  - inversion H as [|? ? Hnot Hrest]; subst.
    destruct (String.eqb k0 k) eqn:E; cbn [map fst].
    + apply String.eqb_eq in E. subst k0. now constructor.
    + constructor; [| now apply IH].
      rewrite setKey_keys. intros [-> | Hin]; [| now apply Hnot].
      now rewrite String.eqb_refl in E.
Qed.

Lemma In_getKey {V} k (v : V) o :
  NoDup (map fst o) -> In (k, v) o -> getKey k o = Some v.
Proof.
  induction o as [|[k0 v0] o IH]; cbn [map fst getKey In]; intros H; [intros [] |].
  inversion H as [|? ? Hnot Hrest]; subst.
  intros [[= -> ->] | Hin].
  - now rewrite String.eqb_refl.
  - destruct (String.eqb k0 k) eqn:E; [| now apply IH].
    apply String.eqb_eq in E. subst k0. destruct Hnot.
    apply in_map_iff. now exists (k, v).
Qed.

Lemma filter_filter {A} (f g : A -> bool) l :
  filter f (filter g l) = filter (fun x => g x && f x) l.
Proof.
  induction l as [|x l IH]; cbn [filter]; [reflexivity |].
  destruct (g x); cbn [filter andb]; [| exact IH].
  destruct (f x); now rewrite IH.
Qed.

(** ** [zombieKiller] *)

(** The loop that collects the ids per region appends, for every region,
    the ids of its instances in their order. *)
Lemma pushZombie_loop l : forall zombies,
  NoDup (map fst zombies) ->
  (forall instance, In instance l ->
     JS.includes inheritedNames (Instance.Region instance) = false) ->
  exists zombies',
    JS.foldM pushZombie l zombies = JS.Ok zombies'
    /\ NoDup (map fst zombies')
    /\ forall region,
         getKey region zombies'
         = match getKey region zombies,
                 map Instance.InstanceId
                   (filter (fun instance =>
                              String.eqb (Instance.Region instance) region) l)
           with
           | None, [] => None
           | None, ids => Some ids
           | Some old, ids => Some (old ++ ids)
           end.
Proof.
  induction l as [|x l IH]; intros zombies Hkeys Hnames; cbn [JS.foldM].
  - exists zombies. split; [reflexivity |]. split; [assumption |].
    intros region. cbn [filter map].
    destruct (getKey region zombies); [now rewrite app_nil_r | reflexivity].
  - assert (Hx : JS.includes inheritedNames (Instance.Region x) = false)
      by (apply Hnames; now left).
    assert (Hl : forall instance, In instance l ->
                   JS.includes inheritedNames (Instance.Region instance) = false)
      by (intros i Hi; apply Hnames; now right).
    unfold pushZombie at 1. rewrite Hx.
    destruct (getKey (Instance.Region x) zombies) as [old|] eqn:Eold;
      cbn [JS.bind].
    + destruct (IH (setKey (Instance.Region x) (old ++ [Instance.InstanceId x]) zombies)
                  (setKey_NoDup _ _ _ Hkeys) Hl) as (z' & Hrun & Hnd & Hget).
      exists z'. split; [exact Hrun |]. split; [exact Hnd |].
      intros region. rewrite Hget, getKey_setKey. cbn [filter].
      destruct (String.eqb (Instance.Region x) region) eqn:E; cbn [map].
      * apply String.eqb_eq in E. subst region. rewrite Eold.
        now rewrite <- app_assoc.
      * reflexivity.
    + destruct (IH (setKey (Instance.Region x) [Instance.InstanceId x] zombies)
                  (setKey_NoDup _ _ _ Hkeys) Hl) as (z' & Hrun & Hnd & Hget).
      exists z'. split; [exact Hrun |]. split; [exact Hnd |].
      intros region. rewrite Hget, getKey_setKey. cbn [filter].
      destruct (String.eqb (Instance.Region x) region) eqn:E; cbn [map].
      * apply String.eqb_eq in E. subst region. rewrite Eold. reflexivity.
      * reflexivity.
Qed.

Lemma zombie_calls_loop (zombies : object (list string)) sentSoFar :
  JS.foldM
    (fun sentSoFar entry =>
       calls <- killCancel (fst entry) (Some (snd entry)) None ;;
       JS.Ok (sentSoFar ++ calls))
    zombies sentSoFar
  = JS.Ok (sentSoFar ++
           flat_map (fun entry =>
                       match snd entry with
                       | [] => []
                       | _ :: _ => [Ec2.terminateInstances (fst entry) (snd entry)]
                       end) zombies).
Proof.
  revert sentSoFar.
  induction zombies as [|[region ids] zombies IH]; intros sentSoFar;
    cbn [JS.foldM flat_map].
  - now rewrite app_nil_r.
  - unfold killCancel. cbn [fst snd orEmpty JS.bind]. rewrite IH.
    rewrite app_nil_r, app_assoc. reflexivity.
Qed.

(** X23: [zombieKiller] terminates exactly the instances that were launched
    before the date.  When no region is named as a property that every
    object inherits, it resolves, and the calls it sends are, for every
    region that has such an instance, one [terminateInstances] with the ids
    of all of them, and nothing else. *)
Theorem zombieKiller_kills_exactly_the_old m killIfOlderThan :
  (forall instance, In instance (instances (__apiState m)) ->
     ~ In (Instance.Region instance) inheritedNames) ->
  exists calls,
    zombieKiller m killIfOlderThan = JS.Ok calls
    /\ forall call,
         In call calls
         <-> exists region,
               launchedBefore m killIfOlderThan region <> []
               /\ call = Ec2.terminateInstances region
                           (launchedBefore m killIfOlderThan region).
Proof.
  intros Hnames. unfold zombieKiller.
  destruct (pushZombie_loop
              (filter (fun instance => Instance.LaunchTime instance <? killIfOlderThan)
                      (instances (__apiState m)))
              [] (NoDup_nil _)) as (zombies & Hrun & Hnd & Hget).
  { intros instance Hin. apply filter_In in Hin. destruct Hin as [Hin _].
    destruct (JS.includes inheritedNames (Instance.Region instance)) eqn:E;
      [| reflexivity].
    apply includes_In in E. now apply Hnames in E. }
  rewrite Hrun. cbn [JS.bind]. rewrite zombie_calls_loop. cbn [app].
  eexists. split; [reflexivity |].
  assert (Hids : forall region,
             getKey region zombies
             = match launchedBefore m killIfOlderThan region with
               | [] => None
               | ids => Some ids
               end).
  { intros region. rewrite Hget. cbn [getKey]. unfold launchedBefore.
    now rewrite filter_filter. }
  intros call. rewrite in_flat_map. split.
  - intros ([region ids] & Hentry & Hcall). cbn [fst snd] in Hcall.
    apply (In_getKey _ _ _ Hnd) in Hentry. rewrite Hids in Hentry.
    exists region.
    destruct (launchedBefore m killIfOlderThan region) as [|id rest];
      [discriminate |].
    injection Hentry as <-. split; [discriminate |].
    destruct Hcall as [<- | []]. reflexivity.
  - intros (region & Hsome & ->).
    exists (region, launchedBefore m killIfOlderThan region). split.
    + apply getKey_In. rewrite Hids.
      destruct (launchedBefore m killIfOlderThan region); [now destruct Hsome |].
      reflexivity.
    + cbn [fst snd].
      destruct (launchedBefore m killIfOlderThan region); [now destruct Hsome |].
      now left.
Qed.

(** X23 on the fleet of two instances, both launched before the date. *)
Lemma zombieKiller_kills_exactly_the_old_witness :
  exists calls,
    zombieKiller smallFleet 1 = JS.Ok calls
    /\ forall call,
         In call calls
         <-> exists region,
               launchedBefore smallFleet 1 region <> []
               /\ call = Ec2.terminateInstances region
                           (launchedBefore smallFleet 1 region).
Proof.
  apply (zombieKiller_kills_exactly_the_old smallFleet 1).
  intros instance Hin.
  each_element Hin ltac:(simpl; intuition discriminate).
Defined.

Example zombieKiller_on_the_small_fleet :
  zombieKiller smallFleet 1
  = JS.Ok [Ec2.terminateInstances "us-west-2" ["i-1"];
           Ec2.terminateInstances "us-east-1" ["i-2"]]
  /\ zombieKiller smallFleet 0 = JS.Ok [].
Proof. split; reflexivity. Qed.

(** ** [handleStalledRequests] *)

Lemma setKey_fresh {V} k (v : V) o :
  ~ In k (map fst o) -> setKey k v o = o ++ [(k, v)].
Proof.
  induction o as [|[k0 v0] o IH]; cbn [setKey map fst In app]; intros H.
  - reflexivity.
  - destruct (String.eqb k0 k) eqn:E.
    + apply String.eqb_eq in E. tauto.
    + rewrite IH; [reflexivity | tauto].
Qed.

(** On a response whose regions are distinct, the stalled bucket has the
    regions of the response, in their order. *)
Lemma filterSpotRequests_stalled_from LocalTZA now l : forall data,
  NoDup (map fst (data_stalled data) ++ map fst l) ->
  data_stalled
    (fold_left
       (fun data entry =>
          let region := fst entry in
          let b := filterRegion LocalTZA now region (snd entry) in
          {| data_good := setKey region (good b) (data_good data);
             data_stalled := setKey region (stalled b) (data_stalled data);
             data_reported := data_reported data ++ reported b |})
       l data)
  = data_stalled data
    ++ map (fun entry =>
              (fst entry, stalled (filterRegion LocalTZA now (fst entry) (snd entry)))) l.
Proof.
  induction l as [|[region reqs] l IH]; intros data Hnd; cbn [fold_left map].
  - now rewrite app_nil_r.
  - cbn [fst snd] in *.
    assert (Hfresh : ~ In region (map fst (data_stalled data))).
    { apply NoDup_remove_2 in Hnd. intros Hin. apply Hnd.
      apply in_or_app. now left. }
    rewrite IH; cbn [data_stalled].
    + rewrite (setKey_fresh _ _ _ Hfresh), <- app_assoc. reflexivity.
    + rewrite (setKey_fresh _ _ _ Hfresh), map_app, <- app_assoc. exact Hnd.
Qed.

Lemma filterSpotRequests_stalled LocalTZA now spotReqs :
  NoDup (map fst spotReqs) ->
  data_stalled (_filterSpotRequests LocalTZA now spotReqs)
  = map (fun entry =>
           (fst entry, stalled (filterRegion LocalTZA now (fst entry) (snd entry))))
        spotReqs.
Proof.
  intros Hnd. unfold _filterSpotRequests.
  now rewrite filterSpotRequests_stalled_from.
Qed.

Lemma handleStalledRequests_loop (spotReqs : object (list SpotRequest.t)) sentSoFar :
  JS.foldM
    (fun sentSoFar entry =>
       calls <- killCancel (fst entry) (Some [])
                  (Some (map SpotRequest.SpotInstanceRequestId (snd entry))) ;;
       JS.Ok (sentSoFar ++ calls))
    spotReqs sentSoFar
  = JS.Ok (sentSoFar ++
           flat_map (fun entry =>
                       match snd entry with
                       | [] => []
                       | _ :: _ =>
                           [Ec2.cancelSpotInstanceRequests (fst entry)
                              (map SpotRequest.SpotInstanceRequestId (snd entry))]
                       end) spotReqs).
Proof.
  revert sentSoFar.
  induction spotReqs as [|[region reqs] spotReqs IH]; intros sentSoFar;
    cbn [JS.foldM flat_map].
  - now rewrite app_nil_r.
  - unfold killCancel. cbn [fst snd orEmpty JS.bind app]. rewrite IH.
    rewrite app_assoc. destruct reqs; reflexivity.
Qed.

(** X24: [handleStalledRequests] never raises and never terminates an
    instance: it sends one [cancelSpotInstanceRequests] for every region
    that has a request, with the ids of all the requests of the region in
    their order, and nothing for a region without requests. *)
Theorem handleStalledRequests_cancels_each_region spotReqs :
  exists calls,
    handleStalledRequests spotReqs = JS.Ok calls
    /\ forall call,
         In call calls
         <-> exists region reqs,
               In (region, reqs) spotReqs
               /\ reqs <> []
               /\ call = Ec2.cancelSpotInstanceRequests region
                           (map SpotRequest.SpotInstanceRequestId reqs).
Proof.
  unfold handleStalledRequests. rewrite handleStalledRequests_loop. cbn [app].
  eexists. split; [reflexivity |].
  intros call. rewrite in_flat_map. split.
  - intros ([region reqs] & Hentry & Hcall). cbn [fst snd] in Hcall.
    exists region, reqs. split; [exact Hentry |].
    destruct reqs; [destruct Hcall |]. split; [discriminate |].
    destruct Hcall as [<- | []]. reflexivity.
  - intros (region & reqs & Hentry & Hsome & ->).
    exists (region, reqs). split; [exact Hentry |]. cbn [fst snd].
    destruct reqs; [now destruct Hsome | now left].
Qed.

(** Handling the stalled bucket of [_filterSpotRequests], on a response
    whose regions are distinct: every request whose kill time is before now
    or whose status code is one of [stalledStates] is cancelled in a call
    for its region, and nothing is cancelled but such requests. *)
Lemma stalled_requests_are_cancelled LocalTZA now spotReqs :
  NoDup (map fst spotReqs) ->
  exists calls,
    handleStalledRequests (data_stalled (_filterSpotRequests LocalTZA now spotReqs))
    = JS.Ok calls
    /\ (forall region reqs sr,
          In (region, reqs) spotReqs -> In sr reqs -> isStalled LocalTZA now sr = true ->
          exists ids,
            In (Ec2.cancelSpotInstanceRequests region ids) calls
            /\ In (SpotRequest.SpotInstanceRequestId sr) ids)
    /\ (forall call,
          In call calls ->
          exists region reqs ids,
            In (region, reqs) spotReqs
            /\ call = Ec2.cancelSpotInstanceRequests region ids
            /\ forall id,
                 In id ids ->
                 exists sr,
                   In sr reqs /\ isStalled LocalTZA now sr = true
                   /\ SpotRequest.SpotInstanceRequestId sr = id).
Proof.
  intros Hnd. unfold handleStalledRequests.
  rewrite handleStalledRequests_loop, (filterSpotRequests_stalled _ _ _ Hnd).
  cbn [app]. eexists. split; [reflexivity |]. split.
  - intros region reqs sr Hentry Hsr Hstalled.
    exists (map SpotRequest.SpotInstanceRequestId
              (stalled (filterRegion LocalTZA now region reqs))).
    assert (Hin : In sr (stalled (filterRegion LocalTZA now region reqs)))
      by (apply filterRegion_stalled; now split).
    split; [| now apply in_map].
    apply in_flat_map. exists (region, stalled (filterRegion LocalTZA now region reqs)).
    split.
    + apply in_map_iff. now exists (region, reqs).
    + cbn [fst snd]. destruct (stalled (filterRegion LocalTZA now region reqs));
        [destruct Hin | now left].
  - intros call Hcall. apply in_flat_map in Hcall.
    destruct Hcall as ([region bucket] & Hentry & Hcall).
    apply in_map_iff in Hentry.
    destruct Hentry as ([region' reqs] & E & Hentry). cbn [fst snd] in E.
    injection E as -> <-. cbn [fst snd] in Hcall.
    destruct (stalled (filterRegion LocalTZA now region reqs)) as [|sr0 rest] eqn:Eb;
      [destruct Hcall |].
    destruct Hcall as [<- | []].
    exists region, reqs, (map SpotRequest.SpotInstanceRequestId (sr0 :: rest)).
    split; [exact Hentry |]. split; [reflexivity |].
    intros id Hid. apply in_map_iff in Hid. destruct Hid as (sr & <- & Hsr).
    rewrite <- Eb in Hsr. apply filterRegion_stalled in Hsr. exists sr. tauto.
Qed.

(** ** [emulateOldStateFormat] *)

Lemma getKey_ensureType type oldState k :
  getKey k (ensureType type oldState)
  = if String.eqb type k
    then match getKey type oldState with
         | Some s => Some s
         | None => if JS.includes inheritedNames type then None else Some noneYet
         end
    else getKey k oldState.
Proof.
  unfold ensureType.
  destruct (getKey type oldState) as [s|] eqn:E.
  - destruct (String.eqb type k) eqn:Ek; [| reflexivity].
    apply String.eqb_eq in Ek. now subst k.
  - destruct (JS.includes inheritedNames type).
    + destruct (String.eqb type k) eqn:Ek; [| reflexivity].
      apply String.eqb_eq in Ek. now subst k.
    + rewrite getKey_setKey. destruct (String.eqb type k); reflexivity.
Qed.

Lemma withInstances_cons s i l :
  withInstances (withInstances s [i]) l = withInstances s (i :: l).
Proof.
  unfold withInstances. cbn [filter map running pending spotReq].
  destruct (String.eqb (Instance.StateName i) "running");
    destruct (String.eqb (Instance.StateName i) "pending");
    destruct (String.eqb (Instance.StateName i) "spotReq");
    cbn [map]; rewrite <- ?app_assoc; reflexivity.
Qed.

Lemma withInstances_nil s : withInstances s [] = s.
Proof.
  destruct s. unfold withInstances. cbn. now rewrite !app_nil_r.
Qed.

Lemma withRequests_cons s r l :
  withRequests (withRequests s [r]) l = withRequests s (r :: l).
Proof.
  unfold withRequests. cbn [map running pending spotReq].
  now rewrite <- app_assoc.
Qed.

Lemma withRequests_nil s : withRequests s [] = s.
Proof.
  destruct s. unfold withRequests. cbn. now rewrite app_nil_r.
Qed.

(** One instance is filed when, and only when, its state is the name of one
    of the three lists and its worker type is not an inherited name. *)
Lemma pushByState_step instance oldState :
  ownNames oldState ->
  match pushByState instance (ensureType (Instance.WorkerType instance) oldState) with
  | JS.Ok oldState' =>
      In (Instance.StateName instance) ["running"; "pending"; "spotReq"]
      /\ JS.includes inheritedNames (Instance.WorkerType instance) = false
      /\ ownNames oldState'
      /\ forall workerType,
           getKey workerType oldState'
           = if String.eqb (Instance.WorkerType instance) workerType
             then Some (withInstances
                          match getKey workerType oldState with
                          | Some s => s
                          | None => noneYet
                          end [instance])
             else getKey workerType oldState
  | JS.Throw _ =>
      ~ In (Instance.StateName instance) ["running"; "pending"; "spotReq"]
      \/ JS.includes inheritedNames (Instance.WorkerType instance) = true
  end.
Proof.
  intros Hown. unfold pushByState. rewrite getKey_ensureType, String.eqb_refl.
  assert (Hset : forall s s',
             (s = match getKey (Instance.WorkerType instance) oldState with
                  | Some s0 => s0
                  | None => noneYet
                  end) ->
             JS.includes inheritedNames (Instance.WorkerType instance) = false ->
             s' = withInstances s [instance] ->
             ownNames (setKey (Instance.WorkerType instance) s'
                         (ensureType (Instance.WorkerType instance) oldState))
             /\ forall workerType,
                  getKey workerType
                    (setKey (Instance.WorkerType instance) s'
                       (ensureType (Instance.WorkerType instance) oldState))
                  = if String.eqb (Instance.WorkerType instance) workerType
                    then Some (withInstances
                                 match getKey workerType oldState with
                                 | Some s => s
                                 | None => noneYet
                                 end [instance])
                    else getKey workerType oldState).
  { intros s s' Hs Hname ->. split.
    - intros k s0. rewrite getKey_setKey, getKey_ensureType.
      destruct (String.eqb (Instance.WorkerType instance) k) eqn:Ek.
      + apply String.eqb_eq in Ek. now subst k.
      + apply Hown.
    - intros workerType. rewrite getKey_setKey, getKey_ensureType.
      destruct (String.eqb (Instance.WorkerType instance) workerType) eqn:Ek;
        [| reflexivity].
      apply String.eqb_eq in Ek. subst workerType. now rewrite Hs. }
  assert (Hname : forall s,
             getKey (Instance.WorkerType instance) oldState = Some s ->
             JS.includes inheritedNames (Instance.WorkerType instance) = false)
    by (intros s; apply Hown).
  assert (Hcase :
            forall s,
              (s = match getKey (Instance.WorkerType instance) oldState with
                   | Some s0 => s0
                   | None => noneYet
                   end) ->
              JS.includes inheritedNames (Instance.WorkerType instance) = false ->
              match
                (if String.eqb (Instance.StateName instance) "running" then
                   JS.Ok (setKey (Instance.WorkerType instance)
                            {| running := running s ++ [instance];
                               pending := pending s;
                               spotReq := spotReq s |}
                            (ensureType (Instance.WorkerType instance) oldState))
                 else if String.eqb (Instance.StateName instance) "pending" then
                   JS.Ok (setKey (Instance.WorkerType instance)
                            {| running := running s;
                               pending := pending s ++ [instance];
                               spotReq := spotReq s |}
                            (ensureType (Instance.WorkerType instance) oldState))
                 else if String.eqb (Instance.StateName instance) "spotReq" then
                   JS.Ok (setKey (Instance.WorkerType instance)
                            {| running := running s;
                               pending := pending s;
                               spotReq := spotReq s ++ [inl instance] |}
                            (ensureType (Instance.WorkerType instance) oldState))
                 else JS.Throw (JS.TypeError "Cannot read property 'push' of undefined"))
              with
              | JS.Ok oldState' =>
                  In (Instance.StateName instance) ["running"; "pending"; "spotReq"]
                  /\ JS.includes inheritedNames (Instance.WorkerType instance) = false
                  /\ ownNames oldState'
                  /\ forall workerType,
                       getKey workerType oldState'
                       = if String.eqb (Instance.WorkerType instance) workerType
                         then Some (withInstances
                                      match getKey workerType oldState with
                                      | Some s => s
                                      | None => noneYet
                                      end [instance])
                         else getKey workerType oldState
              | JS.Throw _ =>
                  ~ In (Instance.StateName instance) ["running"; "pending"; "spotReq"]
                  \/ JS.includes inheritedNames (Instance.WorkerType instance) = true
              end).
  { intros s Hs Hn.
    destruct (String.eqb (Instance.StateName instance) "running") eqn:E1;
      [| destruct (String.eqb (Instance.StateName instance) "pending") eqn:E2;
         [| destruct (String.eqb (Instance.StateName instance) "spotReq") eqn:E3]].
    - split; [apply String.eqb_eq in E1; rewrite E1; now left |].
      split; [exact Hn |]. apply (Hset s); [exact Hs | exact Hn |].
      unfold withInstances. cbn [filter map]. rewrite E1.
      apply String.eqb_eq in E1. rewrite E1. cbn [String.eqb Ascii.eqb Bool.eqb map].
      now rewrite !app_nil_r.
    - split; [apply String.eqb_eq in E2; rewrite E2; right; now left |].
      split; [exact Hn |]. apply (Hset s); [exact Hs | exact Hn |].
      unfold withInstances. cbn [filter map]. rewrite E1, E2.
      apply String.eqb_eq in E2. rewrite E2. cbn [String.eqb Ascii.eqb Bool.eqb map].
      now rewrite !app_nil_r.
    - split; [apply String.eqb_eq in E3; rewrite E3; right; right; now left |].
      split; [exact Hn |]. apply (Hset s); [exact Hs | exact Hn |].
      unfold withInstances. cbn [filter map]. rewrite E1, E2, E3. cbn [map].
      now rewrite !app_nil_r.
    - left. intros [H | [H | [H | []]]]; rewrite <- H in *;
        cbn in E1, E2, E3; discriminate. }
  destruct (getKey (Instance.WorkerType instance) oldState) as [s|] eqn:E.
  - apply Hcase; [reflexivity | now apply (Hname s)].
  - destruct (JS.includes inheritedNames (Instance.WorkerType instance)) eqn:En.
    + now right.
    + apply Hcase; reflexivity.
Qed.

Lemma pushSpotReq_step request oldState :
  ownNames oldState ->
  match pushSpotReq request (ensureType (SpotRequest.WorkerType request) oldState) with
  | JS.Ok oldState' =>
      JS.includes inheritedNames (SpotRequest.WorkerType request) = false
      /\ ownNames oldState'
      /\ forall workerType,
           getKey workerType oldState'
           = if String.eqb (SpotRequest.WorkerType request) workerType
             then Some (withRequests
                          match getKey workerType oldState with
                          | Some s => s
                          | None => noneYet
                          end [request])
             else getKey workerType oldState
  | JS.Throw _ =>
      JS.includes inheritedNames (SpotRequest.WorkerType request) = true
  end.
Proof.
  intros Hown. unfold pushSpotReq. rewrite getKey_ensureType, String.eqb_refl.
  assert (Hset : forall s,
             (s = match getKey (SpotRequest.WorkerType request) oldState with
                  | Some s0 => s0
                  | None => noneYet
                  end) ->
             JS.includes inheritedNames (SpotRequest.WorkerType request) = false ->
             JS.includes inheritedNames (SpotRequest.WorkerType request) = false
             /\ ownNames (setKey (SpotRequest.WorkerType request)
                            {| running := running s;
                               pending := pending s;
                               spotReq := spotReq s ++ [inr request] |}
                            (ensureType (SpotRequest.WorkerType request) oldState))
             /\ forall workerType,
                  getKey workerType
                    (setKey (SpotRequest.WorkerType request)
                       {| running := running s;
                          pending := pending s;
                          spotReq := spotReq s ++ [inr request] |}
                       (ensureType (SpotRequest.WorkerType request) oldState))
                  = if String.eqb (SpotRequest.WorkerType request) workerType
                    then Some (withRequests
                                 match getKey workerType oldState with
                                 | Some s => s
                                 | None => noneYet
                                 end [request])
                    else getKey workerType oldState).
  { intros s Hs Hname. split; [exact Hname |]. split.
    - intros k s0. rewrite getKey_setKey, getKey_ensureType.
      destruct (String.eqb (SpotRequest.WorkerType request) k) eqn:Ek.
      + apply String.eqb_eq in Ek. now subst k.
      + apply Hown.
    - intros workerType. rewrite getKey_setKey, getKey_ensureType.
      destruct (String.eqb (SpotRequest.WorkerType request) workerType) eqn:Ek;
        [| reflexivity].
      apply String.eqb_eq in Ek. subst workerType. now rewrite Hs. }
  destruct (getKey (SpotRequest.WorkerType request) oldState) as [s|] eqn:E.
  - apply Hset; [reflexivity | now apply (Hown _ s)].
  - destruct (JS.includes inheritedNames (SpotRequest.WorkerType request)) eqn:En.
    + reflexivity.
    + apply Hset; reflexivity.
Qed.

(** The loop over the instances, worker type by worker type. *)
Lemma pushByState_loop l : forall oldState,
  ownNames oldState ->
  match JS.foldM (fun oldState instance =>
                    pushByState instance
                      (ensureType (Instance.WorkerType instance) oldState))
                 l oldState with
  | JS.Ok oldState' =>
      (forall instance, In instance l ->
         In (Instance.StateName instance) ["running"; "pending"; "spotReq"]
         /\ JS.includes inheritedNames (Instance.WorkerType instance) = false)
      /\ ownNames oldState'
      /\ forall workerType,
           getKey workerType oldState'
           = match getKey workerType oldState,
                   filter (fun i => String.eqb (Instance.WorkerType i) workerType) l
             with
             | None, [] => None
             | None, mine => Some (withInstances noneYet mine)
             | Some s, mine => Some (withInstances s mine)
             end
  | JS.Throw _ =>
      exists instance,
        In instance l
        /\ (~ In (Instance.StateName instance) ["running"; "pending"; "spotReq"]
            \/ JS.includes inheritedNames (Instance.WorkerType instance) = true)
  end.
Proof.
  induction l as [|x l IH]; intros oldState Hown; cbn [JS.foldM].
  - split; [intros i [] |]. split; [exact Hown |].
    intros workerType. cbn [filter].
    destruct (getKey workerType oldState); [now rewrite withInstances_nil | reflexivity].
  - pose proof (pushByState_step x oldState Hown) as Hstep.
    destruct (pushByState x (ensureType (Instance.WorkerType x) oldState))
      as [o1|e]; cbn [JS.bind].
    + destruct Hstep as (Hstate & Hname & Hown1 & Hget1).
      specialize (IH o1 Hown1).
      destruct (JS.foldM _ l o1) as [o'|e'].
      * destruct IH as (Hl & Hown' & Hget). split; [| split; [exact Hown' |]].
        -- intros i [<- | Hi]; [now split | now apply Hl].
        -- intros workerType. rewrite Hget, Hget1. cbn [filter].
           destruct (String.eqb (Instance.WorkerType x) workerType).
           ++ rewrite withInstances_cons.
              destruct (getKey workerType oldState); reflexivity.
           ++ reflexivity.
      * destruct IH as (i & Hi & Hwhy). exists i. split; [now right | exact Hwhy].
    + exists x. split; [now left | exact Hstep].
Qed.

(** The loop over the requests. *)
Lemma pushSpotReq_loop l : forall oldState,
  ownNames oldState ->
  match JS.foldM (fun oldState request =>
                    pushSpotReq request
                      (ensureType (SpotRequest.WorkerType request) oldState))
                 l oldState with
  | JS.Ok oldState' =>
      (forall request, In request l ->
         JS.includes inheritedNames (SpotRequest.WorkerType request) = false)
      /\ forall workerType,
           getKey workerType oldState'
           = match getKey workerType oldState,
                   filter (fun r => String.eqb (SpotRequest.WorkerType r) workerType) l
             with
             | None, [] => None
             | None, mine => Some (withRequests noneYet mine)
             | Some s, mine => Some (withRequests s mine)
             end
  | JS.Throw _ =>
      exists request,
        In request l
        /\ JS.includes inheritedNames (SpotRequest.WorkerType request) = true
  end.
Proof.
  induction l as [|x l IH]; intros oldState Hown; cbn [JS.foldM].
  - split; [intros i [] |].
    intros workerType. cbn [filter].
    destruct (getKey workerType oldState); [now rewrite withRequests_nil | reflexivity].
  - pose proof (pushSpotReq_step x oldState Hown) as Hstep.
    destruct (pushSpotReq x (ensureType (SpotRequest.WorkerType x) oldState))
      as [o1|e]; cbn [JS.bind].
    + destruct Hstep as (Hname & Hown1 & Hget1).
      specialize (IH o1 Hown1).
      destruct (JS.foldM _ l o1) as [o'|e'].
      * destruct IH as (Hl & Hget). split.
        -- intros i [<- | Hi]; [exact Hname | now apply Hl].
        -- intros workerType. rewrite Hget, Hget1. cbn [filter].
           destruct (String.eqb (SpotRequest.WorkerType x) workerType).
           ++ rewrite withRequests_cons.
              destruct (getKey workerType oldState); reflexivity.
           ++ reflexivity.
      * destruct IH as (i & Hi & Hwhy). exists i. split; [now right | exact Hwhy].
    + exists x. split; [now left | exact Hstep].
Qed.

Lemma ownNames_empty : ownNames [].
Proof. intros k s. discriminate. Qed.

Lemma filter_by_worker_type {A} (typeOf : A -> string) workerType l :
  filter (fun x => JS.includes [workerType] (typeOf x)) l
  = filter (fun x => String.eqb (typeOf x) workerType) l.
Proof.
  apply filter_ext. intros x. apply includes_singleton.
Qed.

(** X25: [emulateOldStateFormat] returns exactly when every instance of the
    api state is in a state named [running], [pending] or [spotReq] and no
    instance and no request has a worker type named as a property that
    every object inherits; otherwise it raises. *)
Theorem emulateOldStateFormat_returns_iff m :
  (exists oldState, emulateOldStateFormat m = JS.Ok oldState)
  <-> (forall instance, In instance (instances (__apiState m)) ->
         In (Instance.StateName instance) ["running"; "pending"; "spotReq"]
         /\ ~ In (Instance.WorkerType instance) inheritedNames)
      /\ (forall request, In request (requests (__apiState m)) ->
            ~ In (SpotRequest.WorkerType request) inheritedNames).
Proof.
  unfold emulateOldStateFormat.
  pose proof (pushByState_loop (instances (__apiState m)) [] ownNames_empty) as Hi.
  match type of Hi with
  | match ?c with _ => _ end => destruct c as [o1|e]
  end; cbn [JS.bind].
  - destruct Hi as (Hinst & Hown & _).
    pose proof (pushSpotReq_loop (requests (__apiState m)) o1 Hown) as Hr.
    match type of Hr with
    | match ?c with _ => _ end => destruct c as [o2|e]
    end.
    + destruct Hr as (Hreq & _). split; [| eauto]. intros _. split.
      * intros i Hin. destruct (Hinst i Hin) as (Hs & Hn).
        split; [exact Hs | now apply includes_not_In].
      * intros r Hin. apply includes_not_In. now apply Hreq.
    + destruct Hr as (r & Hin & Hn). split; [intros (o & [=]) |].
      intros (_ & Hreq). exfalso. apply includes_In in Hn. now apply Hreq in Hn.
  - destruct Hi as (i & Hin & Hwhy). split; [intros (o & [=]) |].
    intros (Hinst & _). exfalso. destruct (Hinst i Hin) as (Hs & Hn).
    destruct Hwhy as [Hwhy | Hwhy]; [now apply Hwhy |].
    apply includes_In in Hwhy. now apply Hn.
Qed.

(** X26: what [emulateOldStateFormat] returns holds, for every worker type,
    nothing when the api state has no instance and no request of it, and
    otherwise its running instances, its pending instances and, under
    [spotReq], its instances in a state of that name followed by its
    requests, each list in the order of the api state. *)
Theorem emulateOldStateFormat_groups m oldState :
  emulateOldStateFormat m = JS.Ok oldState ->
  forall workerType, getKey workerType oldState = oldStateOf m workerType.
Proof.
  unfold emulateOldStateFormat.
  pose proof (pushByState_loop (instances (__apiState m)) [] ownNames_empty) as Hi.
  match type of Hi with
  | match ?c with _ => _ end => destruct c as [o1|e]
  end; cbn [JS.bind]; [| discriminate].
  destruct Hi as (_ & Hown & Hget1).
  pose proof (pushSpotReq_loop (requests (__apiState m)) o1 Hown) as Hr.
  match type of Hr with
  | match ?c with _ => _ end => destruct c as [o2|e]
  end; [| discriminate].
  destruct Hr as (_ & Hget2). intros [= <-] workerType.
  rewrite Hget2, Hget1. cbn [getKey].
  unfold oldStateOf, instancesOfType, requestsOfType.
  rewrite (filter_by_worker_type Instance.WorkerType),
    (filter_by_worker_type SpotRequest.WorkerType).
  destruct (filter _ (instances (__apiState m))) as [|i mine];
    destruct (filter _ (requests (__apiState m))) as [|r theirs];
    reflexivity.
Qed.

(** X26 on the mixed fleet: two running instances and one request of
    [builder], and no other worker type. *)
Lemma emulateOldStateFormat_groups_witness :
  emulateOldStateFormat mixedFleet
  = JS.Ok [("builder",
            {| running := instances (__apiState mixedFleet);
               pending := [];
               spotReq := map inr (requests (__apiState mixedFleet)) |})]
  /\ forall workerType,
       getKey workerType
         [("builder",
           {| running := instances (__apiState mixedFleet);
              pending := [];
              spotReq := map inr (requests (__apiState mixedFleet)) |})]
       = oldStateOf mixedFleet workerType.
Proof.
  split; [reflexivity |].
  apply (emulateOldStateFormat_groups mixedFleet). reflexivity.
Defined.

(** ** [update] *)

(** What a resolved [update] went through, and the state it leaves. *)
Lemma update_resolved LocalTZA m res now u :
  update LocalTZA m res now = JS.Ok u ->
  exists apiState deadState m2,
    _classify m (livingInstances res)
      (data_good (_filterSpotRequests LocalTZA now (livingSpotRequests res)))
    = JS.Ok apiState
    /\ _classify m (deadInstances res) (deadSpotRequests res) = JS.Ok deadState
    /\ handleStalledRequests
         (data_stalled (_filterSpotRequests LocalTZA now (livingSpotRequests res)))
       = JS.Ok (cancelled u)
    /\ __apiState (updated u) = apiState
    /\ __previousApiState (updated u) = __apiState m
    /\ __deadState (updated u) = deadState
    /\ regions (updated u) = regions m
    /\ __internalState (updated u)
       = filter (fun request =>
                   fst (stillInFlight m2 now
                          (knownSpotInstanceRequestIds (updated u)) request))
                (__internalState m).
Proof.
  unfold update.
  destruct (_classify m (livingInstances res) _) as [apiState|e] eqn:E1;
    [| discriminate].
  cbn [JS.bind].
  destruct (_classify m (deadInstances res) _) as [deadState|e] eqn:E2;
    [| discriminate].
  cbn [JS.bind]. unfold _reconcileStateDifferences.
  destruct (reconcileStateDifferences _ _ _ _ _) as [[awaitingSpot awaitingReason] pts].
  destruct (handleStalledRequests _) as [calls|e] eqn:E3; [| discriminate].
  cbn [JS.bind]. unfold _reconcileInternalState. intros [= <-].
  exists apiState, deadState.
  eexists. cbn [updated cancelled].
  repeat (split; [reflexivity |]). reflexivity.
Qed.

Lemma getKey_keys {V} k (o : object V) :
  (exists v, getKey k o = Some v) <-> In k (keys o).
Proof.
  unfold keys. induction o as [|[k0 v0] o IH]; cbn [getKey map fst In].
  - split; [intros (v & [=]) | intros []].
  - destruct (String.eqb k0 k) eqn:E.
    + apply String.eqb_eq in E. subst k0. split; eauto.
    + rewrite IH. split; [auto | intros [-> | H]; [| exact H]].
      now rewrite String.eqb_refl in E.
Qed.

Lemma getKey_map_entries {V W} (f : string -> V -> W) k (o : object V) :
  getKey k (map (fun entry => (fst entry, f (fst entry) (snd entry))) o)
  = option_map (f k) (getKey k o).
Proof.
  induction o as [|[k0 v0] o IH]; cbn [map getKey fst snd]; [reflexivity |].
  destruct (String.eqb k0 k) eqn:E; [| exact IH].
  apply String.eqb_eq in E. now subst k0.
Qed.

(** The good bucket has the regions of the response. *)
Lemma filterSpotRequests_good_keys_from LocalTZA now l region : forall data,
  In region (keys (data_good
    (fold_left
       (fun data entry =>
          let region := fst entry in
          let b := filterRegion LocalTZA now region (snd entry) in
          {| data_good := setKey region (good b) (data_good data);
             data_stalled := setKey region (stalled b) (data_stalled data);
             data_reported := data_reported data ++ reported b |})
       l data)))
  <-> In region (keys (data_good data)) \/ In region (keys l).
Proof.
  unfold keys.
  induction l as [|[r reqs] l IH]; intros data; cbn [fold_left map fst In].
  - tauto.
  - rewrite IH. cbn [data_good fst snd]. rewrite setKey_keys.
    intuition congruence.
Qed.

Lemma filterSpotRequests_good_keys LocalTZA now spotReqs region :
  In region (keys (data_good (_filterSpotRequests LocalTZA now spotReqs)))
  <-> In region (keys spotReqs).
Proof.
  unfold _filterSpotRequests. rewrite filterSpotRequests_good_keys_from.
  cbn. tauto.
Qed.

(** On a response whose regions are distinct, the good bucket of a region
    is what [filterRegion] keeps of its requests. *)
Lemma filterSpotRequests_good_from LocalTZA now l : forall data,
  NoDup (keys (data_good data) ++ keys l) ->
  data_good
    (fold_left
       (fun data entry =>
          let region := fst entry in
          let b := filterRegion LocalTZA now region (snd entry) in
          {| data_good := setKey region (good b) (data_good data);
             data_stalled := setKey region (stalled b) (data_stalled data);
             data_reported := data_reported data ++ reported b |})
       l data)
  = data_good data
    ++ map (fun entry =>
              (fst entry, good (filterRegion LocalTZA now (fst entry) (snd entry)))) l.
Proof.
  unfold keys.
  induction l as [|[region reqs] l IH]; intros data Hnd; cbn [fold_left map].
  - now rewrite app_nil_r.
  - cbn [fst snd] in *.
    assert (Hfresh : ~ In region (map fst (data_good data))).
    { apply NoDup_remove_2 in Hnd. intros Hin. apply Hnd.
      apply in_or_app. now left. }
    rewrite IH; cbn [data_good].
    + rewrite (setKey_fresh _ _ _ Hfresh), <- app_assoc. reflexivity.
    + rewrite (setKey_fresh _ _ _ Hfresh), map_app, <- app_assoc. exact Hnd.
Qed.

Lemma filterSpotRequests_good LocalTZA now spotReqs region :
  NoDup (keys spotReqs) ->
  getKey region (data_good (_filterSpotRequests LocalTZA now spotReqs))
  = option_map
      (filter (fun sr => negb (JS.includes stalledStates (SpotRequest.StatusCode sr))))
      (getKey region spotReqs).
Proof.
  intros Hnd. unfold _filterSpotRequests.
  rewrite filterSpotRequests_good_from by exact Hnd. cbn [data_good app].
  rewrite (getKey_map_entries (fun region reqs => good (filterRegion LocalTZA now region reqs))).
  destruct (getKey region spotReqs) as [reqs|]; [| reflexivity].
  cbn [option_map]. now rewrite filterRegion_good.
Qed.

(** [_classify] returns when every region has an answer. *)
Lemma classify_resolves m instanceState spotReqs :
  (forall region, In region (regions m) ->
     In region (keys instanceState) /\ In region (keys spotReqs)) ->
  exists state, _classify m instanceState spotReqs = JS.Ok state.
Proof.
  unfold _classify. generalize {| instances := []; requests := [] |}.
  induction (regions m) as [|r l IH]; intros s Hkeys; cbn [JS.foldM].
  - eauto.
  - destruct (Hkeys r (or_introl eq_refl)) as (Hi & Hr).
    apply getKey_keys in Hi, Hr. destruct Hi as (Reservations & ->).
    destruct Hr as (reqs & ->). cbn [JS.bind]. apply IH.
    intros region Hin. apply Hkeys. now right.
Qed.

Lemma classify_keys m instanceState spotReqs state :
  _classify m instanceState spotReqs = JS.Ok state ->
  forall region, In region (regions m) ->
    In region (keys instanceState) /\ In region (keys spotReqs).
Proof.
  unfold _classify. intros H region Hin.
  apply classify_from in H as (Hkeys & _).
  destruct (Hkeys region Hin) as (Reservations & reqs & Ei & Er).
  split; apply getKey_keys; eauto.
Qed.

(** X27: [update] resolves exactly when each of the four answers of EC2 has
    every region of the manager; otherwise its promise is rejected. *)
Theorem update_resolves_iff LocalTZA m res now :
  (exists u, update LocalTZA m res now = JS.Ok u)
  <-> forall region, In region (regions m) ->
        In region (keys (livingInstances res))
        /\ In region (keys (livingSpotRequests res))
        /\ In region (keys (deadInstances res))
        /\ In region (keys (deadSpotRequests res)).
Proof.
  split.
  - intros (u & Hu) region Hin.
    apply update_resolved in Hu
      as (apiState & deadState & m2 & Hliving & Hdead & _).
    destruct (classify_keys _ _ _ _ Hliving region Hin) as (H1 & H2).
    destruct (classify_keys _ _ _ _ Hdead region Hin) as (H3 & H4).
    apply filterSpotRequests_good_keys in H2. tauto.
  - intros Hkeys. unfold update.
    destruct (classify_resolves m (livingInstances res)
                (data_good (_filterSpotRequests LocalTZA now (livingSpotRequests res))))
      as (apiState & ->).
    { intros region Hin. rewrite filterSpotRequests_good_keys.
      destruct (Hkeys region Hin) as (? & ? & _). tauto. }
    destruct (classify_resolves m (deadInstances res) (deadSpotRequests res))
      as (deadState & ->).
    { intros region Hin. destruct (Hkeys region Hin) as (_ & _ & ? & ?). tauto. }
    cbn [JS.bind]. unfold handleStalledRequests.
    rewrite handleStalledRequests_loop.
    destruct (_reconcileStateDifferences _ _ _ _ _) as [m2 reconciled].
    cbn [JS.bind]. destruct (_reconcileInternalState m2 now) as [m3 lag].
    eauto.
Qed.

(** X28: the api state a resolved [update] leaves.  The previous api state
    is the one the manager had; the instances are those EC2 described as
    living in the regions of the manager; and, on an answer whose regions
    are distinct, the requests are the open requests of those regions whose
    status code is not one of [stalledStates], whatever their age, each
    classified by region and key name. *)
Theorem update_classifies_the_living LocalTZA m res now u :
  NoDup (keys (livingSpotRequests res)) ->
  update LocalTZA m res now = JS.Ok u ->
  __previousApiState (updated u) = __apiState m
  /\ (forall classified,
        In classified (instances (__apiState (updated u)))
        <-> exists region Reservations reservation instance,
              In region (regions m)
              /\ getKey region (livingInstances res) = Some Reservations
              /\ In reservation Reservations
              /\ In instance reservation
              /\ classified = classifyInstance m region instance)
  /\ (forall classified,
        In classified (requests (__apiState (updated u)))
        <-> exists region reqs request,
              In region (regions m)
              /\ getKey region (livingSpotRequests res) = Some reqs
              /\ In request reqs
              /\ JS.includes stalledStates (SpotRequest.StatusCode request) = false
              /\ classified = classifyRequest m region request).
Proof.
  intros Hnd Hu.
  apply update_resolved in Hu
    as (apiState & deadState & m2 & Hliving & _ & _ & -> & Hprev & _).
  split; [exact Hprev |].
  unfold _classify in Hliving.
  apply classify_from in Hliving as (Hkeys & Hi & Hr).
  cbn [instances requests app] in Hi, Hr. split.
  - intros classified. rewrite Hi, in_flat_map. split.
    + intros (region & Hregion & Hin).
      destruct (getKey region (livingInstances res)) as [Reservations|] eqn:E;
        [| destruct Hin].
      apply in_map_iff in Hin as (instance & <- & Hin).
      apply in_concat in Hin as (reservation & Hres & Hin).
      exists region, Reservations, reservation, instance. auto.
    + intros (region & Reservations & reservation & instance
              & Hregion & E & Hres & Hin & ->).
      exists region. split; [exact Hregion |]. rewrite E.
      apply in_map, in_concat. eauto.
  - intros classified. rewrite Hr, in_flat_map. split.
    + intros (region & Hregion & Hin).
      rewrite (filterSpotRequests_good _ _ _ _ Hnd) in Hin.
      destruct (getKey region (livingSpotRequests res)) as [reqs|] eqn:E;
        [| destruct Hin].
      cbn [option_map] in Hin.
      apply in_map_iff in Hin as (request & <- & Hin).
      apply filter_In in Hin as (Hin & Hgood).
      apply negb_true_iff in Hgood.
      exists region, reqs, request. auto.
    + intros (region & reqs & request & Hregion & E & Hin & Hgood & ->).
      exists region. split; [exact Hregion |].
      rewrite (filterSpotRequests_good _ _ _ _ Hnd), E. cbn [option_map].
      apply in_map, filter_In. split; [exact Hin |]. now rewrite Hgood.
Qed.

(** X29: the tracker a resolved [update] leaves holds exactly the entries
    of the old tracker that were submitted less than 15 minutes before and
    whose request id the new api state does not know; and when every entry
    of the tracker was in a region of the manager, every resource of the
    new state is in a region of the manager. *)
Theorem update_reconciles_the_tracker LocalTZA m res now u :
  update LocalTZA m res now = JS.Ok u ->
  (forall sr,
     In sr (__internalState (updated u))
     <-> In sr (__internalState m)
         /\ now - Tracked.submitted sr < 15 * 60 * 1000
         /\ ~ In (requestIdOf sr) (knownSpotInstanceRequestIds (updated u)))
  /\ ((forall sr, In sr (__internalState m) ->
         In (SpotRequest.Region (Tracked.request sr)) (regions m)) ->
      regionsKnown (updated u)).
Proof.
  intros Hu.
  apply update_resolved in Hu
    as (apiState & deadState & m2 & Hliving & _ & _ & Hapi & _ & _ & Hregions & Htracker).
  assert (Hkept : forall sr,
             In sr (__internalState (updated u))
             <-> In sr (__internalState m)
                 /\ now - Tracked.submitted sr < 15 * 60 * 1000
                 /\ ~ In (requestIdOf sr) (knownSpotInstanceRequestIds (updated u))).
  { intros sr. rewrite Htracker, filter_In. unfold stillInFlight, requestIdOf.
    rewrite <- includes_not_In.
    destruct (JS.includes (knownSpotInstanceRequestIds (updated u)) _).
    - cbn [fst]. intuition discriminate.
    - destruct (now - Tracked.submitted sr >=? 15 * 60 * 1000) eqn:E; cbn [fst].
      + intuition (try discriminate; lia).
      + intuition lia. }
  split; [exact Hkept |].
  intros Hknown. apply classify_regions in Hliving as (Hi & Hr).
  unfold regionsKnown. rewrite Hapi, Hregions. split; [exact Hi |].
  split; [exact Hr |].
  intros sr Hin. apply Hkept in Hin. now apply Hknown.
Qed.

(** X30: the requests a resolved [update] cancels, in the time zone of the
    process.  On an answer whose regions are distinct, every open request
    whose kill time is before now, or whose status code is one of
    [stalledStates], is cancelled, in a call for its region; every call is
    a [cancelSpotInstanceRequests] for a region of the answer, and names
    none but such requests of that region.  The kill time is what
    [setMinutes(getMinutes() + 20)] makes of the create time, 20 minutes
    more on the local clock; in a zone whose offset does not change it is
    20 minutes after the create time. *)
Theorem update_cancels_the_stalled LocalTZA m res now u :
  NoDup (keys (livingSpotRequests res)) ->
  update LocalTZA m res now = JS.Ok u ->
  (forall region reqs sr,
     In (region, reqs) (livingSpotRequests res) -> In sr reqs ->
     isStalled LocalTZA now sr = true ->
     exists ids,
       In (Ec2.cancelSpotInstanceRequests region ids) (cancelled u)
       /\ In (SpotRequest.SpotInstanceRequestId sr) ids)
  /\ (forall call,
        In call (cancelled u) ->
        exists region reqs ids,
          In (region, reqs) (livingSpotRequests res)
          /\ call = Ec2.cancelSpotInstanceRequests region ids
          /\ forall id,
               In id ids ->
               exists sr,
                 In sr reqs /\ isStalled LocalTZA now sr = true
                 /\ SpotRequest.SpotInstanceRequestId sr = id)
  /\ (forall offset,
        (forall t isUTC, LocalTZA t isUTC = offset) ->
        forall sr,
          isStalled LocalTZA now sr
          = (SpotRequest.CreateTime sr + 20 * 60 * 1000 <? now)
            || JS.includes stalledStates (SpotRequest.StatusCode sr)).
Proof.
  intros Hnd Hu.
  apply update_resolved in Hu as (apiState & deadState & m2 & _ & _ & Hsent & _).
  destruct (stalled_requests_are_cancelled LocalTZA now (livingSpotRequests res) Hnd)
    as (calls & Hrun & Hall & Honly).
  rewrite Hrun in Hsent. injection Hsent as <-.
  split; [assumption |]. split; [assumption |].
  intros offset Hfixed sr. unfold isStalled. rewrite setMinutes_plus.
  unfold Date.UTC, Date.LocalTime. rewrite !Hfixed.
  f_equal. f_equal. unfold Date.msPerMinute. lia.
Qed.

(** The update of minute 100: the tracker loses the request that is now
    visible and keeps the one that is not; the request whose price is too
    low is cancelled. *)
Lemma update_at_minute_100 :
  exists u,
    update (Date.fixedOffset 0) beforeUpdate described (100 * minute) = JS.Ok u
    /\ map requestIdOf (__internalState (updated u)) = ["sir-unseen"]
    /\ map SpotRequest.SpotInstanceRequestId (requests (__apiState (updated u)))
       = ["sir-fresh"]
    /\ cancelled u = [Ec2.cancelSpotInstanceRequests "us-west-2" ["sir-low"; "sir-low"]].
Proof.
  eexists. split; [reflexivity |]. repeat split.
Qed.

Lemma described_regions_distinct : NoDup (keys (livingSpotRequests described)).
Proof.
  repeat constructor; simpl; intuition discriminate.
Qed.

(** X30 on the update of minute 100, in UTC. *)
Lemma update_cancels_the_stalled_witness :
  exists u,
    update (Date.fixedOffset 0) beforeUpdate described (100 * minute) = JS.Ok u
    /\ (forall region reqs sr,
          In (region, reqs) (livingSpotRequests described) -> In sr reqs ->
          isStalled (Date.fixedOffset 0) (100 * minute) sr = true ->
          exists ids,
            In (Ec2.cancelSpotInstanceRequests region ids) (cancelled u)
            /\ In (SpotRequest.SpotInstanceRequestId sr) ids)
    /\ (forall call,
          In call (cancelled u) ->
          exists region reqs ids,
            In (region, reqs) (livingSpotRequests described)
            /\ call = Ec2.cancelSpotInstanceRequests region ids
            /\ forall id,
                 In id ids ->
                 exists sr,
                   In sr reqs /\ isStalled (Date.fixedOffset 0) (100 * minute) sr = true
                   /\ SpotRequest.SpotInstanceRequestId sr = id)
    /\ (forall offset,
          (forall t isUTC, Date.fixedOffset 0 t isUTC = offset) ->
          forall sr,
            isStalled (Date.fixedOffset 0) (100 * minute) sr
            = (SpotRequest.CreateTime sr + 20 * 60 * 1000 <? 100 * minute)
              || JS.includes stalledStates (SpotRequest.StatusCode sr)).
Proof.
  eexists. split; [reflexivity |].
  apply (update_cancels_the_stalled (Date.fixedOffset 0) beforeUpdate described
           (100 * minute)).
  - exact described_regions_distinct.
  - reflexivity.
Defined.

(** X28 on the update of minute 100. *)
Lemma update_classifies_the_living_witness :
  exists u,
    update (Date.fixedOffset 0) beforeUpdate described (100 * minute) = JS.Ok u
    /\ __previousApiState (updated u) = __apiState beforeUpdate
    /\ (forall classified,
          In classified (instances (__apiState (updated u)))
          <-> exists region Reservations reservation instance,
                In region (regions beforeUpdate)
                /\ getKey region (livingInstances described) = Some Reservations
                /\ In reservation Reservations
                /\ In instance reservation
                /\ classified = classifyInstance beforeUpdate region instance)
    /\ (forall classified,
          In classified (requests (__apiState (updated u)))
          <-> exists region reqs request,
                In region (regions beforeUpdate)
                /\ getKey region (livingSpotRequests described) = Some reqs
                /\ In request reqs
                /\ JS.includes stalledStates (SpotRequest.StatusCode request) = false
                /\ classified = classifyRequest beforeUpdate region request).
Proof.
  eexists. split; [reflexivity |].
  apply (update_classifies_the_living (Date.fixedOffset 0) beforeUpdate described (100 * minute)).
  - exact described_regions_distinct.
  - reflexivity.
Defined.

(** X29 on the update of minute 100. *)
Lemma update_reconciles_the_tracker_witness :
  exists u,
    update (Date.fixedOffset 0) beforeUpdate described (100 * minute) = JS.Ok u
    /\ (forall sr,
          In sr (__internalState (updated u))
          <-> In sr (__internalState beforeUpdate)
              /\ 100 * minute - Tracked.submitted sr < 15 * 60 * 1000
              /\ ~ In (requestIdOf sr) (knownSpotInstanceRequestIds (updated u)))
    /\ ((forall sr, In sr (__internalState beforeUpdate) ->
           In (SpotRequest.Region (Tracked.request sr)) (regions beforeUpdate)) ->
        regionsKnown (updated u)).
Proof.
  eexists. split; [reflexivity |].
  apply (update_reconciles_the_tracker (Date.fixedOffset 0) beforeUpdate described (100 * minute)).
  reflexivity.
Defined.
